(** * Flagsmith infrastructure challenger: environment lifecycle manager

    A shallow embedding of [cli/challenges.py] (class [ChallengeManager])
    and [cli/main.py] (classes [InterviewSession] and [InterviewCLI]), and
    the properties of the lifecycle manager proved over it.

    The Python methods talk to the outside world all the time (external
    commands, files, a background process, one HTTP request, the clock, the
    keyboard).  Every such interaction is an operation [op R] answered by an
    arbitrary handler [sys] over an arbitrary type of worlds; a method is a
    function from a world and the object it is called on to a result, the
    next world, the updated object and the list of events it produced.
    The theorems quantify over the handler, so they hold whatever the
    external commands, files and network do. *)

From Stdlib Require Import ZArith List String Ascii Bool Lia DecimalString
  DecimalPos.
Import ListNotations.
Local Open Scope string_scope.
Local Open Scope list_scope.

(** ** Python values and exceptions *)

Module Py.

(** Exception classes that the two files raise, catch or let through.  An
    exception instance is modelled by its class.  Interrupts delivered
    asynchronously (KeyboardInterrupt, SystemExit from a signal handler) are
    outside the model, except at [input()] where the code catches Ctrl+C. *)
Inductive exn : Set :=
| Exception
| OSError
| FileNotFoundError
| CalledProcessError
| TimeoutExpired
| YAMLError
| ValueError
| UnicodeDecodeError
| TypeError
| AttributeError
| KeyError
| UnboundLocalError
| AssertionError
| EOFError
| RequestException
| RequestsConnectionError
| RequestsTimeout
| ConnectTimeout
| ReadTimeout.

Definition exn_eqb (a b : exn) : bool :=
  match a, b with
  | Exception, Exception | OSError, OSError
  | FileNotFoundError, FileNotFoundError
  | CalledProcessError, CalledProcessError
  | TimeoutExpired, TimeoutExpired | YAMLError, YAMLError
  | ValueError, ValueError | UnicodeDecodeError, UnicodeDecodeError
  | TypeError, TypeError | AttributeError, AttributeError
  | KeyError, KeyError | UnboundLocalError, UnboundLocalError
  | AssertionError, AssertionError | EOFError, EOFError
  | RequestException, RequestException
  | RequestsConnectionError, RequestsConnectionError
  | RequestsTimeout, RequestsTimeout | ConnectTimeout, ConnectTimeout
  | ReadTimeout, ReadTimeout => true
  | _, _ => false
  end.

(** Direct base classes.  [requests.RequestException] derives from IOError,
    which is OSError; [ConnectTimeout] derives from both
    [requests.ConnectionError] and [requests.Timeout] (here
    [RequestsTimeout]). *)
Definition bases (c : exn) : list exn :=
  match c with
  | Exception => []
  | FileNotFoundError => [OSError]
  | UnicodeDecodeError => [ValueError]
  | RequestException => [OSError]
  | RequestsConnectionError => [RequestException]
  | RequestsTimeout => [RequestException]
  | ConnectTimeout => [RequestsConnectionError; RequestsTimeout]
  | ReadTimeout => [RequestsTimeout]
  | _ => [Exception]
  end.

Fixpoint issubclass_upto (depth : nat) (c d : exn) : bool :=
  exn_eqb c d ||
  match depth with
  | O => false
  | S k => existsb (fun b => issubclass_upto k b d) (bases c)
  end.

(** [isinstance e d]: an [except d] clause catches [e]. *)
Definition isinstance (e d : exn) : bool := issubclass_upto 5 e d.

(** The answer of a call that may raise: a value, or an exception. *)
Inductive reply (R : Type) : Type :=
| Ok (r : R)
| Err (e : exn).
Arguments Ok {R} r.
Arguments Err {R} e.

(** What [yaml.safe_load] yields on the documents the tool reads: null,
    booleans, integers, strings, sequences and mappings. *)
Inductive key : Set :=
| KStr (s : string)
| KInt (z : Z)
| KBool (b : bool)
| KNone.

#[local] Set Warnings "-register-all".
Inductive value : Set :=
| VNone
| VBool (b : bool)
| VInt (z : Z)
| VStr (s : string)
| VList (items : list value)
| VDict (items : list (key * value)).

Definition dict : Set := list (key * value).

(** Truth value of an object, as [if x:] and [not x] take it. *)
Definition truthy (v : value) : bool :=
  match v with
  | VNone => false
  | VBool b => b
  | VInt z => negb (z =? 0)%Z
  | VStr s => negb (s =? "")
  | VList l => match l with [] => false | _ => true end
  | VDict d => match d with [] => false | _ => true end
  end.

Definition key_is (k : key) (s : string) : bool :=
  match k with KStr t => t =? s | _ => false end.

(** [d.get(k)], as an option. *)
Fixpoint lookup (d : dict) (s : string) : option value :=
  match d with
  | [] => None
  | (k, v) :: rest => if key_is k s then Some v else lookup rest s
  end.

(** [k in d]. *)
Definition contains (d : dict) (s : string) : bool :=
  match lookup d s with Some _ => true | None => false end.

(** [d.get(k)] and [d.get(k, default)]. *)
Definition get (d : dict) (s : string) : value :=
  match lookup d s with Some v => v | None => VNone end.

Definition get_default (d : dict) (s : string) (default : value) : value :=
  match lookup d s with Some v => v | None => default end.

(** [str(n)] for an integer. *)
Definition str_int (z : Z) : string := NilZero.string_of_int (Z.to_int z).

(** Whitespace as [str.strip()] sees it on ASCII text. *)
Definition is_space (c : ascii) : bool :=
  let n := nat_of_ascii c in
  Nat.eqb n 32 || (Nat.leb 9 n && Nat.leb n 13) || (Nat.leb 28 n && Nat.leb n 31).

Fixpoint lstrip (s : string) : string :=
  match s with
  | EmptyString => EmptyString
  | String c rest => if is_space c then lstrip rest else s
  end.

Fixpoint rstrip (s : string) : string :=
  match s with
  | EmptyString => EmptyString
  | String c rest =>
      match rstrip rest with
      | EmptyString => if is_space c then EmptyString else String c EmptyString
      | t => String c t
      end
  end.

Definition strip (s : string) : string := rstrip (lstrip s).

(** [s.split(sep)] for a one-character separator. *)
Fixpoint split (sep : ascii) (s : string) : list string :=
  match s with
  | EmptyString => [EmptyString]
  | String c rest =>
      if Ascii.eqb c sep then EmptyString :: split sep rest
      else match split sep rest with
           | [] => [String c EmptyString]
           | t :: ts => String c t :: ts
           end
  end.

Definition newline : ascii := ascii_of_nat 10.

(** The double quote, for command lines that contain one. *)
Definition dq : string := String (ascii_of_nat 34) EmptyString.

Fixpoint starts_with (p s : string) : bool :=
  match p, s with
  | EmptyString, _ => true
  | String a p', String b s' => Ascii.eqb a b && starts_with p' s'
  | String _ _, EmptyString => false
  end.

(** [s.replace(old, new)] for a non-empty [old]: leftmost matches, not
    overlapping.  [skip] counts the characters of a match still to drop. *)
Fixpoint replace_from (old new : string) (skip : nat) (s : string) : string :=
  match s with
  | EmptyString => EmptyString
  | String c rest =>
      match skip with
      | S k => replace_from old new k rest
      | O => if starts_with old s
             then new ++ replace_from old new (String.length old - 1) rest
             else String c (replace_from old new 0 rest)
      end
  end.

Definition replace (old new s : string) : string := replace_from old new 0 s.

(** [sorted(names)] on strings. *)
Fixpoint insert_sorted (x : string) (l : list string) : list string :=
  match l with
  | [] => [x]
  | y :: rest => if (x <=? y)%string then x :: l else y :: insert_sorted x rest
  end.

Definition sorted (l : list string) : list string :=
  fold_right insert_sorted [] l.

(** [d[k]]. *)
Definition getitem (v : value) (s : string) : reply value :=
  match v with
  | VDict d => match lookup d s with Some x => Ok x | None => Err KeyError end
  | _ => Err TypeError
  end.

Definition key_value (k : key) : value :=
  match k with
  | KStr s => VStr s
  | KInt z => VInt z
  | KBool b => VBool b
  | KNone => VNone
  end.

(** The items a [for] loop over [v] visits; an integer, a boolean or None
    is not iterable. *)
Definition iterate (v : value) : reply (list value) :=
  match v with
  | VList l => Ok l
  | VDict d => Ok (map (fun kv => key_value (fst kv)) d)
  | VStr s => Ok (map (fun c => VStr (String c EmptyString)) (list_ascii_of_string s))
  | _ => Err TypeError
  end.

(** [range(n)]. *)
Definition range (n : nat) : list Z := map Z.of_nat (seq 0 n).

(** [f"{n:02d}"] for a non-negative integer. *)
Definition fmt02d (z : Z) : string :=
  if (0 <=? z)%Z && (z <? 10)%Z then "0" ++ str_int z else str_int z.

(** [name.rfind('.')] as a cut: the text before the last dot and the text
    after it, when there is a dot. *)
Fixpoint split_last_dot (s : string) : option (string * string) :=
  match s with
  | EmptyString => None
  | String c rest =>
      match split_last_dot rest with
      | Some (before, after) => Some (String c before, after)
      | None => if Ascii.eqb c "." then Some (EmptyString, rest) else None
      end
  end.

(** [Path(name).stem] for a bare file name (no directory part, as
    [filepath.name] always is): with [i = name.rfind('.')], the text
    before the last dot when [0 < i < len(name) - 1], the whole name
    otherwise. *)
Definition stem (name : string) : string :=
  match split_last_dot name with
  | Some (before, after) =>
      if negb (before =? "") && negb (after =? "") then before else name
  | None => name
  end.

Definition is_digit (c : ascii) : bool :=
  let n := nat_of_ascii c in Nat.leb 48 n && Nat.leb n 57.

(** [s.isdigit()] on ASCII text: not empty, and digits only. *)
Definition isdigit (s : string) : bool :=
  negb (s =? "") && forallb is_digit (list_ascii_of_string s).

(** CPython's default limit on the digits of a decimal literal handed to
    [int()]. *)
Definition int_max_str_digits : nat := 4300.

(** [int(s)] for ASCII text made of digits: the number read in base ten;
    ValueError when there are more digits than the limit. *)
Definition int_of_digits (s : string) : reply Z :=
  if Nat.ltb int_max_str_digits (String.length s) then Err ValueError
  else
    match NilZero.uint_of_string s with
    | Some d => Ok (Z.of_uint d)
    | None => Err ValueError
    end.

End Py.

Export Py.

(** ** The outside world *)

Module Sys.

(** The result object of [subprocess.run]. *)
Record CompletedProcess : Set := mkCompleted {
  returncode : Z;
  stdout : string
}.

(** A handle on a background process ([subprocess.Popen]). *)
Definition pid : Set := nat.

(** What [input()] gives back: a line, or Ctrl+C. *)
Inductive keyboard : Set :=
| Line (text : string)
| CtrlC.

(** The interactions of the two files with their environment.
    [Exec cmd capture] is [subprocess.run(shlex.split(cmd), text=True,
    capture_output=capture)] without the exit-code check, which
    [subprocess_run] below adds; it fails when the command cannot be split
    or started. *)
Inductive op : Type -> Type :=
| Exec (cmd : string) (capture_output : bool) : op CompletedProcess
| Sleep (seconds : Z) : op unit
| PathExists (path : string) : op bool
| ReadText (path : string) : op string
| WriteText (path content : string) : op unit
| Glob (dir pattern : string) : op (list string)
| Popen (cmd : string) : op pid
| ProcPoll (p : pid) : op (option Z)
| ProcTerminate (p : pid) : op unit
| ProcWait (p : pid) (timeout : Z) : op Z
| ProcKill (p : pid) : op unit
| HttpGet (url : string) (timeout : Z) : op Z
| Input : op keyboard
| Now : op Z.

(** What a method leaves behind: the operations it performed with their
    answers, the methods of [ChallengeManager] it entered, and the lines it
    sent to the terminal. *)
Inductive event : Type :=
| EvCall {R : Type} (o : op R) (r : reply R)
| EvEnter (method : string)
| EvPrint (text : string).

(** How a method call ends: it returns, it raises, or (for the keyboard
    loop only) the fuel of the model runs out. *)
Inductive res (A : Type) : Type :=
| Ret (a : A)
| Exn (e : exn)
| Diverge.
Arguments Ret {A} a.
Arguments Exn {A} e.
Arguments Diverge {A}.

Section Monad.
Context {World : Type}.

Record run (H A : Type) : Type := Run {
  result : res A;
  world : World;
  self : H;
  events : list event
}.
Arguments Run {H A}.
Arguments result {H A}.
Arguments world {H A}.
Arguments self {H A}.
Arguments events {H A}.

(** A method of an object of type [H] returning an [A]. *)
Definition M (H A : Type) : Type := World -> H -> run H A.

Variable sys : forall R, op R -> World -> reply R * World.

Definition ret {H A} (a : A) : M H A :=
  fun w h => Run (Ret a) w h [].

Definition raise {H A} (e : exn) : M H A :=
  fun w h => Run (Exn e) w h [].

Definition bind {H A B} (m : M H A) (f : A -> M H B) : M H B :=
  fun w h =>
    match m w h with
    | Run (Ret a) w1 h1 evs1 =>
        match f a w1 h1 with
        | Run r w2 h2 evs2 => Run r w2 h2 (evs1 ++ evs2)
        end
    | Run (Exn e) w1 h1 evs1 => Run (Exn e) w1 h1 evs1
    | Run Diverge w1 h1 evs1 => Run Diverge w1 h1 evs1
    end.

(** Perform one operation. *)
Definition call {H R} (o : op R) : M H R :=
  fun w h =>
    match sys R o w with
    | (Ok r, w1) => Run (Ret r) w1 h [EvCall o (Ok r)]
    | (Err e, w1) => Run (Exn e) w1 h [EvCall o (Err e)]
    end.

(** The model has run out of fuel. *)
Definition diverge {H A} : M H A :=
  fun w h => Run Diverge w h [].

Definition emit {H} (e : event) : M H unit :=
  fun w h => Run (Ret tt) w h [e].

(** [print(...)] and [console.print(...)]: the terminal is a sink. *)
Definition print {H} (text : string) : M H unit := emit (EvPrint text).

(** Entry of a method of [ChallengeManager]. *)
Definition method {H A} (name : string) (body : M H A) : M H A :=
  bind (emit (EvEnter name)) (fun _ => body).

Definition read {H} : M H H :=
  fun w h => Run (Ret h) w h [].

Definition write {H} (h : H) : M H unit :=
  fun w _ => Run (Ret tt) w h [].

(** [try: m  except ...: handler e].  A handler that does not match
    re-raises. *)
Definition try_except {H A} (m : M H A) (handler : exn -> M H A) : M H A :=
  fun w h =>
    match m w h with
    | Run (Exn e) w1 h1 evs1 =>
        match handler e w1 h1 with
        | Run r w2 h2 evs2 => Run r w2 h2 (evs1 ++ evs2)
        end
    | done => done
    end.

(** [try: m  finally: cleanup].  The outcome of [m], a returned value
    included, stands unless [cleanup] raises. *)
Definition try_finally {H A} (m : M H A) (cleanup : M H unit) : M H A :=
  fun w h =>
    match m w h with
    | Run Diverge w1 h1 evs1 => Run Diverge w1 h1 evs1
    | Run r w1 h1 evs1 =>
        match cleanup w1 h1 with
        | Run (Ret _) w2 h2 evs2 => Run r w2 h2 (evs1 ++ evs2)
        | Run (Exn e) w2 h2 evs2 => Run (Exn e) w2 h2 (evs1 ++ evs2)
        | Run Diverge w2 h2 evs2 => Run Diverge w2 h2 (evs1 ++ evs2)
        end
    end.

(** A pure computation that may raise. *)
Definition lift_reply {H A} (r : reply A) : M H A :=
  match r with Ok a => ret a | Err e => raise e end.

(** Run a method of a component [G] of the object [H]. *)
Definition within {H G A} (proj : H -> G) (upd : G -> H -> H) (m : M G A)
  : M H A :=
  fun w h =>
    match m w (proj h) with
    | Run r w1 g evs => Run r w1 (upd g h) evs
    end.

(** How one turn of a [for] loop ends. *)
Inductive turn (A : Type) : Type :=
| Next
| Break
| Return (a : A).
Arguments Next {A}.
Arguments Break {A}.
Arguments Return {A} a.

(** [for x in xs: body x]; [Some a] when the body returned [a] from the
    enclosing method, [None] when the loop ran out or was left by
    [break]. *)
Fixpoint for_in {H X A} (xs : list X) (body : X -> M H (turn A))
  : M H (option A) :=
  match xs with
  | [] => ret None
  | x :: rest =>
      bind (body x) (fun t =>
        match t with
        | Next => for_in rest body
        | Break => ret None
        | Return a => ret (Some a)
        end)
  end.

(** [subprocess.run(shlex.split(cmd), check=check, text=True,
    capture_output=capture)]. *)
Definition subprocess_run {H} (cmd : string) (check capture : bool)
  : M H CompletedProcess :=
  bind (call (Exec cmd capture)) (fun cp =>
    if check && negb (returncode cp =? 0)%Z
    then raise CalledProcessError
    else ret cp).

End Monad.

Arguments Run {World H A}.
Arguments result {World H A}.
Arguments world {World H A}.
Arguments self {World H A}.
Arguments events {World H A}.
Arguments Next {A}.
Arguments Break {A}.
Arguments Return {A} a.

Declare Scope py_scope.
Delimit Scope py_scope with py.
Notation "x <- m ;; k" := (bind m (fun x => k))
  (at level 61, m at next level, right associativity) : py_scope.
Notation "m ;; k" := (bind m (fun _ => k))
  (at level 61, right associativity) : py_scope.

(** Observations on events. *)

Definition is_exec (cmd : string) (e : event) : bool :=
  match e with
  | EvCall o _ => match o with Exec c _ => c =? cmd | _ => false end
  | _ => false
  end.

Definition is_enter (name : string) (e : event) : bool :=
  match e with
  | EvEnter m => m =? name
  | _ => false
  end.

(** The command lines handed to [subprocess.run], in order. *)
Fixpoint commands (evs : list event) : list string :=
  match evs with
  | [] => []
  | EvCall o _ :: rest =>
      match o with
      | Exec c _ => c :: commands rest
      | _ => commands rest
      end
  | _ :: rest => commands rest
  end.

Definition count (p : event -> bool) (evs : list event) : nat :=
  List.length (filter p evs).

End Sys.

Export Sys.

(** ** cli/challenges.py *)

Module ChallengeManager.

Local Open Scope string_scope.

(** class Challenge.  The metadata fields hold whatever the YAML document
    had under their keys. *)
Record Challenge : Set := mkChallenge {
  filename : string;
  name : value;
  description : value;
  helm_values : value;
  kubectl_patches : value;
  estimates : value;
  challenge_dir : string;
  _manual : option string
}.

(** The fields of a [ChallengeManager] object. *)
Record t : Set := mkManager {
  challenges_dir : string;
  challenges : list Challenge;
  current_challenge : option Challenge;
  flagsmith_namespace : string;
  helm_release_name : string;
  candidate_container_name : string
}.

(** [ChallengeManager.__init__]; [unique_id] is [str(uuid.uuid4())[:12]].
    The registration of [_cleanup] with [atexit] and [signal] is not part
    of the model. *)
Definition init (dir unique_id : string) : t :=
  {| challenges_dir := dir;
     challenges := [];
     current_challenge := None;
     flagsmith_namespace := "flagsmith";
     helm_release_name := "flagsmith";
     candidate_container_name := "k8s_challenger-candidate-env-" ++ unique_id |}.

Definition set_challenges (cs : list Challenge) (h : t) : t :=
  {| challenges_dir := challenges_dir h;
     challenges := cs;
     current_challenge := current_challenge h;
     flagsmith_namespace := flagsmith_namespace h;
     helm_release_name := helm_release_name h;
     candidate_container_name := candidate_container_name h |}.

Definition set_current_challenge (c : option Challenge) (h : t) : t :=
  {| challenges_dir := challenges_dir h;
     challenges := challenges h;
     current_challenge := c;
     flagsmith_namespace := flagsmith_namespace h;
     helm_release_name := helm_release_name h;
     candidate_container_name := candidate_container_name h |}.

(** [str(v)] inside an f-string; [repr] stands for the text Python gives a
    sequence or a mapping. *)
Definition format (repr : value -> string) (v : value) : string :=
  match v with
  | VNone => "None"
  | VBool true => "True"
  | VBool false => "False"
  | VInt z => str_int z
  | VStr s => s
  | _ => repr v
  end.

(** Text of an exception in a message: the class stands for the
    instance. *)
Definition exn_text (e : exn) : string :=
  match e with
  | CalledProcessError => "CalledProcessError"
  | OSError => "OSError"
  | FileNotFoundError => "FileNotFoundError"
  | TypeError => "TypeError"
  | ValueError => "ValueError"
  | _ => "Exception"
  end.

Definition docker_compose_down : string :=
  "docker-compose down --volumes --remove-orphans".

Definition docker_ps : string :=
  "docker ps -a --filter " ++ dq ++ "name=k8s_challenger-candidate-env" ++ dq
  ++ " --format " ++ dq ++ "{{.ID}}" ++ dq.

Definition docker_rm (container_id : string) : string :=
  "docker rm -f " ++ container_id.

Definition required_fields : list string :=
  ["name"; "description"; "helm_values"; "kubectl_patches"; "estimates"].

Definition git_clone_charts : string :=
  "git clone https://github.com/Flagsmith/flagsmith-charts.git /tmp/flagsmith-charts".

Definition values_file : string := "/tmp/flagsmith-values.yaml".

Definition original_values : string :=
  "/tmp/flagsmith-charts/charts/flagsmith/values.yaml".

Definition copy_original_values : string :=
  "cp " ++ original_values ++ " " ++ values_file.

Definition helm_upgrade (h : t) : string :=
  "helm upgrade --install " ++ helm_release_name h ++ " flagsmith/flagsmith "
  ++ "-f " ++ values_file ++ " -n " ++ flagsmith_namespace h
  ++ " --create-namespace".

Definition kubectl_patch (resource name namespace patch_type patch_json : string)
  : string :=
  "kubectl patch " ++ resource ++ " " ++ name ++ " -n " ++ namespace ++ " "
  ++ "--type " ++ patch_type ++ " -p '" ++ patch_json ++ "'".

Definition status_file : string := "/tmp/tmate-info/status".
Definition ssh_file : string := "/tmp/tmate-info/ssh".
Definition web_file : string := "/tmp/tmate-info/web".

Definition get_service (h : t) : string :=
  "kubectl get service " ++ helm_release_name h ++ "-api -n "
  ++ flagsmith_namespace h.

Definition local_port : Z := 8080.

Definition port_forward_cmd (h : t) : string :=
  "kubectl port-forward svc/" ++ helm_release_name h ++ "-api "
  ++ str_int local_port ++ ":8000 -n " ++ flagsmith_namespace h.

Definition health_url : string :=
  "http://localhost:" ++ str_int local_port ++ "/health/liveness/".

(** The chain of comparisons on [response.status_code] in
    [check_health]. *)
Definition classify_status (status_code : Z) : bool * string * option Z :=
  let is_healthy := (status_code =? 200)%Z in
  if is_healthy then (true, "Healthy", Some status_code)
  else if (status_code =? 404)%Z then (false, "Endpoint not found", Some status_code)
  else if (status_code =? 500)%Z then (false, "Server error", Some status_code)
  else if (status_code =? 503)%Z then (false, "Service unavailable", Some status_code)
  else (false, "HTTP " ++ str_int status_code, Some status_code).

Definition docker_inspect_k3s : string :=
  "docker inspect k8s_challenger-k3s-1 --format " ++ dq
  ++ "{{range .NetworkSettings.Networks}}{{.NetworkID}}{{end}}" ++ dq.

Definition docker_run (h : t) (network_id : string) : string :=
  "docker run -d --name " ++ candidate_container_name h ++ " --network "
  ++ network_id ++ " "
  ++ "--user root --rm -v k8s_challenger_k3s-server:/etc/rancher/k3s:ro "
  ++ "-v k8s_challenger_kubeconfig-data:/home/candidate/.kube-shared:ro "
  ++ "-v k8s_challenger_tmate-info:/tmp/tmate-info "
  ++ "--env KUBECONFIG=/home/candidate/.kube/config k8s_challenger-candidate-env".

Section Methods.
Context {World : Type}.
Variable sys : forall R, op R -> World -> reply R * World.

(** [yaml.safe_load], [yaml.dump], [json.dumps] and the text of a
    container value are taken as they come. *)
Variable yaml_safe_load : string -> reply value.
Variable yaml_dump : value -> reply string.
Variable json_dumps : value -> reply string.
Variable repr : value -> string.

Local Open Scope py_scope.

(** A method of [ChallengeManager] returning an [A]. *)
Definition Method (A : Type) : Type := @Sys.M World t A.

(** The swallow-all clause [except Exception: ...]. *)
Definition except_Exception {A} (handler : Method A) (e : exn) : Method A :=
  if isinstance e Exception then handler else raise e.

Definition _run_command (cmd : string) (check verbose : bool)
  : Method CompletedProcess :=
  subprocess_run sys cmd check (negb verbose).

(** One turn of the loop of [_force_cleanup_containers]. *)
Definition remove_container (container_id : string) : Method (turn unit) :=
  if negb (strip container_id =? "")
  then _ <- _run_command (docker_rm (strip container_id)) false false ;;
       ret Next
  else ret Next.

Definition _force_cleanup_containers : Method unit :=
  method "_force_cleanup_containers"
    (try_except
       (result <- _run_command docker_ps false false ;;
        if (returncode result =? 0)%Z && negb (strip (stdout result) =? "")
        then
          let container_ids := split newline (strip (stdout result)) in
          _ <- for_in container_ids remove_container ;;
          ret tt
        else ret tt)
       (except_Exception (ret tt))).

Definition _cleanup : Method unit :=
  method "_cleanup"
    (_ <- _run_command docker_compose_down false false ;;
     _force_cleanup_containers).

Definition _signal_cleanup : Method unit :=
  method "_signal_cleanup" _cleanup.

Definition _parse_challenge_file (dir file : string) : Method (option Challenge) :=
  method "_parse_challenge_file"
    (loaded <- try_except
                 (text <- call sys (ReadText (dir ++ "/" ++ file)) ;;
                  data <- lift_reply (yaml_safe_load text) ;;
                  ret (Some data))
                 (fun e => if isinstance e YAMLError || isinstance e OSError
                           then ret None else raise e) ;;
     match loaded with
     | None => ret None
     | Some data =>
         let is_dict := match data with VDict _ => true | _ => false end in
         let has field :=
           match data with VDict d => contains d field | _ => false end in
         if negb is_dict || negb (forallb has required_fields)
         then ret None
         else
           name <- lift_reply (getitem data "name") ;;
           description <- lift_reply (getitem data "description") ;;
           helm_values <- lift_reply (getitem data "helm_values") ;;
           kubectl_patches <- lift_reply (getitem data "kubectl_patches") ;;
           estimates <- lift_reply (getitem data "estimates") ;;
           ret (Some {| filename := file;
                        name := name;
                        description := description;
                        helm_values := helm_values;
                        kubectl_patches := kubectl_patches;
                        estimates := estimates;
                        challenge_dir := dir;
                        _manual := None |})
     end).

(** One turn of the loop of [discover_challenges]. *)
Definition discover_one (dir yaml_file : string) : Method (turn unit) :=
  try_except
    (challenge <- _parse_challenge_file dir yaml_file ;;
     match challenge with
     | Some c =>
         h <- read ;;
         write (set_challenges (challenges h ++ [c])%list h) ;;
         ret Next
     | None => ret Next
     end)
    (except_Exception (ret Next)).

Definition discover_challenges : Method unit :=
  method "discover_challenges"
    (h <- read ;;
     write (set_challenges [] h) ;;
     present <- call sys (PathExists (challenges_dir h)) ;;
     if negb present then ret tt
     else
       names <- call sys (Glob (challenges_dir h) "*.yaml") ;;
       let yaml_files := sorted names in
       _ <- for_in yaml_files (discover_one (challenges_dir h)) ;;
       ret tt).

(** The property [Challenge.manual].  The text it caches in the
    challenge object is not kept: no method reads it twice. *)
Definition manual {H} (c : Challenge) : Sys.M (World := World) H string :=
  match _manual c with
  | Some text => ret text
  | None =>
      let manual_filename := replace ".yaml" ".md" (filename c) in
      call sys (ReadText (challenge_dir c ++ "/" ++ manual_filename))
  end.

Definition list_challenges : Method (list Challenge) :=
  method "list_challenges" (h <- read ;; ret (challenges h)).

Definition get_challenge (index : Z) : Method (option Challenge) :=
  method "get_challenge"
    (h <- read ;;
     if (0 <=? index)%Z && (index <? Z.of_nat (List.length (challenges h)))%Z
     then ret (nth_error (challenges h) (Z.to_nat index))
     else ret None).

Definition patch_warning (resource name : value) (e : exn) : string :=
  "Warning: Failed to apply patch to " ++ format repr resource ++ "/"
  ++ format repr name ++ ": " ++ exn_text e.

(** The loop of [_apply_kubectl_patches].  [bound] holds the values of
    the local variables [resource] and [name] left by an earlier turn, or
    [None] in the first turn: the [except] clause reads them.  An entry
    that is not a mapping has no [get], so [patch.get('resource')] raises
    AttributeError before the turn assigns anything; the clause then
    prints with the earlier values, and in the first turn its own
    f-string raises UnboundLocalError, which leaves the method. *)
Fixpoint patch_loop (patches : list value) (bound : option (value * value))
  : Method unit :=
  match patches with
  | [] => ret tt
  | patch :: rest =>
      match patch with
      | VDict d =>
          let resource := get d "resource" in
          let name := get d "name" in
          h <- read ;;
          let namespace :=
            get_default d "namespace" (VStr (flagsmith_namespace h)) in
          let patch_data := get_default d "patch" (VDict []) in
          let patch_type := get_default d "patch_type" (VStr "merge") in
          try_except
            (if negb (truthy resource) || negb (truthy name)
                || negb (truthy patch_data)
             then ret tt
             else
               patch_json <- lift_reply (json_dumps patch_data) ;;
               let kubectl_cmd :=
                 kubectl_patch (format repr resource) (format repr name)
                   (format repr namespace) (format repr patch_type)
                   patch_json in
               _ <- _run_command kubectl_cmd true true ;;
               ret tt)
            (fun e => if isinstance e Exception
                      then print (patch_warning resource name e)
                      else raise e) ;;
          patch_loop rest (Some (resource, name))
      | _ =>
          match bound with
          | Some (resource, name) =>
              print (patch_warning resource name AttributeError) ;;
              patch_loop rest bound
          | None => raise UnboundLocalError
          end
      end
  end.

Definition _apply_kubectl_patches (patches : value) : Method unit :=
  method "_apply_kubectl_patches"
    (items <- lift_reply (iterate patches) ;;
     patch_loop items None).

(** The step "Prepare values file" of [setup_challenge]. *)
Definition prepare_values_file (challenge : Challenge) : Method unit :=
  if truthy (helm_values challenge)
  then text <- lift_reply (yaml_dump (helm_values challenge)) ;;
       call sys (WriteText values_file text)
  else _ <- _run_command copy_original_values true false ;; ret tt.

(** The step "Add Flagsmith Helm repo" and the ones that follow it, up to
    the deployment. *)
Definition add_helm_repos : Method unit :=
  _ <- _run_command
         "helm repo add flagsmith https://flagsmith.github.io/flagsmith-charts/"
         false true ;;
  _ <- _run_command
         "helm repo add bitnami https://charts.bitnami.com/bitnami"
         false true ;;
  _ <- _run_command
         "helm repo add influxdata https://helm.influxdata.com/"
         false true ;;
  _ <- _run_command
         "helm repo add kiwigrid https://kiwigrid.github.io/helm-charts/"
         false true ;;
  _ <- _run_command "helm repo update" false true ;;
  _ <- _run_command
         "helm dependency build /tmp/flagsmith-charts/charts/flagsmith"
         false true ;;
  ret tt.

(** The step "Clone Flagsmith charts if not exists". *)
Definition clone_charts : Method unit :=
  present <- call sys (PathExists "/tmp/flagsmith-charts") ;;
  if negb present
  then _ <- _run_command git_clone_charts true true ;; ret tt
  else ret tt.

(** The step "Apply kubectl patches after successful helm deployment". *)
Definition apply_patches (challenge : Challenge) : Method unit :=
  if truthy (kubectl_patches challenge)
  then _apply_kubectl_patches (kubectl_patches challenge)
  else ret tt.

(** The body of the [try] of [setup_challenge]. *)
Definition provision (challenge : Challenge) : Method bool :=
  _cleanup ;;
  call sys (Sleep 2) ;;
  h <- read ;;
  _ <- _run_command ("kubectl create namespace " ++ flagsmith_namespace h)
                    false true ;;
  clone_charts ;;
  prepare_values_file challenge ;;
  add_helm_repos ;;
  _ <- _run_command (helm_upgrade h) true true ;;
  apply_patches challenge ;;
  ret true.

Definition setup_challenge (challenge : Challenge) : Method bool :=
  method "setup_challenge"
    (h <- read ;;
     write (set_current_challenge (Some challenge) h) ;;
     try_except (provision challenge) (except_Exception (ret false))).

Definition _cleanup_deployment : Method unit :=
  method "_cleanup_deployment" _cleanup.

(** The [finally] clause of [check_health]. *)
Definition release_port_forward (port_forward_proc : pid) : Method unit :=
  try_except
    (call sys (ProcTerminate port_forward_proc) ;;
     _ <- call sys (ProcWait port_forward_proc 5) ;;
     ret tt)
    (except_Exception
       (try_except
          (call sys (ProcKill port_forward_proc))
          (except_Exception (ret tt)))).

(** The [except] clauses that close [check_health], in their order. *)
Definition probe_failure (e : exn) : Method (bool * string * option Z) :=
  if isinstance e ConnectTimeout
  then ret (false, "Connection timeout", None)
  else if isinstance e RequestsConnectionError
  then ret (false, "Cannot connect to service", None)
  else if isinstance e RequestsTimeout
  then ret (false, "Request timeout", None)
  else if isinstance e RequestException
  then ret (false, "Network error", None)
  else if isinstance e Exception
  then ret (false, "Health check failed", None)
  else raise e.

(** The body of the inner [try] of [check_health], between the start of
    the port-forward and the [finally] clause. *)
Definition probe (port_forward_proc : pid)
  : Method (bool * string * option Z) :=
  call sys (Sleep 2) ;;
  exited <- call sys (ProcPoll port_forward_proc) ;;
  match exited with
  | Some _ => ret (false, "Port-forward failed", None)
  | None =>
      status_code <- call sys (HttpGet health_url 5) ;;
      ret (classify_status status_code)
  end.

Definition check_health : Method (bool * string * option Z) :=
  method "check_health"
    (h <- read ;;
     try_except
       (result <- _run_command (get_service h) false false ;;
        if negb (returncode result =? 0)%Z
        then ret (false, "Service not deployed", None)
        else
          port_forward_proc <- call sys (Popen (port_forward_cmd h)) ;;
          try_finally
            (probe port_forward_proc)
            (release_port_forward port_forward_proc))
       probe_failure).

Definition get_tmate_info : Method (bool * option string * option string) :=
  method "get_tmate_info"
    (try_except
       (present <- call sys (PathExists status_file) ;;
        if negb present then ret (false, None, None)
        else
          text <- call sys (ReadText status_file) ;;
          let status := strip text in
          if negb (status =? "ready") then ret (false, None, None)
          else
            has_ssh <- call sys (PathExists ssh_file) ;;
            ssh_url <- (if has_ssh
                        then t <- call sys (ReadText ssh_file) ;;
                             ret (Some (strip t))
                        else ret None) ;;
            has_web <- call sys (PathExists web_file) ;;
            web_url <- (if has_web
                        then t <- call sys (ReadText web_file) ;;
                             ret (Some (strip t))
                        else ret None) ;;
            ret (true, ssh_url, web_url))
       (except_Exception (ret (false, None, None)))).

Definition start_candidate_environment : Method unit :=
  method "start_candidate_environment"
    (_cleanup ;;
     call sys (Sleep 2) ;;
     k3s_inspect <- _run_command docker_inspect_k3s false false ;;
     let network_id :=
       if (returncode k3s_inspect =? 0)%Z
       then strip (stdout k3s_inspect)
       else "k8s_challenger_flagsmith-network" in
     h <- read ;;
     _ <- _run_command (docker_run h network_id) true false ;;
     ret tt).

Definition stop_candidate_environment : Method unit :=
  method "stop_candidate_environment" _cleanup.

Definition cleanup : Method unit :=
  method "cleanup"
    (_cleanup ;;
     h <- read ;;
     write (set_current_challenge None h)).

End Methods.

(** *** Information on the deployment

    [get_flagsmith_info] and [_is_pod_ready] work on what [json.loads]
    makes of the output of [kubectl]: documents of the same shape as the
    YAML ones (a fractional number would behave as an integer does
    here). *)

(** [v == text] for a string [text]. *)
Definition is_text (text : string) (v : value) : bool :=
  match v with
  | VStr s => s =? text
  | _ => false
  end.

(** The receiver of [v.get(...)]: only a mapping has [get]. *)
Definition as_mapping (v : value) : reply dict :=
  match v with
  | VDict d => Ok d
  | _ => Err AttributeError
  end.

(** The loop of [_is_pod_ready]. *)
Fixpoint first_ready (conditions : list value) : reply bool :=
  match conditions with
  | [] => Ok false
  | condition :: rest =>
      match as_mapping condition with
      | Err e => Err e
      | Ok d =>
          if is_text "Ready" (get d "type")
          then Ok (is_text "True" (get d "status"))
          else first_ready rest
      end
  end.

Definition _is_pod_ready (pod : value) : reply bool :=
  match as_mapping pod with
  | Err e => Err e
  | Ok p =>
      match as_mapping (get_default p "status" (VDict [])) with
      | Err e => Err e
      | Ok status =>
          match iterate (get_default status "conditions" (VList [])) with
          | Err e => Err e
          | Ok conditions => first_ready conditions
          end
      end
  end.

(** [v[a][b]]. *)
Definition getitem2 (v : value) (a b : string) : reply value :=
  match getitem v a with
  | Ok x => getitem x b
  | Err e => Err e
  end.

(** The mapping appended to [info["pods"]] for one pod. *)
Definition pod_entry (pod : value) : reply value :=
  match getitem2 pod "metadata" "name" with
  | Err e => Err e
  | Ok pod_name =>
      match getitem2 pod "status" "phase" with
      | Err e => Err e
      | Ok phase =>
          match _is_pod_ready pod with
          | Err e => Err e
          | Ok ready =>
              Ok (VDict [(KStr "name", pod_name); (KStr "status", phase);
                         (KStr "ready", VBool ready)])
          end
      end
  end.

(** The mapping appended to [info["services"]] for one service. *)
Definition service_entry (svc : value) : reply value :=
  match getitem2 svc "metadata" "name" with
  | Err e => Err e
  | Ok svc_name =>
      match getitem2 svc "spec" "type" with
      | Err e => Err e
      | Ok svc_type =>
          match getitem2 svc "spec" "ports" with
          | Err e => Err e
          | Ok ports =>
              Ok (VDict [(KStr "name", svc_name); (KStr "type", svc_type);
                         (KStr "ports", ports)])
          end
      end
  end.

(** A loop that appends [entry item] for each item, up to the first
    exception. *)
Fixpoint entries (entry : value -> reply value) (items : list value)
  : reply (list value) :=
  match items with
  | [] => Ok []
  | item :: rest =>
      match entry item with
      | Err e => Err e
      | Ok x =>
          match entries entry rest with
          | Err e => Err e
          | Ok xs => Ok (x :: xs)
          end
      end
  end.

(** What one listing adds to the information: the entries of
    [data["items"]] when the output parses to a mapping whose items are
    a list, nothing otherwise. *)
Definition listed (json_loads : string -> reply value)
    (entry : value -> reply value) (output : string) : reply (list value) :=
  match json_loads output with
  | Err e => Err e
  | Ok (VDict d) =>
      match get_default d "items" (VList []) with
      | VList items => entries entry items
      | _ => Ok []
      end
  | Ok _ => Ok []
  end.

Definition get_pods (h : t) : string :=
  "kubectl get pods -n " ++ flagsmith_namespace h ++ " -o json".

Definition get_services (h : t) : string :=
  "kubectl get services -n " ++ flagsmith_namespace h ++ " -o json".

Definition error_info (e : exn) : value :=
  VDict [(KStr "error", VStr (exn_text e))].

Definition info_of (h : t) (pods services : list value) : value :=
  VDict [(KStr "namespace", VStr (flagsmith_namespace h));
         (KStr "release", VStr (helm_release_name h));
         (KStr "pods", VList pods);
         (KStr "services", VList services)].

Section Info.
Context {World : Type}.
Variable sys : forall R, op R -> World -> reply R * World.
Variable json_loads : string -> reply value.

Local Open Scope py_scope.

Definition get_flagsmith_info : Sys.M (World := World) t value :=
  method "get_flagsmith_info"
    (h <- read ;;
     try_except
       (pods_result <- _run_command sys (get_pods h) true false ;;
        pods <- (if (returncode pods_result =? 0)%Z
                 then lift_reply (listed json_loads pod_entry
                                    (stdout pods_result))
                 else ret []) ;;
        services_result <- _run_command sys (get_services h) true false ;;
        services <- (if (returncode services_result =? 0)%Z
                     then lift_reply (listed json_loads service_entry
                                        (stdout services_result))
                     else ret []) ;;
        ret (info_of h pods services))
       (fun e => if isinstance e Exception then ret (error_info e)
                 else raise e)).

End Info.

End ChallengeManager.

(** ** cli/main.py *)

Module InterviewSession.

Local Open Scope string_scope.

Import ChallengeManager.

(** The fields of an [InterviewSession] object.  [start_time] is a
    [datetime], here in microseconds. *)
Record t : Set := mkSession {
  challenge_manager : ChallengeManager.t;
  start_time : option Z;
  current_challenge : option Challenge;
  session_active : bool
}.

(** [InterviewSession.__init__]. *)
Definition init (manager : ChallengeManager.t) : t :=
  {| challenge_manager := manager;
     start_time := None;
     current_challenge := None;
     session_active := false |}.

Definition set_challenge_manager (m : ChallengeManager.t) (s : t) : t :=
  {| challenge_manager := m;
     start_time := start_time s;
     current_challenge := current_challenge s;
     session_active := session_active s |}.

Definition set_start_time (x : option Z) (s : t) : t :=
  {| challenge_manager := challenge_manager s;
     start_time := x;
     current_challenge := current_challenge s;
     session_active := session_active s |}.

Definition set_current_challenge (c : option Challenge) (s : t) : t :=
  {| challenge_manager := challenge_manager s;
     start_time := start_time s;
     current_challenge := c;
     session_active := session_active s |}.

Definition set_session_active (b : bool) (s : t) : t :=
  {| challenge_manager := challenge_manager s;
     start_time := start_time s;
     current_challenge := current_challenge s;
     session_active := b |}.

Definition max_retries : nat := 2.

(** The polls of one attempt: [range(10)]. *)
Definition polls_per_attempt : nat := 10.

Section Methods.
Context {World : Type}.
Variable sys : forall R, op R -> World -> reply R * World.
Variable yaml_dump : value -> reply string.
Variable json_dumps : value -> reply string.
Variable repr : value -> string.

Local Open Scope py_scope.

(** A method of [InterviewSession] returning an [A]. *)
Definition Method (A : Type) : Type := @Sys.M World t A.

(** A call [self.challenge_manager.m(...)]. *)
Definition on_manager {A} (m : ChallengeManager.Method A) : Method A :=
  within challenge_manager set_challenge_manager m.

(** [rich.text.Text.append] takes a str (or a Text) only. *)
Definition text_append (v : value) : Method unit :=
  match v with
  | VStr _ => ret tt
  | _ => raise TypeError
  end.

Definition _check_session_failure : Method bool :=
  present <- call sys (PathExists status_file) ;;
  if present
  then
    text <- call sys (ReadText status_file) ;;
    let status := strip text in
    if (status =? "failed") || (status =? "timeout")
    then print ("[red]Session " ++ status ++ "[/red]") ;; ret true
    else ret false
  else ret false.

(** Truth value of an optional string: None and the empty string are
    false. *)
Definition nonempty (o : option string) : bool :=
  match o with
  | Some text => negb (text =? "")
  | None => false
  end.

Definition connection_panel (ssh_url web_url : option string) : string :=
  let connection_info :=
    "[bold]SSH:[/bold] [cyan]"
    ++ match ssh_url with Some u => u | None => "None" end ++ "[/cyan]" in
  if nonempty web_url
  then connection_info ++ String newline "[bold]Web:[/bold] [cyan]"
       ++ match web_url with Some u => u | None => "None" end ++ "[/cyan]"
  else connection_info.

(** One turn of the inner loop [for attempt in range(10)]. *)
Definition poll_once (attempt : Z) : Method (turn bool) :=
  info <- on_manager (get_tmate_info sys) ;;
  let '(is_ready, ssh_url, web_url) := info in
  if is_ready && nonempty ssh_url
  then print (connection_panel ssh_url web_url) ;; ret (Return true)
  else
    failed <- _check_session_failure ;;
    if failed then ret Break
    else
      (if (attempt mod 3 =? 0)%Z && (attempt >? 0)%Z
       then print ("Still initializing... (" ++ str_int attempt ++ "s)")
       else ret tt) ;;
      call sys (Sleep 1) ;;
      ret Next.

(** One turn of the outer loop [for retry in range(max_retries + 1)]. *)
Definition attempt_once (retry : Z) : Method (turn bool) :=
  (if (retry >? 0)%Z
   then print ("Retry " ++ str_int retry ++ "/"
               ++ str_int (Z.of_nat max_retries)) ;;
        on_manager (start_candidate_environment sys) ;;
        call sys (Sleep 3)
   else ret tt) ;;
  print "Initializing session..." ;;
  found <- for_in (range polls_per_attempt) poll_once ;;
  match found with
  | Some b => ret (Return b)
  | None =>
      (if (retry <? Z.of_nat max_retries)%Z
       then print "[yellow]Session failed, retrying...[/yellow]"
       else print "[red]Session initialization failed[/red]") ;;
      ret Next
  end.

Definition _setup_candidate_connection : Method bool :=
  found <- for_in (range (max_retries + 1)) attempt_once ;;
  match found with
  | Some b => ret b
  | None => ret false
  end.

Definition _format_elapsed_time : Method string :=
  s <- read ;;
  match start_time s with
  | None => raise AssertionError
  | Some started =>
      now <- call sys Now ;;
      let elapsed := (now - started)%Z in
      let total_seconds := Z.quot elapsed 1000000 in
      let hours := (total_seconds / 3600)%Z in
      let minutes := ((total_seconds mod 3600) / 60)%Z in
      let seconds := (total_seconds mod 60)%Z in
      ret (strip (fmt02d hours ++ ":" ++ fmt02d minutes ++ ":" ++ fmt02d seconds))
  end.

Definition _check_health : Method unit :=
  elapsed <- _format_elapsed_time ;;
  outcome <- on_manager (check_health sys) ;;
  let '(is_healthy, status_msg, _) := outcome in
  print (elapsed ++ " | " ++ strip status_msg) ;;
  if is_healthy
  then print "Challenge completed successfully!"
  else print "[bold]Press ENTER to check again[/bold] (Ctrl+C to exit)".

(** The loop [while self.session_active: ...] of
    [_start_health_monitoring], inside its [try]; Ctrl+C at [input()]
    ends it. *)
Fixpoint monitor (fuel : nat) : Method unit :=
  match fuel with
  | O => diverge
  | S k =>
      s <- read ;;
      if negb (session_active s) then ret tt
      else
        user_input <- call sys Input ;;
        match user_input with
        | CtrlC => ret tt
        | Line text =>
            (if strip text =? ""
             then print "[dim]Probing health endpoint...[/dim]" ;;
                  _check_health
             else print "[yellow]Press ENTER to check health (Ctrl+C to exit)[/yellow]") ;;
            monitor k
        end
  end.

Definition _start_health_monitoring (fuel : nat) : Method unit :=
  print "Session active. [bold]Press ENTER to check health[/bold] (Ctrl+C to exit)" ;;
  monitor fuel.

(** [start_session] up to the launch of the sandbox: the three
    assignments, the challenge panel, the manual, "Step 1" and
    "Step 2". *)
Definition begin_session (challenge : Challenge) : Method unit :=
  s <- read ;;
  write (set_current_challenge (Some challenge) s) ;;
  now <- call sys Now ;;
  s <- read ;;
  write (set_start_time (Some now) s) ;;
  s <- read ;;
  write (set_session_active true s) ;;
  text_append (name challenge) ;;
  text_append (description challenge) ;;
  bronze_min <- lift_reply (getitem (estimates challenge) "Lv1") ;;
  silver_min <- lift_reply (getitem (estimates challenge) "Lv2") ;;
  gold_min <- lift_reply (getitem (estimates challenge) "Lv3") ;;
  print ("Challenge: " ++ format repr (name challenge)) ;;
  _ <- manual sys challenge ;;
  print "Reviewer manual" ;;
  print "[bold]Step 1:[/bold] Deploying challenge environment" ;;
  _ <- on_manager (setup_challenge sys yaml_dump json_dumps repr challenge) ;;
  print "[bold]Step 2:[/bold] Starting candidate session" ;;
  on_manager (start_candidate_environment sys).

Definition connection_failed : string := "[red]Connection setup failed[/red]".

Definition start_session (fuel : nat) (challenge : Challenge) : Method bool :=
  begin_session challenge ;;
  connected <- _setup_candidate_connection ;;
  if negb connected
  then print connection_failed ;; ret false
  else
    print "[bold]Step 3:[/bold] Monitoring active" ;;
    _start_health_monitoring fuel ;;
    ret true.

Definition stop_session : Method unit :=
  s <- read ;;
  if negb (session_active s) then ret tt
  else
    print "Ending session..." ;;
    write (set_session_active false s) ;;
    on_manager (cleanup sys) ;;
    elapsed <- _format_elapsed_time ;;
    print ("Session duration: [bold]" ++ elapsed ++ "[/bold]") ;;
    print "Environment cleaned up" ;;
    s <- read ;;
    write (set_current_challenge None s) ;;
    s <- read ;;
    write (set_start_time None s).

End Methods.

End InterviewSession.

(** ** cli/main.py, class InterviewCLI *)

Module InterviewCLI.

Local Open Scope string_scope.

Import ChallengeManager InterviewSession.

(** An [InterviewCLI] object holds a manager and a session built on that
    same manager: [self.challenge_manager] and
    [self.session.challenge_manager] are one object.  Its state is
    therefore the state of the session, and a method of the CLI is a
    method over [InterviewSession.t]. *)
Section Methods.
Context {World : Type}.
Variable sys : forall R, op R -> World -> reply R * World.
Variable yaml_safe_load : string -> reply value.
Variable yaml_dump : value -> reply string.
Variable json_dumps : value -> reply string.
Variable repr : value -> string.

Local Open Scope py_scope.

Definition Method (A : Type) : Type := @Sys.M World InterviewSession.t A.

(** [InterviewCLI._cleanup]. *)
Definition _cleanup : Method unit :=
  try_except
    (on_manager (_force_cleanup_containers sys))
    (fun e => if isinstance e Exception then ret tt else raise e).

Definition _show_banner : Method unit :=
  print "Flagsmith Infrastructure Challenger".

(** One turn of the loop of [_find_challenge]. *)
Definition match_challenge (challenge_id : string) (challenge : Challenge)
  : Method (turn Challenge) :=
  if stem (filename challenge) =? challenge_id
  then ret (Return challenge)
  else ret Next.

Definition _find_challenge (challenge_id : string) : Method (option Challenge) :=
  s <- read ;;
  for_in (challenges (challenge_manager s)) (match_challenge challenge_id).

(** One turn of the loop of [_list_available_challenges]. *)
Definition list_one (challenge : Challenge) : Method (turn unit) :=
  print ("  " ++ stem (filename challenge) ++ ": "
         ++ format repr (name challenge)) ;;
  ret Next.

Definition _list_available_challenges : Method unit :=
  print "[bold]Available challenges:[/bold]" ;;
  s <- read ;;
  _ <- for_in (challenges (challenge_manager s)) list_one ;;
  print "".

(** [textwrap.fill] takes a str only. *)
Definition fill (v : value) : Method unit :=
  match v with
  | VStr _ => ret tt
  | _ => raise AttributeError
  end.

(** One turn of the loop that prints the menu; [i] is the number shown
    before the challenge. *)
Definition show_entry (entry : Z * Challenge) : Method (turn unit) :=
  let '(i, challenge) := entry in
  text_append (name challenge) ;;
  bronze_min <- lift_reply (getitem (estimates challenge) "Lv1") ;;
  silver_min <- lift_reply (getitem (estimates challenge) "Lv2") ;;
  gold_min <- lift_reply (getitem (estimates challenge) "Lv3") ;;
  print ("  " ++ str_int i ++ ". " ++ format repr (name challenge)) ;;
  fill (description challenge) ;;
  print "" ;;
  ret Next.

(** [enumerate(xs, start)]. *)
Fixpoint enumerate {A} (start : Z) (xs : list A) : list (Z * A) :=
  match xs with
  | [] => []
  | x :: rest => (start, x) :: enumerate (start + 1) rest
  end.

(** [Prompt.ask]: one line from the keyboard, stripped; [None] stands
    for the two exceptions that [_select_challenge] catches, EOFError and
    Ctrl+C. *)
Definition ask : Method (option string) :=
  try_except
    (line <- call sys Input ;;
     match line with
     | Line text => ret (Some (strip text))
     | CtrlC => ret None
     end)
    (fun e => if isinstance e EOFError then ret None else raise e).

(** The loop [while True] of [_select_challenge]. *)
Fixpoint select_loop (fuel : nat) : Method (option Challenge) :=
  match fuel with
  | O => diverge
  | S k =>
      asked <- ask ;;
      match asked with
      | None => ret None
      | Some choice =>
          if negb (isdigit choice)
          then print "[red]Enter a number[/red]" ;; select_loop k
          else
            num <- lift_reply (int_of_digits choice) ;;
            s <- read ;;
            let n := Z.of_nat (List.length (challenges (challenge_manager s))) in
            if negb ((1 <=? num)%Z && (num <=? n)%Z)
            then print ("[red]Enter 1-" ++ str_int n ++ "[/red]") ;;
                 select_loop k
            else on_manager (get_challenge (num - 1))
      end
  end.

Definition _select_challenge (fuel : nat) : Method (option Challenge) :=
  s <- read ;;
  print ("[bold]Available challenges[/bold] ("
         ++ str_int (Z.of_nat (List.length (challenges (challenge_manager s))))
         ++ " found)") ;;
  _ <- for_in (enumerate 1 (challenges (challenge_manager s))) show_entry ;;
  print "Press [bold]Ctrl+C[/bold] anytime to exit" ;;
  select_loop fuel.

(** The loop [while self.session.session_active: time.sleep(1)] of
    [_run_challenge].  Ctrl+C during the pause is an asynchronous
    interrupt and is not part of the model. *)
Fixpoint wait_until_stopped (fuel : nat) : Method unit :=
  match fuel with
  | O => diverge
  | S k =>
      s <- read ;;
      if negb (session_active s) then ret tt
      else call sys (Sleep 1) ;; wait_until_stopped k
  end.

Definition _run_challenge (fuel : nat) (challenge : Challenge) : Method unit :=
  started <- start_session sys yaml_dump json_dumps repr fuel challenge ;;
  if started then wait_until_stopped fuel else ret tt.

Definition run (fuel : nat) : Method unit :=
  _show_banner ;;
  on_manager (discover_challenges sys yaml_safe_load) ;;
  s <- read ;;
  if match challenges (challenge_manager s) with [] => true | _ => false end
  then print "[red]No challenges found[/red]"
  else
    selected <- _select_challenge fuel ;;
    match selected with
    | None => ret tt
    | Some challenge => _run_challenge fuel challenge
    end.

Definition run_specific_challenge (fuel : nat) (challenge_id : string)
  : Method unit :=
  _show_banner ;;
  on_manager (discover_challenges sys yaml_safe_load) ;;
  s <- read ;;
  if match challenges (challenge_manager s) with [] => true | _ => false end
  then print "[red]No challenges found[/red]" ;;
       print "Add .yaml files to the challenges/ directory"
  else
    found <- _find_challenge challenge_id ;;
    match found with
    | None =>
        print ("[red]Challenge '" ++ challenge_id ++ "' not found[/red]") ;;
        _list_available_challenges
    | Some challenge =>
        print ("[bold]Running challenge:[/bold] "
               ++ format repr (name challenge)) ;;
        print "" ;;
        _run_challenge fuel challenge
    end.

End Methods.

End InterviewCLI.

(** ** Concrete environments *)

Module Worlds.

Local Open Scope string_scope.

(** An environment without memory: each kind of operation is answered by
    a fixed function of its arguments. *)
Record script : Type := mkScript {
  on_exec : string -> reply CompletedProcess;
  on_exists : string -> bool;
  on_read : string -> reply string;
  on_glob : reply (list string);
  on_poll : reply (option Z);
  on_terminate : reply unit;
  on_wait : reply Z;
  on_kill : reply unit;
  on_http : reply Z;
  on_input : reply keyboard
}.

Definition scripted (s : script) (R : Type) (o : op R) (w : unit)
  : reply R * unit :=
  match o in op R0 return reply R0 * unit with
  | Exec cmd _ => (on_exec s cmd, w)
  | Sleep _ => (Ok tt, w)
  | PathExists p => (Ok (on_exists s p), w)
  | ReadText p => (on_read s p, w)
  | WriteText _ _ => (Ok tt, w)
  | Glob _ _ => (on_glob s, w)
  | Popen _ => (Ok 4242, w)
  | ProcPoll _ => (on_poll s, w)
  | ProcTerminate _ => (on_terminate s, w)
  | ProcWait _ _ => (on_wait s, w)
  | ProcKill _ => (on_kill s, w)
  | HttpGet _ _ => (on_http s, w)
  | Input => (on_input s, w)
  | Now => (Ok 0%Z, w)
  end.

(** Every command starts and exits 0 with no output, no file is there yet,
    the tunnel stays up and the health endpoint answers 200. *)
Definition calm : script :=
  {| on_exec := fun _ => Ok (mkCompleted 0 "");
     on_exists := fun _ => false;
     on_read := fun _ => Ok "";
     on_glob := Ok [];
     on_poll := Ok None;
     on_terminate := Ok tt;
     on_wait := Ok 0%Z;
     on_kill := Ok tt;
     on_http := Ok 200%Z;
     on_input := Ok CtrlC |}.

Definition with_exec (f : string -> reply CompletedProcess) (s : script)
  : script :=
  {| on_exec := f;
     on_exists := on_exists s;
     on_read := on_read s;
     on_glob := on_glob s;
     on_poll := on_poll s;
     on_terminate := on_terminate s;
     on_wait := on_wait s;
     on_kill := on_kill s;
     on_http := on_http s;
     on_input := on_input s |}.

Definition with_files (present : string -> bool)
    (content : string -> reply string) (listing : reply (list string))
    (s : script) : script :=
  {| on_exec := on_exec s;
     on_exists := present;
     on_read := content;
     on_glob := listing;
     on_poll := on_poll s;
     on_terminate := on_terminate s;
     on_wait := on_wait s;
     on_kill := on_kill s;
     on_http := on_http s;
     on_input := on_input s |}.

Definition with_http (r : reply Z) (s : script) : script :=
  {| on_exec := on_exec s;
     on_exists := on_exists s;
     on_read := on_read s;
     on_glob := on_glob s;
     on_poll := on_poll s;
     on_terminate := on_terminate s;
     on_wait := on_wait s;
     on_kill := on_kill s;
     on_http := r;
     on_input := on_input s |}.

(** A plain-text serializer for the concrete runs. *)
Definition show (v : value) : string :=
  match v with
  | VStr s => s
  | VInt z => str_int z
  | VDict [] => "{}"
  | VList [] => "[]"
  | _ => "..."
  end.

Definition dump (v : value) : reply string := Ok (show v).

Definition manager : ChallengeManager.t :=
  ChallengeManager.init "/app/challenges" "0123456789ab".

Definition estimates_abc : value :=
  VDict [(KStr "Lv1", VInt 30); (KStr "Lv2", VInt 20); (KStr "Lv3", VInt 10)].

(** A scenario with no configuration overrides and no patches. *)
Definition plain_scenario : ChallengeManager.Challenge :=
  {| ChallengeManager.filename := "plain.yaml";
     ChallengeManager.name := VStr "Plain";
     ChallengeManager.description := VStr "Nothing is broken";
     ChallengeManager.helm_values := VDict [];
     ChallengeManager.kubectl_patches := VList [];
     ChallengeManager.estimates := estimates_abc;
     ChallengeManager.challenge_dir := "/app/challenges";
     ChallengeManager._manual := None |}.

(** The same scenario with one configuration override. *)
Definition tuned_scenario : ChallengeManager.Challenge :=
  {| ChallengeManager.filename := "tuned.yaml";
     ChallengeManager.name := VStr "Tuned";
     ChallengeManager.description := VStr "One override";
     ChallengeManager.helm_values := VStr "api: {replicaCount: 0}";
     ChallengeManager.kubectl_patches := VList [];
     ChallengeManager.estimates := estimates_abc;
     ChallengeManager.challenge_dir := "/app/challenges";
     ChallengeManager._manual := None |}.

(** A parser for three texts: "complete" is a mapping with the five
    fields, "partial" a mapping with a name only, anything else is not
    YAML. *)
Definition toy_yaml (text : string) : reply value :=
  if text =? "complete"
  then Ok (VDict [(KStr "name", VStr "Broken probe");
                  (KStr "description", VStr "The liveness probe fails");
                  (KStr "helm_values", VDict []);
                  (KStr "kubectl_patches", VList []);
                  (KStr "estimates", estimates_abc)])
  else if text =? "partial"
  then Ok (VDict [(KStr "name", VStr "No description")])
  else Err YAMLError.

Definition three_files (path : string) : reply string :=
  if path =? "/app/challenges/a.yaml" then Ok "complete"
  else if path =? "/app/challenges/b.yaml" then Ok "partial"
  else if path =? "/app/challenges/c.yaml" then Ok "%%%"
  else Err FileNotFoundError.

(** A challenges directory with three files, listed out of order. *)
Definition catalog_of_three : script :=
  with_files (fun _ => true) three_files (Ok ["c.yaml"; "a.yaml"; "b.yaml"])
    calm.

(** Three patch entries: the first is complete and names its strategy,
    the second has no resource name, the third is complete and leaves the
    strategy and the namespace open. *)
Definition three_patches : list dict :=
  [ [(KStr "resource", VStr "deployment"); (KStr "name", VStr "flagsmith-api");
     (KStr "namespace", VStr "flagsmith");
     (KStr "patch", VStr "replicas");
     (KStr "patch_type", VStr "strategic")];
    [(KStr "resource", VStr "service"); (KStr "patch", VStr "port")];
    [(KStr "resource", VStr "configmap"); (KStr "name", VStr "settings");
     (KStr "patch", VStr "url")] ].

(** Every [kubectl patch] exits with status 1; every other command runs
    and exits with status 0. *)
Definition patches_rejected : script :=
  with_exec
    (fun cmd =>
       if starts_with "kubectl patch " cmd then Ok (mkCompleted 1 "")
       else Ok (mkCompleted 0 ""))
    calm.

(** The deployment command exits with status 1. *)
Definition helm_fails : script :=
  with_exec
    (fun cmd =>
       if starts_with "helm upgrade " cmd then Ok (mkCompleted 1 "")
       else Ok (mkCompleted 0 ""))
    calm.

(** The [docker-compose] executable is not installed: starting it fails
    with FileNotFoundError; every other command runs. *)
Definition no_docker_compose : script :=
  with_exec
    (fun cmd =>
       if starts_with "docker-compose " cmd then Err FileNotFoundError
       else Ok (mkCompleted 0 ""))
    calm.

(** [docker-compose down] exits with status 1 and two candidate
    containers are left over. *)
Definition leftovers : script :=
  with_exec
    (fun cmd =>
       if cmd =? ChallengeManager.docker_compose_down
       then Ok (mkCompleted 1 "")
       else if cmd =? ChallengeManager.docker_ps
       then Ok (mkCompleted 0 ("3f2a9c" ++ String newline ("77b001" ++ String newline "")))
       else Ok (mkCompleted 0 ""))
    calm.

(** The port-forward process exits at once with status 1. *)
Definition tunnel_down : script :=
  {| on_exec := on_exec calm;
     on_exists := on_exists calm;
     on_read := on_read calm;
     on_glob := on_glob calm;
     on_poll := Ok (Some 1%Z);
     on_terminate := on_terminate calm;
     on_wait := on_wait calm;
     on_kill := on_kill calm;
     on_http := on_http calm;
     on_input := on_input calm |}.

(** A scenario whose patch set is a sequence of strings. *)
Definition mistyped_scenario : ChallengeManager.Challenge :=
  {| ChallengeManager.filename := "mistyped.yaml";
     ChallengeManager.name := VStr "Mistyped";
     ChallengeManager.description := VStr "The patch set holds no mapping";
     ChallengeManager.helm_values := VDict [];
     ChallengeManager.kubectl_patches := VList [VStr "scale down the api"];
     ChallengeManager.estimates := estimates_abc;
     ChallengeManager.challenge_dir := "/app/challenges";
     ChallengeManager._manual := None |}.

(** The keyboard answers every prompt with the line [text]. *)
Definition with_input (text : string) (s : script) : script :=
  {| on_exec := on_exec s;
     on_exists := on_exists s;
     on_read := on_read s;
     on_glob := on_glob s;
     on_poll := on_poll s;
     on_terminate := on_terminate s;
     on_wait := on_wait s;
     on_kill := on_kill s;
     on_http := on_http s;
     on_input := Ok (Line text) |}.

(** A session, not started, over a catalog of two scenarios. *)
Definition session_of_two : InterviewSession.t :=
  InterviewSession.init
    (ChallengeManager.set_challenges [plain_scenario; tuned_scenario] manager).

(** A scenario that discovery accepts and the menu cannot show: its
    estimates lack the second level. *)
Definition unrated_scenario : ChallengeManager.Challenge :=
  {| ChallengeManager.filename := "unrated.yaml";
     ChallengeManager.name := VStr "Unrated";
     ChallengeManager.description := VStr "No estimate for the second level";
     ChallengeManager.helm_values := VDict [];
     ChallengeManager.kubectl_patches := VList [];
     ChallengeManager.estimates :=
       VDict [(KStr "Lv1", VInt 30); (KStr "Lv3", VInt 10)];
     ChallengeManager.challenge_dir := "/app/challenges";
     ChallengeManager._manual := None |}.

(** A pod as [kubectl get pods -o json] shows it: scheduled, not
    ready. *)
Definition pending_pod : value :=
  VDict [(KStr "metadata", VDict [(KStr "name", VStr "flagsmith-api-0")]);
         (KStr "status",
          VDict [(KStr "phase", VStr "Pending");
                 (KStr "conditions",
                  VList [VDict [(KStr "type", VStr "PodScheduled");
                                (KStr "status", VStr "True")];
                         VDict [(KStr "type", VStr "Ready");
                                (KStr "status", VStr "False")]])])].

(** Every command exits with status 1. *)
Definition all_fail : script :=
  with_exec (fun _ => Ok (mkCompleted 1 "")) calm.

End Worlds.

(** ** What the properties observe in a run *)

Module Observe.

(** The tunnel that a successful [Popen] started. *)
Definition started (e : event) : option pid :=
  match e with
  | EvCall o r =>
      match o in op R return reply R -> option pid with
      | Popen _ => fun r => match r with Ok p => Some p | Err _ => None end
      | _ => fun _ => None
      end r
  | _ => None
  end.

(** [terminate()] was called on [p]. *)
Definition is_terminate (p : pid) (e : event) : bool :=
  match e with
  | EvCall o _ => match o with ProcTerminate q => Nat.eqb p q | _ => false end
  | _ => false
  end.

(** [terminate()] on [p] went through. *)
Definition terminate_ok (p : pid) (e : event) : bool :=
  match e with
  | EvCall o r =>
      match o in op R return reply R -> bool with
      | ProcTerminate q =>
          fun r => match r with Ok _ => Nat.eqb p q | Err _ => false end
      | _ => fun _ => false
      end r
  | _ => false
  end.

(** [wait(timeout=5)] on [p] came back: the process has exited. *)
Definition wait_ok (p : pid) (e : event) : bool :=
  match e with
  | EvCall o r =>
      match o in op R return reply R -> bool with
      | ProcWait q _ =>
          fun r => match r with Ok _ => Nat.eqb p q | Err _ => false end
      | _ => fun _ => false
      end r
  | _ => false
  end.

(** [kill()] was called on [p]. *)
Definition is_kill (p : pid) (e : event) : bool :=
  match e with
  | EvCall o _ => match o with ProcKill q => Nat.eqb p q | _ => false end
  | _ => false
  end.

(** After the events [later], the tunnel [p] has been taken down:
    [terminate()] was called on it, and either the graceful way went
    through ([terminate()] and the bounded [wait] both came back) or
    [kill()] was called. *)
Definition taken_down (p : pid) (later : list event) : bool :=
  existsb (is_terminate p) later
  && ((existsb (terminate_ok p) later && existsb (wait_ok p) later)
      || existsb (is_kill p) later).

(** Every tunnel started in [evs] is taken down later in [evs]. *)
Fixpoint tunnels_released (evs : list event) : bool :=
  match evs with
  | [] => true
  | e :: later =>
      match started e with
      | Some p => taken_down p later && tunnels_released later
      | None => tunnels_released later
      end
  end.

Definition is_popen (e : event) : bool :=
  match e with
  | EvCall o _ => match o with Popen _ => true | _ => false end
  | _ => false
  end.

(** The mapping a scenario file holds, when the file can be read and
    parses to a mapping; [fs] gives the content of each path. *)
Definition document (fs : string -> reply string)
    (yaml_safe_load : string -> reply value) (path : string) : option dict :=
  match fs path with
  | Ok text =>
      match yaml_safe_load text with
      | Ok (VDict d) => Some d
      | _ => None
      end
  | Err _ => None
  end.

(** A mapping with the five required fields. *)
Definition complete (d : dict) : bool :=
  contains d "name" && contains d "description" && contains d "helm_values"
  && contains d "kubectl_patches" && contains d "estimates".

(** A scenario file that belongs in the catalog. *)
Definition well_formed (fs : string -> reply string)
    (yaml_safe_load : string -> reply value) (dir file : string) : bool :=
  match document fs yaml_safe_load (dir ++ "/" ++ file) with
  | Some d => complete d
  | None => false
  end.

(** An event of the reaper: the entry of one of its methods, or a
    [docker ...] command (docker-compose down, docker ps, docker rm). *)
Definition reaper_event (e : event) : bool :=
  match e with
  | EvEnter m => (m =? "_cleanup") || (m =? "_force_cleanup_containers")
  | EvCall o _ =>
      match o with
      | Exec cmd _ => starts_with "docker" cmd
      | _ => false
      end
  | EvPrint _ => false
  end.

(** The command [cmd] was started and exited (with any status). *)
Definition exec_done (cmd : string) (e : event) : bool :=
  match e with
  | EvCall o r =>
      match o in op R return reply R -> bool with
      | Exec c _ => fun r => match r with Ok _ => c =? cmd | Err _ => false end
      | _ => fun _ => false
      end r
  | _ => false
  end.

(** The command [cmd] was started and exited with status 0. *)
Definition exec_succeeded (cmd : string) (e : event) : bool :=
  match e with
  | EvCall o r =>
      match o in op R return reply R -> bool with
      | Exec c _ =>
          fun r => match r with
                   | Ok cp => (c =? cmd) && (returncode cp =? 0)%Z
                   | Err _ => false
                   end
      | _ => fun _ => false
      end r
  | _ => false
  end.

(** An event of patch application: the entry of the method, a warning
    on the terminal, or a [kubectl patch ...] command. *)
Definition patch_event (e : event) : bool :=
  match e with
  | EvEnter m => m =? "_apply_kubectl_patches"
  | EvPrint _ => true
  | EvCall o _ =>
      match o with
      | Exec cmd _ => starts_with "kubectl patch " cmd
      | _ => false
      end
  end.

Definition is_print (e : event) : bool :=
  match e with
  | EvPrint _ => true
  | _ => false
  end.

(** A command that could not be started, or exited with an error
    status. *)
Definition exec_failed (e : event) : bool :=
  match e with
  | EvCall o r =>
      match o in op R return reply R -> bool with
      | Exec _ _ =>
          fun r => match r with
                   | Ok cp => negb (returncode cp =? 0)%Z
                   | Err _ => true
                   end
      | _ => fun _ => false
      end r
  | _ => false
  end.

(** The claim on one patch entry, in its words: an entry without a
    resource kind, without a resource name or with an empty patch body is
    passed over; otherwise one [kubectl patch] command is built, in the
    namespace of the entry or the default one, with the strategy of the
    entry or [merge]. *)
Definition passed_over (d : dict) : bool :=
  negb (truthy (get d "resource")) || negb (truthy (get d "name"))
  || negb (truthy (get_default d "patch" (VDict []))).

Definition entry_commands (json_dumps : value -> reply string)
    (repr : value -> string) (default_namespace : string) (d : dict)
  : list string :=
  if passed_over d then []
  else
    match json_dumps (get_default d "patch" (VDict [])) with
    | Ok patch_json =>
        [ChallengeManager.kubectl_patch
           (ChallengeManager.format repr (get d "resource"))
           (ChallengeManager.format repr (get d "name"))
           (ChallengeManager.format repr
              (get_default d "namespace" (VStr default_namespace)))
           (ChallengeManager.format repr
              (get_default d "patch_type" (VStr "merge")))
           patch_json]
    | Err _ => []
    end.

(** The entries whose patch body cannot be serialized. *)
Definition unserializable (json_dumps : value -> reply string) (d : dict)
  : bool :=
  negb (passed_over d)
  && match json_dumps (get_default d "patch" (VDict [])) with
     | Ok _ => false
     | Err _ => true
     end.

(** The commands that [setup_challenge] runs with [check=True] outside
    the patch loop: the clone of the charts, the copy of the default
    values and the deployment. *)
Definition is_required (h : ChallengeManager.t) (cmd : string) : bool :=
  (cmd =? ChallengeManager.git_clone_charts)
  || (cmd =? ChallengeManager.copy_original_values)
  || (cmd =? ChallengeManager.helm_upgrade h).

Definition exited_zero (r : reply CompletedProcess) : bool :=
  match r with
  | Ok cp => (returncode cp =? 0)%Z
  | Err _ => false
  end.

Definition answered {R : Type} (r : reply R) : bool :=
  match r with
  | Ok _ => true
  | Err _ => false
  end.

(** The event is not a required step that failed: a required command
    exited with status 0, and a write of the values file went through. *)
Definition required_ok (h : ChallengeManager.t) (e : event) : bool :=
  match e with
  | EvCall o r =>
      match o in op R return reply R -> bool with
      | Exec cmd _ => fun r => negb (is_required h cmd) || exited_zero r
      | WriteText _ _ => fun r => answered r
      | _ => fun _ => true
      end r
  | _ => true
  end.

Definition is_write (e : event) : bool :=
  match e with
  | EvCall o _ => match o with WriteText _ _ => true | _ => false end
  | _ => false
  end.

(** The text [text] was written to the file [path]. *)
Definition wrote (path text : string) (e : event) : bool :=
  match e with
  | EvCall o r =>
      match o in op R return reply R -> bool with
      | WriteText p t => fun r => (p =? path) && (t =? text) && answered r
      | _ => fun _ => false
      end r
  | _ => false
  end.

(** A [kubectl patch] command. *)
Definition is_patch_command (e : event) : bool :=
  match e with
  | EvCall o _ =>
      match o with
      | Exec cmd _ => starts_with "kubectl patch " cmd
      | _ => false
      end
  | _ => false
  end.

(** An event that writes no file, is no [kubectl patch] command, is not
    the copy of the default values and does not enter patch
    application. *)
Definition quiet (e : event) : bool :=
  negb (is_write e) && negb (is_patch_command e)
  && negb (is_exec ChallengeManager.copy_original_values e)
  && negb (is_enter "_apply_kubectl_patches" e).

(** Not the deployment command having exited with status 0. *)
Definition before_deploy (h : ChallengeManager.t) (e : event) : bool :=
  negb (exec_succeeded (ChallengeManager.helm_upgrade h) e).

(** Assumptions on an environment. *)
Section Environment.
Context {World : Type}.
Variable sys : forall R, op R -> World -> reply R * World.

(** The files do not change while they are read. *)
Definition stable (fs : string -> reply string) : Prop :=
  forall path w, fst (sys _ (ReadText path) w) = fs path.

(** No operation raises: every command can be started, every file
    operation goes through. *)
Definition answers : Prop :=
  forall R (o : op R) w, exists r w', sys R o w = (Ok r, w').

(** The required commands exit with status 0. *)
Definition required_succeed (h : ChallengeManager.t) : Prop :=
  forall cmd capture w cp w',
    sys _ (Exec cmd capture) w = (Ok cp, w') ->
    is_required h cmd = true -> returncode cp = 0%Z.

End Environment.

(** One poll of the connection descriptor: a call of [get_tmate_info]. *)
Definition is_poll (e : event) : bool := is_enter "get_tmate_info" e.

(** One launch of the sandbox: a call of
    [start_candidate_environment]. *)
Definition is_launch (e : event) : bool :=
  is_enter "start_candidate_environment" e.

(** [time.sleep(seconds)]. *)
Definition is_sleep (seconds : Z) (e : event) : bool :=
  match e with
  | EvCall o _ => match o with Sleep n => (n =? seconds)%Z | _ => false end
  | _ => false
  end.

(** Neither a poll, nor a launch, nor the pause between two polls. *)
Definition idle (e : event) : bool :=
  negb (is_poll e) && negb (is_launch e) && negb (is_sleep 1 e).

(** Two states of a session that differ at most in the manager. *)
Definition same_session (s s' : InterviewSession.t) : Prop :=
  InterviewSession.start_time s' = InterviewSession.start_time s
  /\ InterviewSession.current_challenge s' = InterviewSession.current_challenge s
  /\ InterviewSession.session_active s' = InterviewSession.session_active s.

(** The patch set has the declared type: a sequence of mappings (or
    nothing). *)
Definition patches_typed (c : ChallengeManager.Challenge) : Prop :=
  truthy (ChallengeManager.kubectl_patches c) = false
  \/ exists ds, ChallengeManager.kubectl_patches c = VList (map VDict ds).

(** *** Further observations *)

(** The removals that the container sweep makes for the output [out] of
    [docker ps]: one per line that is not blank, in the order of the
    lines. *)
Definition swept (out : string) : list string :=
  map ChallengeManager.docker_rm
    (filter (fun container_id => negb (container_id =? ""))
       (map strip (split newline (strip out)))).

(** The HTTP request of the probe. *)
Definition is_http (e : event) : bool :=
  match e with
  | EvCall o _ => match o with HttpGet _ _ => true | _ => false end
  | _ => false
  end.

(** The HTTP request came back with the status [code]. *)
Definition http_status (code : Z) (e : event) : bool :=
  match e with
  | EvCall o r =>
      match o in op R return reply R -> bool with
      | HttpGet _ _ =>
          fun r => match r with Ok c => (c =? code)%Z | Err _ => false end
      | _ => fun _ => false
      end r
  | _ => false
  end.

(** Every command can be started (its exit status is free). *)
Definition commands_start {World : Type}
    (sys : forall R, op R -> World -> reply R * World) : Prop :=
  forall cmd capture w, exists cp w', sys _ (Exec cmd capture) w = (Ok cp, w').

(** The file names increase: each one is [<=] every later one. *)
Fixpoint ascending (l : list string) : bool :=
  match l with
  | [] => true
  | x :: rest => forallb (fun y => (x <=? y)%string) rest && ascending rest
  end.

(** The challenge [c] found in the directory [dir] holds what the
    mapping [d] holds under the five required fields. *)
Definition taken_from (dir : string) (d : dict)
    (c : ChallengeManager.Challenge) : Prop :=
  lookup d "name" = Some (ChallengeManager.name c)
  /\ lookup d "description" = Some (ChallengeManager.description c)
  /\ lookup d "helm_values" = Some (ChallengeManager.helm_values c)
  /\ lookup d "kubectl_patches" = Some (ChallengeManager.kubectl_patches c)
  /\ lookup d "estimates" = Some (ChallengeManager.estimates c)
  /\ ChallengeManager.challenge_dir c = dir
  /\ ChallengeManager._manual c = None.

(** Neither a [kubectl patch] command nor the entry of patch
    application. *)
Definition unpatched (e : event) : bool :=
  negb (is_patch_command e) && negb (is_enter "_apply_kubectl_patches" e).

(** Up to the first time the deployment command exits with status 0,
    no patch is applied and patch application is not entered. *)
Fixpoint patches_after_deploy (h : ChallengeManager.t) (evs : list event)
  : bool :=
  match evs with
  | [] => true
  | e :: rest =>
      if exec_succeeded (ChallengeManager.helm_upgrade h) e then true
      else unpatched e && patches_after_deploy h rest
  end.

(** The patch set is a sequence that starts with a mapping. *)
Definition first_entry_mapping (patches : value) : bool :=
  match patches with
  | VList (VDict _ :: _) => true
  | _ => false
  end.

(** The file [path] was read and its text, stripped, is [text]. *)
Definition read_as (path text : string) (e : event) : bool :=
  match e with
  | EvCall o r =>
      match o in op R return reply R -> bool with
      | ReadText p =>
          fun r => match r with
                   | Ok t => (p =? path) && (strip t =? text)
                   | Err _ => false
                   end
      | _ => fun _ => false
      end r
  | _ => false
  end.

(** A challenge that the menu can show: its name and its description
    are strings and its estimates hold the three levels. *)
Definition presentable (c : ChallengeManager.Challenge) : bool :=
  match ChallengeManager.name c, ChallengeManager.description c with
  | VStr _, VStr _ =>
      match ChallengeManager.estimates c with
      | VDict d => contains d "Lv1" && contains d "Lv2" && contains d "Lv3"
      | _ => false
      end
  | _, _ => false
  end.

(** A line was asked of the keyboard. *)
Definition is_input (e : event) : bool :=
  match e with
  | EvCall o _ => match o with Input => true | _ => false end
  | _ => false
  end.

(** The challenge that [_find_challenge] is after. *)
Definition named (challenge_id : string) (c : ChallengeManager.Challenge)
  : bool :=
  stem (ChallengeManager.filename c) =? challenge_id.

(** The file with the SSH address was read and holds an address. *)
Definition address_read (e : event) : bool :=
  match e with
  | EvCall o r =>
      match o in op R return reply R -> bool with
      | ReadText p =>
          fun r => match r with
                   | Ok t => (p =? ChallengeManager.ssh_file)
                             && negb (strip t =? "")
                   | Err _ => false
                   end
      | _ => fun _ => false
      end r
  | _ => false
  end.

(** The connection descriptor was seen ready, with an SSH address. *)
Definition connected (evs : list event) : bool :=
  existsb (read_as ChallengeManager.status_file "ready") evs
  && existsb address_read evs.

(** The text ends with a character that is not a blank. *)
Fixpoint ends_solid (s : string) : bool :=
  match s with
  | EmptyString => false
  | String c EmptyString => negb (is_space c)
  | String _ rest => ends_solid rest
  end.

(** Neither the entry of a health probe nor a line asked of the
    keyboard. *)
Definition unprobed (e : event) : bool :=
  negb (is_enter "check_health" e) && negb (is_input e).

(** Ctrl+C was pressed at the prompt. *)
Definition interrupted (e : event) : bool :=
  match e with
  | EvCall o r =>
      match o in op R return reply R -> bool with
      | Input =>
          fun r => match r with
                   | Ok CtrlC => true
                   | _ => false
                   end
      | _ => fun _ => false
      end r
  | _ => false
  end.

(** The text holds no dot. *)
Definition dotless (s : string) : bool :=
  forallb (fun c => negb (Ascii.eqb c ".")) (list_ascii_of_string s).

End Observe.

(** ** Proof tools *)

Lemma isinstance_Exception (e : exn) : isinstance e Exception = true.
Proof. destruct e; reflexivity. Qed.

(** Lists of events. *)

Lemma commands_app (a b : list event) :
  commands (a ++ b) = (commands a ++ commands b)%list.
Proof.
  induction a as [| e a IH]; [reflexivity |].
  destruct e as [R o r | m | s]; cbn; auto.
  destruct o; cbn; rewrite ?IH; reflexivity.
Qed.

Lemma count_app (p : event -> bool) (a b : list event) :
  count p (a ++ b) = count p a + count p b.
Proof. unfold count. rewrite filter_app, length_app. reflexivity. Qed.

Lemma count_cons (p : event -> bool) (e : event) (a : list event) :
  count p (e :: a) = (if p e then 1 else 0) + count p a.
Proof. unfold count. cbn. destruct (p e); reflexivity. Qed.

Lemma forallb_cons {A} (f : A -> bool) (x : A) (l : list A) :
  forallb f (x :: l) = f x && forallb f l.
Proof. reflexivity. Qed.

Lemma existsb_cons {A} (f : A -> bool) (x : A) (l : list A) :
  existsb f (x :: l) = f x || existsb f l.
Proof. reflexivity. Qed.

Lemma forallb_weaken {A} (f g : A -> bool) (l : list A) :
  (forall x, f x = true -> g x = true) ->
  forallb f l = true -> forallb g l = true.
Proof.
  intros Hfg. rewrite !forallb_forall. auto.
Qed.

Lemma forallb_none {A} (f g : A -> bool) (l : list A) :
  (forall x, f x = true -> g x = false) ->
  forallb f l = true -> existsb g l = false.
Proof.
  intros Hfg Hall. induction l as [| x l IH]; [reflexivity |].
  cbn in *. apply andb_true_iff in Hall. destruct Hall as [Hx Hl].
  rewrite (Hfg x Hx), IH; auto.
Qed.

(** Unfold the combinators of the method monad, and nothing else. *)
Ltac sim :=
  cbv beta iota zeta delta
    [method bind ret raise diverge call try_except try_finally emit print
     read write lift_reply within subprocess_run
     result world self events fst snd];
  cbn [negb andb orb app].

(** Case analysis on the answer to the next operation. *)
Ltac run_call sys :=
  match goal with
  | |- context [sys ?R ?o ?w] =>
      is_var w;
      let r := fresh "r" in
      let e := fresh "e" in
      let w' := fresh "w" in
      destruct (sys R o w) as [[r | e] w'];
      sim
  end.

(** ** Health prober *)

Module HealthProber.

Import ChallengeManager Observe.
Local Open Scope string_scope.

Lemma no_popen_released (evs : list event) :
  existsb is_popen evs = false -> tunnels_released evs = true.
Proof.
  induction evs as [| e evs IH]; cbn; [reflexivity |].
  intros H. apply orb_false_elim in H. destruct H as [He Hevs].
  destruct e as [R o r | m | s]; cbn; auto.
  destruct o; cbn in *; auto; discriminate.
Qed.

Lemma taken_down_later (p : pid) (before later : list event) :
  taken_down p later = true -> taken_down p (before ++ later) = true.
Proof.
  unfold taken_down. rewrite !existsb_app.
  intros H.
  apply andb_true_iff in H. destruct H as [H1 H2].
  rewrite H1, orb_true_r. cbn.
  apply orb_true_iff in H2. destruct H2 as [H2 | H2].
  - apply andb_true_iff in H2. destruct H2 as [H2 H3].
    rewrite H2, H3, !orb_true_r. reflexivity.
  - rewrite H2, !orb_true_r. reflexivity.
Qed.

Section Proofs.
Context {World : Type}.
Variable sys : forall R, op R -> World -> reply R * World.

(** The [finally] clause never raises, starts no process and takes the
    tunnel down. *)
Lemma release_port_forward_spec (p : pid) (w : World) (h : t) :
  result (release_port_forward sys p w h) = Ret tt
  /\ taken_down p (events (release_port_forward sys p w h)) = true
  /\ existsb is_popen (events (release_port_forward sys p w h)) = false.
Proof.
  unfold release_port_forward, except_Exception. sim.
  run_call sys; [run_call sys |];
    rewrite ?isinstance_Exception; sim; try run_call sys;
    rewrite ?isinstance_Exception; sim;
    repeat match goal with u : unit |- _ => destruct u end;
    unfold taken_down; cbn; rewrite ?Nat.eqb_refl; auto.
Qed.

Lemma probe_spec (p : pid) (w : World) (h : t) :
  result (probe sys p w h) <> Diverge
  /\ existsb is_popen (events (probe sys p w h)) = false.
Proof.
  unfold probe. sim.
  run_call sys; [run_call sys; [destruct r0; sim; [| run_call sys] |] |];
    cbn; split; (discriminate || reflexivity).
Qed.

Lemma probe_failure_returns (e : exn) (w : World) (h : t) :
  exists answer,
    probe_failure (World := World) e w h = Run (Ret answer) w h [].
Proof. destruct e; eexists; reflexivity. Qed.

(** C1.  Whatever the environment does, [check_health] returns (it
    never raises), and every port-forward process it started has by then
    been terminated: [terminate()] was called on it and either the
    graceful way completed or [kill()] was called. *)
Theorem check_health_releases_tunnel (w : World) (h : t) :
  (exists answer, result (check_health sys w h) = Ret answer)
  /\ tunnels_released (events (check_health sys w h)) = true.
Proof.
  unfold check_health, _run_command.
  generalize (get_service h) (port_forward_cmd h). intros svc fwd. sim.
  run_call sys.
  - destruct (returncode r =? 0)%Z; sim.
    + run_call sys.
      * destruct (probe_spec r0 w1 h) as [Hd Hp].
        destruct (probe sys r0 w1 h) as [res w2 h2 evs]; sim.
        destruct (release_port_forward_spec r0 w2 h2) as (Hr & Ht & Hn).
        destruct (release_port_forward sys r0 w2 h2) as [res' w3 h3 evs'].
        cbn [result events] in *. subst res'.
        destruct res as [a | e |]; [| | congruence]; sim.
        -- split; [eexists; reflexivity |].
           cbn [tunnels_released started].
           rewrite taken_down_later by exact Ht.
           apply no_popen_released. rewrite existsb_app, Hp, Hn. reflexivity.
        -- destruct (probe_failure_returns e w3 h3) as [answer Ha].
           rewrite Ha. sim.
           split; [eexists; reflexivity |].
           rewrite app_nil_r.
           cbn [tunnels_released started].
           rewrite taken_down_later by exact Ht.
           apply no_popen_released. rewrite existsb_app, Hp, Hn. reflexivity.
      * destruct (probe_failure_returns e w1 h) as [answer Ha].
        rewrite Ha. sim. split; [eexists; reflexivity | reflexivity].
    + split; [eexists; reflexivity | reflexivity].
  - destruct (probe_failure_returns e w0 h) as [answer Ha].
    rewrite Ha. sim. split; [eexists; reflexivity | reflexivity].
Qed.

(** C2.  The classification of one probe.  When the query for the API
    service exits non-zero the answer is exactly
    (False, "Service not deployed", None) and nothing else happened: no
    port-forward was started.  When the service is there, the
    port-forward is up and the request comes back with a status code, the
    answer carries that code; it is healthy for 200 and for 200 only, the
    message is fixed for 404, 500 and 503, and is "HTTP " followed by the
    code in decimal for every other code. *)
Theorem check_health_classification (w : World) (h : t) :
  (forall cp w1,
      sys _ (Exec (get_service h) true) w = (Ok cp, w1) ->
      returncode cp <> 0%Z ->
      check_health sys w h
      = Run (Ret (false, "Service not deployed", None)) w1 h
            [EvEnter "check_health";
             EvCall (Exec (get_service h) true) (Ok cp)]
      /\ existsb is_popen (events (check_health sys w h)) = false)
  /\ (forall cp w1 p w2 w3 w4 code w5,
      sys _ (Exec (get_service h) true) w = (Ok cp, w1) ->
      returncode cp = 0%Z ->
      sys _ (Popen (port_forward_cmd h)) w1 = (Ok p, w2) ->
      sys _ (Sleep 2) w2 = (Ok tt, w3) ->
      sys _ (ProcPoll p) w3 = (Ok None, w4) ->
      sys _ (HttpGet health_url 5) w4 = (Ok code, w5) ->
      exists healthy message,
        result (check_health sys w h) = Ret (healthy, message, Some code)
        /\ (code = 200%Z -> healthy = true)
        /\ (code <> 200%Z -> healthy = false)
        /\ (code = 404%Z -> message = "Endpoint not found")
        /\ (code = 500%Z -> message = "Server error")
        /\ (code = 503%Z -> message = "Service unavailable")
        /\ (code <> 200%Z -> code <> 404%Z -> code <> 500%Z ->
            code <> 503%Z -> message = "HTTP " ++ str_int code)).
Proof.
  split.
  - intros cp w1 Hsvc Hrc.
    unfold check_health, _run_command. sim. rewrite Hsvc. sim.
    apply Z.eqb_neq in Hrc. rewrite Hrc. sim. split; reflexivity.
  - intros cp w1 p w2 w3 w4 code w5 Hsvc Hrc Hpopen Hsleep Hpoll Hget.
    unfold check_health, _run_command, probe. sim. rewrite Hsvc. sim.
    apply Z.eqb_eq in Hrc. rewrite Hrc. sim.
    rewrite Hpopen. sim. rewrite Hsleep. sim. rewrite Hpoll. sim.
    rewrite Hget. sim.
    destruct (release_port_forward_spec p w5 h) as (Hr & _ & _).
    destruct (release_port_forward sys p w5 h) as [res w6 h6 evs].
    cbn [result] in Hr. subst res. sim.
    unfold classify_status.
    destruct (code =? 200)%Z eqn:E200;
      [| destruct (code =? 404)%Z eqn:E404;
         [| destruct (code =? 500)%Z eqn:E500;
            [| destruct (code =? 503)%Z eqn:E503]]];
      do 2 eexists; (split; [reflexivity |]);
      rewrite ?Z.eqb_eq, ?Z.eqb_neq in *;
      repeat split; intros; subst; congruence.
Qed.

End Proofs.

(** The service is missing in one environment; in another the endpoint
    answers 418. *)
Lemma check_health_classification_witness :
  result (check_health
            (Worlds.scripted
               (Worlds.with_exec (fun _ => Ok (mkCompleted 1 "")) Worlds.calm))
            tt Worlds.manager)
  = Ret (false, "Service not deployed", None)
  /\ result (check_health
               (Worlds.scripted (Worlds.with_http (Ok 418%Z) Worlds.calm))
               tt Worlds.manager)
     = Ret (false, "HTTP 418", Some 418%Z).
Proof.
  split.
  - pose proof (proj1 (check_health_classification
                         (Worlds.scripted
                            (Worlds.with_exec (fun _ => Ok (mkCompleted 1 ""))
                                              Worlds.calm))
                         tt Worlds.manager)
                      (mkCompleted 1 "") tt eq_refl) as H.
    cbn [returncode] in H.
    destruct (H ltac:(discriminate)) as [Hrun _].
    rewrite Hrun. reflexivity.
  - destruct (proj2 (check_health_classification
                       (Worlds.scripted (Worlds.with_http (Ok 418%Z) Worlds.calm))
                       tt Worlds.manager)
                    (mkCompleted 0 "") tt 4242 tt tt tt 418%Z tt
                    eq_refl eq_refl eq_refl eq_refl eq_refl eq_refl)
      as (healthy & message & Hres & _ & Hh & _ & _ & _ & Hm).
    rewrite Hres, (Hh ltac:(discriminate)),
      (Hm ltac:(discriminate) ltac:(discriminate) ltac:(discriminate)
          ltac:(discriminate)).
    reflexivity.
Defined.

End HealthProber.

(** ** Scenario catalog *)

Module Catalog.

Import ChallengeManager Observe.
Local Open Scope string_scope.

Lemma In_insert_sorted (x y : string) (l : list string) :
  In y (insert_sorted x l) <-> y = x \/ In y l.
Proof.
  induction l as [| z l IH]; cbn.
  - intuition.
  - destruct (x <=? z)%string; cbn; rewrite ?IH; intuition.
Qed.

Lemma In_sorted (y : string) (l : list string) : In y (sorted l) <-> In y l.
Proof.
  induction l as [| x l IH]; cbn; [tauto |].
  rewrite In_insert_sorted, IH. intuition.
Qed.

Lemma complete_required (d : dict) :
  forallb (fun field => contains d field) required_fields = complete d.
Proof. unfold complete. cbn. rewrite andb_true_r, !andb_assoc. reflexivity. Qed.

Lemma complete_getitem (d : dict) (field : string) :
  complete d = true -> In field required_fields ->
  exists v, getitem (VDict d) field = Ok v.
Proof.
  rewrite <- complete_required, forallb_forall. intros H Hin.
  specialize (H field Hin). unfold contains in H. cbn.
  destruct (lookup d field); [eexists; reflexivity | discriminate].
Qed.

Section Proofs.
Context {World : Type}.
Variable sys : forall R, op R -> World -> reply R * World.
Variable yaml_safe_load : string -> reply value.

Variable fs : string -> reply string.
Hypothesis fs_stable : stable sys fs.

(** One file: the object is untouched, and a challenge comes back
    exactly when the file is well formed; it then carries the name of
    the file. *)
Lemma _parse_challenge_file_spec (dir file : string) (w : World) (h : t) :
  self (_parse_challenge_file sys yaml_safe_load dir file w h) = h
  /\ match result (_parse_challenge_file sys yaml_safe_load dir file w h) with
     | Ret (Some c) =>
         well_formed fs yaml_safe_load dir file = true /\ filename c = file
     | Ret None => well_formed fs yaml_safe_load dir file = false
     | Exn _ => well_formed fs yaml_safe_load dir file = false
     | Diverge => False
     end.
Proof.
  unfold _parse_challenge_file, well_formed, document. sim.
  pose proof (fs_stable (dir ++ "/" ++ file) w) as Hfs.
  destruct (sys string (ReadText (dir ++ "/" ++ file)) w) as [[text | e] w1].
  - cbn [fst] in Hfs. rewrite <- Hfs. sim.
    destruct (yaml_safe_load text) as [data | e]; sim.
    + destruct data as [| b | z | s | l | d]; sim; auto.
      rewrite complete_required.
      destruct (complete d) eqn:Hc; sim; auto.
      destruct (complete_getitem d "name" Hc) as [v1 E1]; [cbn; tauto |].
      destruct (complete_getitem d "description" Hc) as [v2 E2]; [cbn; tauto |].
      destruct (complete_getitem d "helm_values" Hc) as [v3 E3]; [cbn; tauto |].
      destruct (complete_getitem d "kubectl_patches" Hc) as [v4 E4]; [cbn; tauto |].
      destruct (complete_getitem d "estimates" Hc) as [v5 E5]; [cbn; tauto |].
      rewrite E1; sim. rewrite E2; sim. rewrite E3; sim. rewrite E4; sim.
      rewrite E5; sim. auto.
    + destruct (isinstance e YAMLError || isinstance e OSError); sim; auto.
  - cbn [fst] in Hfs. rewrite <- Hfs. sim.
    destruct (isinstance e YAMLError || isinstance e OSError); sim; auto.
Qed.

(** The loop of [discover_challenges] over [files], started with the
    catalog [challenges h]. *)
Lemma discover_loop_spec (dir : string) (files : list string) :
  forall (w : World) (h : t),
  exists w' h' evs,
    for_in files (discover_one sys yaml_safe_load dir) w h
    = Run (Ret None) w' h' evs
    /\ map filename (challenges h')
       = (map filename (challenges h)
          ++ filter (well_formed fs yaml_safe_load dir) files)%list.
Proof.
  induction files as [| f files IH]; intros w h.
  - exists w, h, []. cbn. rewrite app_nil_r. auto.
  - cbn [for_in filter]. unfold discover_one at 1, except_Exception. sim.
    destruct (_parse_challenge_file_spec dir f w h) as [Hself Hres].
    destruct (_parse_challenge_file sys yaml_safe_load dir f w h)
      as [res w1 h1 evs].
    cbn [self result] in Hself, Hres. subst h1.
    destruct res as [[c |] | e |]; sim; try contradiction.
    + destruct Hres as [Hwf Hname].
      destruct (IH w1 (set_challenges (challenges h ++ [c])%list h))
        as (w2 & h2 & evs2 & Hrun & Hmap).
      rewrite Hrun. do 3 eexists. split; [reflexivity |].
      rewrite Hwf. cbn [challenges set_challenges] in Hmap.
      rewrite Hmap, map_app, <- app_assoc. cbn. subst f. reflexivity.
    + destruct (IH w1 h) as (w2 & h2 & evs2 & Hrun & Hmap).
      rewrite Hrun. do 3 eexists. split; [reflexivity |].
      rewrite Hres. exact Hmap.
    + rewrite isinstance_Exception. sim.
      destruct (IH w1 h) as (w2 & h2 & evs2 & Hrun & Hmap).
      rewrite Hrun. do 3 eexists. split; [reflexivity |].
      rewrite Hres. exact Hmap.
Qed.

(** C3.  Given the listing of the directory, discovery returns without
    raising, whatever reading and parsing the files does; the catalog
    holds, in sorted order, exactly the files that can be read, parse to
    a mapping and have the five required fields.  A file that fails to
    parse, or lacks one of the fields, is not in it. *)
Theorem discover_challenges_catalog (w : World) (h : t) :
  forall present w1,
    sys _ (PathExists (challenges_dir h)) w = (Ok present, w1) ->
    (present = false ->
     result (discover_challenges sys yaml_safe_load w h) = Ret tt
     /\ challenges (self (discover_challenges sys yaml_safe_load w h)) = [])
    /\ (forall names w2,
          present = true ->
          sys _ (Glob (challenges_dir h) "*.yaml") w1 = (Ok names, w2) ->
          let catalog :=
            map filename
              (challenges (self (discover_challenges sys yaml_safe_load w h))) in
          result (discover_challenges sys yaml_safe_load w h) = Ret tt
          /\ catalog
             = filter (well_formed fs yaml_safe_load (challenges_dir h))
                      (sorted names)
          /\ (forall file,
                In file names ->
                (In file catalog
                 <-> well_formed fs yaml_safe_load (challenges_dir h) file
                     = true))
          /\ (forall file d,
                In file names ->
                document fs yaml_safe_load (challenges_dir h ++ "/" ++ file)
                = Some d ->
                (contains d "name" = false \/ contains d "description" = false
                 \/ contains d "helm_values" = false
                 \/ contains d "kubectl_patches" = false
                 \/ contains d "estimates" = false) ->
                ~ In file catalog)
          /\ (forall file,
                In file names ->
                document fs yaml_safe_load (challenges_dir h ++ "/" ++ file)
                = None ->
                ~ In file catalog)).
Proof.
  intros present w1 Hex. split.
  - intros ->. unfold discover_challenges. sim. rewrite Hex. sim. auto.
  - intros names w2 -> Hglob catalog. subst catalog.
    unfold discover_challenges. sim. rewrite Hex. sim. rewrite Hglob. sim.
    destruct (discover_loop_spec (challenges_dir h) (sorted names) w2
                (set_challenges [] h)) as (w3 & h3 & evs & Hrun & Hmap).
    rewrite Hrun. sim.
    cbn [challenges set_challenges map app] in Hmap.
    split; [reflexivity |].
    split; [exact Hmap |].
    rewrite Hmap.
    split; [| split].
    + intros file Hin. rewrite filter_In, In_sorted. tauto.
    + intros file d Hin Hdoc Hmiss. rewrite filter_In.
      intros [_ Hwf]. unfold well_formed in Hwf. rewrite Hdoc in Hwf.
      unfold complete in Hwf. rewrite !andb_true_iff in Hwf.
      destruct Hwf as [[[[H1 H2] H3] H4] H5].
      destruct Hmiss as [H | [H | [H | [H | H]]]]; congruence.
    + intros file Hin Hdoc. rewrite filter_In.
      intros [_ Hwf]. unfold well_formed in Hwf. rewrite Hdoc in Hwf.
      discriminate.
Qed.

End Proofs.

(** Three files: one complete, one without a description, one that does
    not parse.  The catalog holds the complete one. *)
Lemma discover_challenges_catalog_witness :
  result (discover_challenges (Worlds.scripted Worlds.catalog_of_three)
            Worlds.toy_yaml tt Worlds.manager) = Ret tt
  /\ map filename
       (challenges
          (self (discover_challenges (Worlds.scripted Worlds.catalog_of_three)
                   Worlds.toy_yaml tt Worlds.manager)))
     = ["a.yaml"].
Proof.
  destruct (discover_challenges_catalog
              (Worlds.scripted Worlds.catalog_of_three) Worlds.toy_yaml
              Worlds.three_files (fun _ _ => eq_refl)
              tt Worlds.manager true tt eq_refl) as [_ H].
  destruct (H ["c.yaml"; "a.yaml"; "b.yaml"] tt eq_refl eq_refl)
    as (Hres & Hcat & _).
  split; [exact Hres |]. rewrite Hcat. reflexivity.
Defined.

End Catalog.

(** ** Resource reaper *)

Module Reaper.

Import ChallengeManager Observe.
Local Open Scope string_scope.

Section Proofs.
Context {World : Type}.
Variable sys : forall R, op R -> World -> reply R * World.

(** The loop over the container ids never raises out of the sweep. *)
Lemma sweep_loop_spec (ids : list string) :
  forall (w : World) (h : t),
  exists r w' evs,
    for_in ids (remove_container sys) w h = Run r w' h evs
    /\ r <> Diverge
    /\ forallb reaper_event evs = true.
Proof.
  induction ids as [| c ids IH]; intros w h.
  - exists (Ret None), w, []. cbn. repeat split. discriminate.
  - cbn [for_in]. unfold remove_container at 1, _run_command.
    destruct (strip c =? ""); sim.
    + destruct (IH w h) as (r & w' & evs & Hrun & Hr & Hevs).
      rewrite Hrun. exists r, w', evs. auto.
    + run_call sys.
      * destruct (IH w0 h) as (r1 & w' & evs & Hrun & Hr & Hevs).
        rewrite Hrun. exists r1, w', (EvCall (Exec (docker_rm (strip c)) true) (Ok r) :: evs).
        repeat split; auto.
      * do 3 eexists. repeat split. discriminate.
Qed.

(** The container sweep swallows every error: it always returns, and
    leaves the manager as it was. *)
Lemma _force_cleanup_containers_spec (w : World) (h : t) :
  exists w' evs,
    _force_cleanup_containers sys w h = Run (Ret tt) w' h evs
    /\ forallb reaper_event evs = true.
Proof.
  unfold _force_cleanup_containers, except_Exception, _run_command. sim.
  run_call sys.
  - destruct ((returncode r =? 0)%Z && negb (strip (stdout r) =? "")); sim.
    + destruct (sweep_loop_spec (split newline (strip (stdout r))) w0 h)
        as (r1 & w' & evs & Hrun & Hr & Hevs).
      rewrite Hrun.
      destruct r1 as [a | e |]; [| | congruence]; sim;
        rewrite ?isinstance_Exception; sim;
        do 2 eexists; (split; [reflexivity |]);
        cbn [forallb reaper_event]; rewrite ?forallb_app, Hevs; reflexivity.
    + do 2 eexists. split; reflexivity.
  - rewrite isinstance_Exception. sim.
    do 2 eexists. split; reflexivity.
Qed.

(** The two outcomes of [_cleanup].  When [docker-compose down] can be
    started, whatever its exit status, the sweep runs and [_cleanup]
    returns.  When it cannot be started, the exception leaves [_cleanup]
    and the sweep is not entered. *)
Lemma _cleanup_spec (w : World) (h : t) :
  exists r w' evs,
    _cleanup sys w h = Run r w' h evs
    /\ forallb reaper_event evs = true
    /\ match fst (sys _ (Exec docker_compose_down true) w) with
       | Ok _ =>
           r = Ret tt
           /\ existsb (is_enter "_force_cleanup_containers") evs = true
       | Err e =>
           r = Exn e
           /\ existsb (is_enter "_force_cleanup_containers") evs = false
       end.
Proof.
  unfold _cleanup, _run_command. sim.
  destruct (sys CompletedProcess (Exec docker_compose_down true) w)
    as [[cp | e] w0]; sim.
  - destruct (_force_cleanup_containers_spec w0 h) as (w' & evs & Hrun & Hevs).
    pose proof Hrun as Hfirst.
    unfold _force_cleanup_containers, method, bind, emit in Hfirst.
    rewrite Hrun. do 3 eexists. split; [reflexivity |].
    cbn [forallb reaper_event starts_with docker_compose_down].
    split; [exact Hevs |]. split; [reflexivity |].
    clear Hrun.
    match type of Hfirst with
    | match ?inner with _ => _ end = _ =>
        destruct inner as [r2 w2 h2 evs2]
    end.
    injection Hfirst as _ _ _ <-. reflexivity.
  - do 3 eexists. repeat split.
Qed.

End Proofs.

(** C7.  With no [docker-compose] executable, [_cleanup] raises
    FileNotFoundError to its caller and the container sweep is not
    run. *)
Theorem _cleanup_raises_without_docker_compose :
  _cleanup (Worlds.scripted Worlds.no_docker_compose) tt Worlds.manager
  = Run (Exn FileNotFoundError) tt Worlds.manager
        [EvEnter "_cleanup";
         EvCall (Exec docker_compose_down true) (Err FileNotFoundError)].
Proof. reflexivity. Qed.

(** The teardown command exiting with an error status does not stop the
    sweep. *)
Example _cleanup_sweeps_leftovers :
  result (_cleanup (Worlds.scripted Worlds.leftovers) tt Worlds.manager) = Ret tt
  /\ commands (events (_cleanup (Worlds.scripted Worlds.leftovers) tt Worlds.manager))
     = [docker_compose_down; docker_ps; docker_rm "3f2a9c"; docker_rm "77b001"].
Proof. split; reflexivity. Qed.

End Reaper.

(** ** Environment provisioner *)

Module Provisioner.

Import ChallengeManager Observe.
Local Open Scope string_scope.

Lemma starts_with_head (a : ascii) (p s : string) :
  starts_with (String a p) s = true -> exists rest, s = String a rest.
Proof.
  destruct s as [| c s]; [discriminate |].
  cbn [starts_with]. intros H. apply andb_true_iff in H. destruct H as [H _].
  apply Ascii.eqb_eq in H. subst c. eexists. reflexivity.
Qed.

(** A required command starts with none of "docker" and "kubectl". *)
Lemma docker_not_required (h : t) (cmd : string) :
  starts_with "docker" cmd = true -> is_required h cmd = false.
Proof.
  intros H. apply starts_with_head in H. destruct H as [rest ->]. reflexivity.
Qed.

Lemma kubectl_not_required (h : t) (cmd : string) :
  starts_with "kubectl " cmd = true -> is_required h cmd = false.
Proof.
  intros H. apply starts_with_head in H. destruct H as [rest ->]. reflexivity.
Qed.

Lemma starts_with_shorter (a b s : string) :
  starts_with (a ++ b) s = true -> starts_with a s = true.
Proof.
  revert s. induction a as [| c a IH]; intros s; [reflexivity |].
  destruct s as [| d s]; cbn; [discriminate |].
  intros H. apply andb_true_iff in H. destruct H as [H1 H2].
  rewrite H1. cbn. auto.
Qed.

Lemma reaper_event_required_ok (h : t) (e : event) :
  reaper_event e = true -> required_ok h e = true.
Proof.
  destruct e as [R o r | m | s]; cbn; auto.
  destruct o; cbn; try discriminate.
  intros H. rewrite (docker_not_required h _ H). reflexivity.
Qed.

Lemma patch_event_required_ok (h : t) (e : event) :
  patch_event e = true -> required_ok h e = true.
Proof.
  destruct e as [R o r | m | s]; cbn; auto.
  destruct o; cbn; try discriminate.
  intros H.
  rewrite (kubectl_not_required h cmd); [reflexivity |].
  apply (starts_with_shorter "kubectl " "patch "). exact H.
Qed.

Lemma reaper_event_quiet (e : event) :
  reaper_event e = true -> quiet e = true.
Proof.
  destruct e as [R o r | m | s]; [| | discriminate].
  - destruct o; try discriminate.
    cbn [reaper_event]. intros H.
    apply starts_with_head in H. destruct H as [rest ->]. reflexivity.
  - cbn [reaper_event]. intros H. apply orb_true_iff in H.
    destruct H as [H | H]; apply String.eqb_eq in H; subst m; reflexivity.
Qed.

Lemma quiet_no_write (e : event) : quiet e = true -> is_write e = false.
Proof.
  unfold quiet. rewrite !andb_true_iff, !negb_true_iff. tauto.
Qed.

Lemma quiet_no_patch (e : event) :
  quiet e = true -> is_patch_command e = false.
Proof.
  unfold quiet. rewrite !andb_true_iff, !negb_true_iff. tauto.
Qed.

Lemma quiet_no_copy (e : event) :
  quiet e = true -> is_exec copy_original_values e = false.
Proof.
  unfold quiet. rewrite !andb_true_iff, !negb_true_iff. tauto.
Qed.

Lemma quiet_no_enter (e : event) :
  quiet e = true -> is_enter "_apply_kubectl_patches" e = false.
Proof.
  unfold quiet. rewrite !andb_true_iff, !negb_true_iff. tauto.
Qed.

Lemma reaper_event_before_deploy (h : t) (e : event) :
  reaper_event e = true -> before_deploy h e = true.
Proof.
  destruct e as [R o r | m | s]; [| reflexivity | reflexivity].
  destruct o; try reflexivity.
  cbn [reaper_event]. intros H.
  apply starts_with_head in H. destruct H as [rest ->].
  destruct r; reflexivity.
Qed.

Lemma before_deploy_absent (h : t) (e : event) :
  before_deploy h e = true -> exec_succeeded (helm_upgrade h) e = false.
Proof. unfold before_deploy. apply negb_true_iff. Qed.

Lemma patch_event_no_write (e : event) :
  patch_event e = true -> is_write e = false.
Proof.
  destruct e as [R o r | m | s]; cbn; auto. destruct o; cbn; auto; discriminate.
Qed.

Lemma patch_event_no_copy (e : event) :
  patch_event e = true -> is_exec copy_original_values e = false.
Proof.
  destruct e as [R o r | m | s]; [| reflexivity | reflexivity].
  destruct o; try reflexivity.
  cbn [patch_event is_exec]. intros H.
  apply starts_with_head in H. destruct H as [rest ->]. reflexivity.
Qed.

Section Proofs.
Context {World : Type}.
Variable sys : forall R, op R -> World -> reply R * World.
Variable yaml_dump : value -> reply string.
Variable json_dumps : value -> reply string.
Variable repr : value -> string.

(** The loop over arbitrary entries never touches the manager, and
    does nothing but print and run [kubectl patch]. *)
Lemma patch_loop_spec (patches : list value) :
  forall (bound : option (value * value)) (w : World) (h : t),
  exists r w' evs,
    patch_loop sys json_dumps repr patches bound w h = Run r w' h evs
    /\ r <> Diverge
    /\ forallb patch_event evs = true.
Proof.
  induction patches as [| patch rest IH]; intros bound w h.
  - exists (Ret tt), w, []. repeat split. discriminate.
  - cbn [patch_loop].
    destruct patch as [| b | z | s | l | d];
      try (destruct bound as [[resource name] |]; sim;
           [destruct (IH (Some (resource, name)) w h)
              as (r & w' & evs & Hrun & Hr & Hevs);
            rewrite Hrun; do 3 eexists; split; [reflexivity |];
            split; [exact Hr | exact Hevs]
           | do 3 eexists; split; [reflexivity |];
             split; [discriminate | reflexivity]]).
    unfold _run_command. sim.
    destruct (negb (truthy (get d "resource")) || negb (truthy (get d "name"))
              || negb (truthy (get_default d "patch" (VDict [])))); sim.
    + destruct (IH (Some (get d "resource", get d "name")) w h)
        as (r & w' & evs & Hrun & Hr & Hevs).
      rewrite Hrun. do 3 eexists. split; [reflexivity |]. auto.
    + destruct (json_dumps (get_default d "patch" (VDict []))) as [j | e]; sim.
      * run_call sys;
          [destruct (returncode r =? 0)%Z; sim |];
          rewrite ?isinstance_Exception; sim;
          match goal with
          | |- context [patch_loop _ _ _ rest ?bd ?ww h] =>
              destruct (IH bd ww h) as (r1 & w' & evs & Hrun & Hr & Hevs)
          end;
          rewrite Hrun; do 3 eexists; (split; [reflexivity |]);
          (split; [exact Hr |]); cbn; exact Hevs.
      * rewrite isinstance_Exception. sim.
        destruct (IH (Some (get d "resource", get d "name")) w h)
          as (r & w' & evs & Hrun & Hr & Hevs).
        rewrite Hrun. do 3 eexists. split; [reflexivity |]. auto.
Qed.

(** The loop over entries that are all mappings: it returns, the
    commands it attempts are those of the entries, in their order,
    whatever became of the earlier ones, and each failure leaves one
    warning on the terminal. *)
Lemma patch_loop_dicts (ds : list dict) :
  forall (bound : option (value * value)) (w : World) (h : t),
  exists w' evs,
    patch_loop sys json_dumps repr (map VDict ds) bound w h
    = Run (Ret tt) w' h evs
    /\ commands evs
       = flat_map (entry_commands json_dumps repr (flagsmith_namespace h)) ds
    /\ count is_print evs
       = count exec_failed evs
         + List.length (filter (unserializable json_dumps) ds).
Proof.
  induction ds as [| d ds IH]; intros bound w h.
  - exists w, []. repeat split.
  - cbn [patch_loop map flat_map filter]. unfold _run_command. sim.
    destruct (passed_over d) eqn:Hp.
    + assert (Hc : entry_commands json_dumps repr (flagsmith_namespace h) d = [])
        by (unfold entry_commands; rewrite Hp; reflexivity).
      assert (Hu : unserializable json_dumps d = false)
        by (unfold unserializable; rewrite Hp; reflexivity).
      rewrite Hc, Hu. unfold passed_over in Hp. rewrite Hp. sim.
      destruct (IH (Some (get d "resource", get d "name")) w h)
        as (w' & evs & Hrun & Hcmd & Hcnt).
      rewrite Hrun. do 2 eexists. split; [reflexivity |]. auto.
    + destruct (json_dumps (get_default d "patch" (VDict []))) as [j | e] eqn:Hj.
      * assert (Hc : entry_commands json_dumps repr (flagsmith_namespace h) d
                     = [kubectl_patch (format repr (get d "resource"))
                          (format repr (get d "name"))
                          (format repr
                             (get_default d "namespace"
                                (VStr (flagsmith_namespace h))))
                          (format repr (get_default d "patch_type" (VStr "merge")))
                          j])
          by (unfold entry_commands; rewrite Hp, Hj; reflexivity).
        assert (Hu : unserializable json_dumps d = false)
          by (unfold unserializable; rewrite Hp, Hj; reflexivity).
        rewrite Hc, Hu. unfold passed_over in Hp. rewrite Hp. sim.
        run_call sys;
          [destruct (returncode r =? 0)%Z eqn:Hrc; sim |];
          rewrite ?isinstance_Exception; sim;
          match goal with
          | |- context [patch_loop _ _ _ (map VDict ds) ?bd ?ww h] =>
              destruct (IH bd ww h) as (w' & evs & Hrun & Hcmd & Hcnt)
          end;
          rewrite Hrun; do 2 eexists; (split; [reflexivity |]);
          rewrite ?count_cons; cbn [commands app is_print exec_failed];
          rewrite ?Hrc, ?Hcmd, ?Hcnt; cbn [negb]; split; (reflexivity || lia).
      * assert (Hc : entry_commands json_dumps repr (flagsmith_namespace h) d = [])
          by (unfold entry_commands; rewrite Hp, Hj; reflexivity).
        assert (Hu : unserializable json_dumps d = true)
          by (unfold unserializable; rewrite Hp, Hj; reflexivity).
        rewrite Hc, Hu. unfold passed_over in Hp. rewrite Hp. sim.
        rewrite isinstance_Exception. sim.
        destruct (IH (Some (get d "resource", get d "name")) w h)
          as (w' & evs & Hrun & Hcmd & Hcnt).
        rewrite Hrun. do 2 eexists. split; [reflexivity |].
        rewrite ?count_cons. cbn [commands is_print exec_failed List.length app].
        rewrite Hcmd, Hcnt. split; (reflexivity || lia).
Qed.

Lemma _apply_kubectl_patches_spec (patches : value) (w : World) (h : t) :
  exists r w' evs,
    _apply_kubectl_patches sys json_dumps repr patches w h = Run r w' h evs
    /\ r <> Diverge
    /\ forallb patch_event evs = true.
Proof.
  unfold _apply_kubectl_patches. sim.
  destruct (iterate patches) as [items | e]; sim.
  - destruct (patch_loop_spec items None w h) as (r & w' & evs & Hrun & Hr & Hevs).
    rewrite Hrun. do 3 eexists. split; [reflexivity |]. auto.
  - do 3 eexists. split; [reflexivity |]. split; [discriminate | reflexivity].
Qed.

(** The values file.  With helm values that count as true the only
    operation is the write of their dump to the values file; otherwise
    the only operation is the copy of the values shipped with the
    chart. *)
Lemma prepare_values_file_spec (c : Challenge) (w : World) (h : t) :
  exists r w' evs,
    prepare_values_file sys yaml_dump c w h = Run r w' h evs
    /\ r <> Diverge
    /\ forallb (before_deploy h) evs = true
    /\ (r = Ret tt ->
        if truthy (helm_values c)
        then exists text,
               yaml_dump (helm_values c) = Ok text
               /\ evs = [EvCall (WriteText values_file text) (Ok tt)]
        else exists cp,
               returncode cp = 0%Z
               /\ evs = [EvCall (Exec copy_original_values true) (Ok cp)]).
Proof.
  unfold prepare_values_file, _run_command.
  destruct (truthy (helm_values c)); sim.
  - destruct (yaml_dump (helm_values c)) as [text | e]; sim.
    + run_call sys; do 3 eexists; (split; [reflexivity |]);
        (split; [discriminate |]); (split; [reflexivity |]);
        intros H; try discriminate.
      destruct r. exists text. split; reflexivity.
    + do 3 eexists. split; [reflexivity |]. split; [discriminate |].
      split; [reflexivity | discriminate].
  - run_call sys.
    + destruct (returncode r =? 0)%Z eqn:Hrc; sim;
        do 3 eexists; (split; [reflexivity |]);
        (split; [discriminate |]); (split; [reflexivity |]);
        intros H; try discriminate.
      exists r. apply Z.eqb_eq in Hrc. split; [exact Hrc | reflexivity].
    + do 3 eexists. split; [reflexivity |]. split; [discriminate |].
      split; [reflexivity | discriminate].
Qed.

Lemma add_helm_repos_spec (w : World) (h : t) :
  exists r w' evs,
    add_helm_repos sys w h = Run r w' h evs
    /\ r <> Diverge
    /\ forallb (required_ok h) evs = true
    /\ forallb quiet evs = true
    /\ forallb (before_deploy h) evs = true.
Proof.
  unfold add_helm_repos, _run_command. sim.
  repeat (run_call sys;
          [| do 3 eexists; (split; [reflexivity |]);
             (split; [discriminate |]); repeat split]).
  do 3 eexists. split; [reflexivity |]. split; [discriminate |]. repeat split.
Qed.

Lemma clone_charts_spec (w : World) (h : t) :
  exists r w' evs,
    clone_charts sys w h = Run r w' h evs
    /\ r <> Diverge
    /\ (r = Ret tt -> forallb (required_ok h) evs = true)
    /\ forallb quiet evs = true
    /\ forallb (before_deploy h) evs = true.
Proof.
  unfold clone_charts, _run_command. sim.
  run_call sys.
  - destruct r; sim.
    + do 3 eexists. split; [reflexivity |]. split; [discriminate |].
      repeat split.
    + run_call sys.
      * destruct (returncode r =? 0)%Z eqn:Hrc; sim;
          do 3 eexists; (split; [reflexivity |]); (split; [discriminate |]);
          (split; [intros H; try discriminate | repeat split]).
        cbn. rewrite Hrc. reflexivity.
      * do 3 eexists. split; [reflexivity |]. split; [discriminate |].
        split; [discriminate | repeat split].
  - do 3 eexists. split; [reflexivity |]. split; [discriminate |].
    split; [discriminate | repeat split].
Qed.

Lemma apply_patches_spec (c : Challenge) (w : World) (h : t) :
  exists r w' evs,
    apply_patches sys json_dumps repr c w h = Run r w' h evs
    /\ r <> Diverge
    /\ forallb patch_event evs = true
    /\ (truthy (kubectl_patches c) = false -> evs = []).
Proof.
  unfold apply_patches.
  destruct (truthy (kubectl_patches c)).
  - destruct (_apply_kubectl_patches_spec (kubectl_patches c) w h)
      as (r & w' & evs & Hrun & Hr & Hevs).
    exists r, w', evs. repeat split; auto; discriminate.
  - do 3 eexists. split; [reflexivity |]. repeat split. discriminate.
Qed.

Lemma apply_patches_typed (c : Challenge) (w : World) (h : t) :
  patches_typed c ->
  exists w' evs,
    apply_patches sys json_dumps repr c w h = Run (Ret tt) w' h evs.
Proof.
  unfold apply_patches. intros [Hfalsy | [ds Hds]].
  - rewrite Hfalsy. do 2 eexists. reflexivity.
  - destruct (truthy (kubectl_patches c)); [| do 2 eexists; reflexivity].
    rewrite Hds. unfold _apply_kubectl_patches. cbn [iterate]. sim.
    destruct (patch_loop_dicts ds None w h) as (w' & evs & Hrun & _).
    rewrite Hrun. do 2 eexists. reflexivity.
Qed.

(** The deployment command has not succeeded in these events. *)
Ltac not_deployed :=
  repeat (rewrite existsb_app || rewrite existsb_cons);
  repeat match goal with
         | H : existsb (exec_succeeded _) _ = false |- _ => rewrite H
         end;
  cbn [exec_succeeded];
  try match goal with
      | H : (returncode _ =? 0)%Z = false |- _ => rewrite H, andb_false_r
      end;
  reflexivity.

(** The outcome of a step that ends the run with an exception. *)
Ltac stop :=
  do 3 eexists; (split; [reflexivity |]);
  (split; [discriminate |]); (split; [discriminate |]);
  (split; [discriminate |]);
  intros _ ? _; not_deployed.

(** The body of the [try]: every path.  It ends by returning True or by
    an exception.  When it returns True no required step failed, the
    deployment command exited with status 0, the values file is the dump
    of the helm values when these count as true and the copy of the
    default values otherwise, and without patches no patch was applied.
    When it ends by an exception and the patch set has its declared type,
    the deployment command has not gone through. *)
Lemma provision_cases (c : Challenge) (w : World) (h : t) :
  exists r w' evs,
    provision sys yaml_dump json_dumps repr c w h = Run r w' h evs
    /\ r <> Diverge
    /\ (forall b, r = Ret b -> b = true)
    /\ (r = Ret true ->
        forallb (required_ok h) evs = true
        /\ existsb (exec_succeeded (helm_upgrade h)) evs = true
        /\ (if truthy (helm_values c)
            then exists text,
                   yaml_dump (helm_values c) = Ok text
                   /\ existsb (wrote values_file text) evs = true
                   /\ existsb (is_exec copy_original_values) evs = false
            else existsb is_write evs = false
                 /\ existsb (exec_succeeded copy_original_values) evs = true)
        /\ (truthy (kubectl_patches c) = false ->
            existsb is_patch_command evs = false
            /\ existsb (is_enter "_apply_kubectl_patches") evs = false))
    /\ (patches_typed c ->
        forall e, r = Exn e ->
        existsb (exec_succeeded (helm_upgrade h)) evs = false).
Proof.
  unfold provision, _run_command. sim.
  destruct (Reaper._cleanup_spec sys w h) as (r0 & w0 & ev0 & Hrun0 & Hev0 & Hc0).
  rewrite Hrun0.
  assert (Hr0 : r0 = Ret tt \/ exists e, r0 = Exn e).
  { destruct (fst (sys CompletedProcess (Exec docker_compose_down true) w));
      destruct Hc0 as [-> _]; eauto. }
  clear Hc0.
  pose proof (forallb_weaken _ _ _ (reaper_event_required_ok h) Hev0) as Hok0.
  pose proof (forallb_none _ _ _ (before_deploy_absent h)
                (forallb_weaken _ _ _ (reaper_event_before_deploy h) Hev0))
    as Hd0.
  apply (forallb_weaken _ _ _ reaper_event_quiet) in Hev0.
  destruct Hr0 as [-> | [e ->]]; sim; [| stop].
  run_call sys; [| stop].
  run_call sys; [| stop].
  destruct (clone_charts_spec w2 h)
    as (rg & wg & evg & Hrung & Hrg & Hokg & Hevg & Hdg).
  apply (forallb_none _ _ _ (before_deploy_absent h)) in Hdg.
  rewrite Hrung.
  destruct rg as [[] | e |]; [| | congruence]; sim; [| stop].
  specialize (Hokg eq_refl).
  destruct (prepare_values_file_spec c wg h)
    as (rv & wv & evv & Hrunv & Hrv & Hdv & Hevv).
  apply (forallb_none _ _ _ (before_deploy_absent h)) in Hdv.
  rewrite Hrunv.
  destruct rv as [[] | e |]; [| | congruence]; sim; [| stop].
  specialize (Hevv eq_refl).
  destruct (add_helm_repos_spec wv h)
    as (rr & wr & evr & Hrunr & Hrr & Hokr & Hevr & Hdr).
  apply (forallb_none _ _ _ (before_deploy_absent h)) in Hdr.
  rewrite Hrunr.
  destruct rr as [[] | e |]; [| | congruence]; sim; [| stop].
  run_call sys; [| stop].
  destruct (returncode r1 =? 0)%Z eqn:Hrc; sim; [| stop].
  destruct (apply_patches_spec c w3 h)
    as (rp & wp & evp & Hrunp & Hrp & Hevp & Hnone).
  pose proof (forallb_weaken _ _ _ (patch_event_required_ok h) Hevp) as Hokp.
  rewrite Hrunp.
  destruct rp as [[] | e |]; [| | congruence]; sim.
  2:{ do 3 eexists. split; [reflexivity |].
      split; [discriminate |]. split; [discriminate |].
      split; [discriminate |].
      intros Htyped e' _.
      destruct (apply_patches_typed c w3 h Htyped) as (w' & evs' & Hrun').
      congruence. }
  do 3 eexists. split; [reflexivity |]. split; [discriminate |].
  split; [intros b Hb; injection Hb as <-; reflexivity |].
  split; [| discriminate].
  intros _.
  pose proof (forallb_none _ _ _ quiet_no_write Hev0) as Hw0.
  pose proof (forallb_none _ _ _ quiet_no_write Hevg) as Hwg.
  pose proof (forallb_none _ _ _ quiet_no_write Hevr) as Hwr.
  pose proof (forallb_none _ _ _ patch_event_no_write Hevp) as Hwp.
  pose proof (forallb_none _ _ _ quiet_no_copy Hev0) as Hc0.
  pose proof (forallb_none _ _ _ quiet_no_copy Hevg) as Hcg.
  pose proof (forallb_none _ _ _ quiet_no_copy Hevr) as Hcr.
  pose proof (forallb_none _ _ _ patch_event_no_copy Hevp) as Hcp.
  split; [| split; [| split]].
  - assert (Hokv : forallb (required_ok h) evv = true).
    { destruct (truthy (helm_values c)).
      - destruct Hevv as (text & _ & ->). reflexivity.
      - destruct Hevv as (cp & Hz & ->). cbn. apply Z.eqb_eq in Hz.
        rewrite Hz. reflexivity. }
    repeat (rewrite forallb_app || rewrite forallb_cons).
    rewrite Hok0, Hokg, Hokv, Hokr, Hokp.
    cbn [required_ok exited_zero forallb]. rewrite Hrc, !orb_true_r.
    reflexivity.
  - repeat (rewrite existsb_app || rewrite existsb_cons).
    cbn [exec_succeeded]. rewrite String.eqb_refl, Hrc.
    cbn [andb]. rewrite !orb_true_r. reflexivity.
  - destruct (truthy (helm_values c)).
    + destruct Hevv as (text & Hdump & ->). exists text.
      split; [exact Hdump |]. split.
      * repeat (rewrite existsb_app || rewrite existsb_cons).
        cbn [wrote answered]. rewrite !String.eqb_refl.
        cbn [andb]. rewrite !orb_true_r. reflexivity.
      * repeat (rewrite existsb_app || rewrite existsb_cons).
        rewrite Hc0, Hcg, Hcr, Hcp. reflexivity.
    + destruct Hevv as (cp & Hz & ->). split.
      * repeat (rewrite existsb_app || rewrite existsb_cons).
        rewrite Hw0, Hwg, Hwr, Hwp. reflexivity.
      * repeat (rewrite existsb_app || rewrite existsb_cons).
        cbn [exec_succeeded]. apply Z.eqb_eq in Hz.
        rewrite String.eqb_refl, Hz.
        cbn [andb]. rewrite !orb_true_r. reflexivity.
  - intros Hfalsy. rewrite (Hnone Hfalsy).
    assert (Hpv : existsb is_patch_command evv = false
                  /\ existsb (is_enter "_apply_kubectl_patches") evv = false).
    { destruct (truthy (helm_values c)).
      - destruct Hevv as (text & _ & ->). split; reflexivity.
      - destruct Hevv as (cp & _ & ->). split; reflexivity. }
    destruct Hpv as [Hpv Hev].
    split.
    + repeat (rewrite existsb_app || rewrite existsb_cons).
      rewrite (forallb_none _ _ _ quiet_no_patch Hev0),
        (forallb_none _ _ _ quiet_no_patch Hevg),
        (forallb_none _ _ _ quiet_no_patch Hevr), Hpv.
      reflexivity.
    + repeat (rewrite existsb_app || rewrite existsb_cons).
      rewrite (forallb_none _ _ _ quiet_no_enter Hev0),
        (forallb_none _ _ _ quiet_no_enter Hevg),
        (forallb_none _ _ _ quiet_no_enter Hevr), Hev.
      reflexivity.
Qed.

End Proofs.

(** *** A run in which nothing goes wrong *)

Section Calm.
Context {World : Type}.
Variable sys : forall R, op R -> World -> reply R * World.
Variable yaml_dump : value -> reply string.
Variable json_dumps : value -> reply string.
Variable repr : value -> string.

Lemma helm_upgrade_required (h : t) : is_required h (helm_upgrade h) = true.
Proof. unfold is_required. rewrite String.eqb_refl, !orb_true_r. reflexivity. Qed.

Hypothesis sys_answers : answers sys.

(** Answer the next operation. *)
Ltac answer E :=
  match goal with
  | |- context [sys ?R ?o ?w] =>
      is_var w;
      let r := fresh "r" in
      let w' := fresh "w" in
      destruct (sys_answers R o w) as (r & w' & E);
      rewrite E; sim
  end.

Lemma remove_containers_succeed (ids : list string) :
  forall (w : World) (h : t),
  exists w' evs,
    for_in ids (remove_container sys) w h = Run (Ret None) w' h evs.
Proof.
  induction ids as [| c ids IH]; intros w h.
  - do 2 eexists. reflexivity.
  - cbn [for_in]. unfold remove_container at 1, _run_command.
    destruct (strip c =? ""); sim.
    + destruct (IH w h) as (w' & evs & Hrun). rewrite Hrun.
      do 2 eexists. reflexivity.
    + let E := fresh "E" in answer E.
      destruct (IH w0 h) as (w' & evs & Hrun). rewrite Hrun.
      do 2 eexists. reflexivity.
Qed.

Lemma _cleanup_succeeds (w : World) (h : t) :
  exists w' evs, _cleanup sys w h = Run (Ret tt) w' h evs.
Proof.
  destruct (Reaper._cleanup_spec sys w h) as (r & w' & evs & Hrun & _ & Hcase).
  destruct (sys_answers _ (Exec docker_compose_down true) w) as (cp & w1 & E).
  rewrite E in Hcase. cbn [fst] in Hcase. destruct Hcase as [-> _].
  eauto.
Qed.

(** When every operation is answered, the required commands exit with
    status 0, the helm values can be dumped and the patch set has its
    declared type, the body of the [try] returns True. *)
Lemma provision_succeeds (c : Challenge) (w : World) (h : t) :
  required_succeed sys h ->
  (truthy (helm_values c) = true ->
   exists text, yaml_dump (helm_values c) = Ok text) ->
  patches_typed c ->
  exists w' evs,
    provision sys yaml_dump json_dumps repr c w h = Run (Ret true) w' h evs.
Proof.
  intros Hreq Hdump Htyped.
  unfold provision, clone_charts, prepare_values_file, add_helm_repos,
    _run_command. sim.
  destruct (_cleanup_succeeds w h) as (w0 & ev0 & Hrun0). rewrite Hrun0. sim.
  let E := fresh "E" in answer E.
  let E := fresh "E" in answer E.
  let E := fresh "E" in answer E.
  assert (Hclone :
    forall w1, exists w' evs,
      (if negb r1
       then bind (_run_command sys git_clone_charts true true) (fun _ => ret tt)
       else ret tt) w1 h = Run (Ret tt) w' h evs).
  { intros w9. destruct r1; unfold _run_command; sim.
    - do 2 eexists. reflexivity.
    - destruct (sys_answers _ (Exec git_clone_charts false) w9) as (cp & w' & Eg).
      rewrite Eg. sim.
      rewrite (Hreq _ _ _ _ _ Eg eq_refl). sim. do 2 eexists. reflexivity. }
  revert Hclone. unfold _run_command. sim. intros Hclone.
  destruct (Hclone w3) as (wg & evg & Hrung). rewrite Hrung. sim.
  clear Hclone Hrung.
  assert (Hvalues :
    forall w1, exists w' evs,
      prepare_values_file sys yaml_dump c w1 h = Run (Ret tt) w' h evs).
  { intros w9. unfold prepare_values_file, _run_command.
    destruct (truthy (helm_values c)); sim.
    - destruct (Hdump eq_refl) as [text Htext]. rewrite Htext. sim.
      destruct (sys_answers _ (WriteText values_file text) w9) as ([] & w' & Ev).
      rewrite Ev. sim. do 2 eexists. reflexivity.
    - destruct (sys_answers _ (Exec copy_original_values true) w9)
        as (cp & w' & Ev).
      rewrite Ev. sim.
      rewrite (Hreq _ _ _ _ _ Ev eq_refl). sim. do 2 eexists. reflexivity. }
  revert Hvalues. unfold prepare_values_file, _run_command. sim. intros Hvalues.
  destruct (Hvalues wg) as (wv & evv & Hrunv). rewrite Hrunv. sim.
  clear Hvalues Hrunv.
  do 6 (let E := fresh "E" in answer E).
  match goal with
  | |- context [sys _ (Exec (helm_upgrade h) false) ?w9] =>
      destruct (sys_answers _ (Exec (helm_upgrade h) false) w9) as (cp & wh & Eh)
  end.
  rewrite Eh. sim.
  rewrite (Hreq _ _ _ _ _ Eh (helm_upgrade_required h)), Z.eqb_refl. sim.
  destruct (apply_patches_typed sys json_dumps repr c wh h Htyped)
    as (wp & evp & Hrunp).
  rewrite Hrunp. sim.
  do 2 eexists. reflexivity.
Qed.

End Calm.

Section Claims.
Context {World : Type}.
Variable sys : forall R, op R -> World -> reply R * World.
Variable yaml_dump : value -> reply string.
Variable json_dumps : value -> reply string.
Variable repr : value -> string.

(** [setup_challenge] is the assignment of [current_challenge] followed
    by the guarded body. *)
Lemma setup_challenge_unfold (c : Challenge) (w : World) (h : t) :
  setup_challenge sys yaml_dump json_dumps repr c w h
  = match try_except (provision sys yaml_dump json_dumps repr c)
            (except_Exception (ret false))
            w (set_current_challenge (Some c) h) with
    | Run r w' h' evs => Run r w' h' (EvEnter "setup_challenge" :: evs)
    end.
Proof.
  unfold setup_challenge, method, bind, emit, read, write.
  match goal with
  | |- context [try_except ?m ?k ?ww ?hh] =>
      destruct (try_except m k ww hh) as [r w' h' evs]
  end.
  reflexivity.
Qed.

(** Every path of [setup_challenge]: it returns a boolean; the manager
    it leaves has [current_challenge] set and is otherwise as before. *)
Lemma setup_challenge_cases (c : Challenge) (w : World) (h : t) :
  exists b w' evs,
    setup_challenge sys yaml_dump json_dumps repr c w h
    = Run (Ret b) w' (set_current_challenge (Some c) h) evs
    /\ (b = true ->
        forallb (required_ok h) evs = true
        /\ existsb (exec_succeeded (helm_upgrade h)) evs = true
        /\ (if truthy (helm_values c)
            then exists text,
                   yaml_dump (helm_values c) = Ok text
                   /\ existsb (wrote values_file text) evs = true
                   /\ existsb (is_exec copy_original_values) evs = false
            else existsb is_write evs = false
                 /\ existsb (exec_succeeded copy_original_values) evs = true)
        /\ (truthy (kubectl_patches c) = false ->
            existsb is_patch_command evs = false
            /\ existsb (is_enter "_apply_kubectl_patches") evs = false))
    /\ (b = false ->
        patches_typed c ->
        existsb (exec_succeeded (helm_upgrade h)) evs = false).
Proof.
  rewrite setup_challenge_unfold. unfold try_except, except_Exception.
  destruct (provision_cases sys yaml_dump json_dumps repr c w
              (set_current_challenge (Some c) h))
    as (r & w' & evs & Hrun & Hr & Hb & Htrue & Hexn).
  rewrite Hrun.
  destruct r as [b | e |]; [| | congruence].
  - rewrite (Hb b eq_refl) in *. do 3 eexists. split; [reflexivity |].
    split; [| discriminate].
    intros _. destruct (Htrue eq_refl) as (Hok & Hhelm & Hconfig & Hnone).
    split; [exact Hok |]. split; [exact Hhelm |].
    split.
    + destruct (truthy (helm_values c)).
      * destruct Hconfig as (text & Hdump & Hw & Hcp).
        exists text. split; [exact Hdump |]. split; [exact Hw | exact Hcp].
      * destruct Hconfig as [Hw Hcp]. split; [exact Hw | exact Hcp].
    + intros Hfalsy. destruct (Hnone Hfalsy) as [Hnp Hne].
      split; [exact Hnp | exact Hne].
  - rewrite isinstance_Exception. sim.
    do 3 eexists. split; [reflexivity |].
    split; [discriminate |].
    intros _ Htyped. rewrite app_nil_r.
    exact (Hexn Htyped e eq_refl).
Qed.

(** C4.  Provisioning always returns a boolean to its caller and never
    raises, whatever the environment does; nothing but the boolean comes
    back.  When it returns True no required step failed (the clone of
    the charts, the copy of the default values, the write of the values
    file, the deployment), so that a failed required step makes it
    return False.  For a scenario whose patch set has its declared type,
    it returns True exactly when the deployment command, the last of the
    required steps, exited with status 0. *)
Theorem setup_challenge_boolean (c : Challenge) (w : World) (h : t) :
  exists b w' evs,
    setup_challenge sys yaml_dump json_dumps repr c w h
    = Run (Ret b) w' (set_current_challenge (Some c) h) evs
    /\ (b = true -> forallb (required_ok h) evs = true)
    /\ (forallb (required_ok h) evs = false -> b = false)
    /\ (patches_typed c ->
        (b = true <-> existsb (exec_succeeded (helm_upgrade h)) evs = true)).
Proof.
  destruct (setup_challenge_cases c w h)
    as (b & w' & evs & Hrun & Htrue & Hfalse).
  exists b, w', evs. split; [exact Hrun |].
  split; [intros Hb; apply (Htrue Hb) |].
  split.
  - intros Hbad. destruct b; [| reflexivity].
    destruct (Htrue eq_refl) as [Hok _]. congruence.
  - intros Htyped. split.
    + intros Hb. apply (Htrue Hb).
    + intros Hdone. destruct b; [reflexivity |].
      rewrite (Hfalse eq_refl Htyped) in Hdone. discriminate.
Qed.

(** C8.  Patch application over a list of entries: it returns without
    raising; the commands it attempts are those of the entries, in the
    order of the list, whatever the environment answered to the earlier
    ones; each failure leaves a warning on the terminal.  An entry
    without resource kind, without resource name, or with a missing or
    empty patch body contributes no command.  A complete entry that names
    no strategy is applied with the merge strategy. *)
Theorem apply_kubectl_patches_isolated (ds : list dict) (w : World) (h : t) :
  (exists w' evs,
      _apply_kubectl_patches sys json_dumps repr (VList (map VDict ds)) w h
      = Run (Ret tt) w' h evs
      /\ commands evs
         = flat_map (entry_commands json_dumps repr (flagsmith_namespace h)) ds
      /\ count is_print evs
         = count exec_failed evs
           + List.length (filter (unserializable json_dumps) ds))
  /\ (forall d ns,
        lookup d "resource" = None \/ lookup d "name" = None
        \/ lookup d "patch" = None \/ lookup d "patch" = Some (VDict []) ->
        entry_commands json_dumps repr ns d = [])
  /\ (forall d ns patch_json,
        passed_over d = false ->
        lookup d "patch_type" = None ->
        json_dumps (get_default d "patch" (VDict [])) = Ok patch_json ->
        entry_commands json_dumps repr ns d
        = [kubectl_patch (format repr (get d "resource"))
             (format repr (get d "name"))
             (format repr (get_default d "namespace" (VStr ns)))
             "merge" patch_json]).
Proof.
  split; [| split].
  - unfold _apply_kubectl_patches. cbn [iterate]. sim.
    destruct (patch_loop_dicts sys json_dumps repr ds None w h)
      as (w' & evs & Hrun & Hcmd & Hcnt).
    rewrite Hrun. do 2 eexists. split; [reflexivity |].
    split; [exact Hcmd |]. rewrite count_cons. exact Hcnt.
  - intros d ns Hmiss. unfold entry_commands, passed_over, get, get_default.
    destruct Hmiss as [H | [H | [H | H]]]; rewrite H; cbn;
      rewrite ?orb_true_r; reflexivity.
  - intros d ns j Hp Htype Hj. unfold entry_commands.
    rewrite Hp, Hj.
    replace (get_default d "patch_type" (VStr "merge")) with (VStr "merge")
      by (unfold get_default; rewrite Htype; reflexivity).
    reflexivity.
Qed.

(** C9.  The values file of a deployment.  When the helm values of the
    scenario count as true, what the step does is write their dump, as
    it is, to the values file; otherwise what it does is copy the values
    shipped with the chart to the values file.  A scenario with the empty
    mapping as helm values and the empty list as patches, in an
    environment where every operation is answered and the required
    commands exit with status 0, is provisioned with the copied default
    values, writes no file, applies no patch, and [setup_challenge]
    returns True. *)
Theorem values_file_source (c : Challenge) (w : World) (h : t) :
  (forall text,
      truthy (helm_values c) = true ->
      yaml_dump (helm_values c) = Ok text ->
      events (prepare_values_file sys yaml_dump c w h)
      = [EvCall (WriteText values_file text)
                (fst (sys _ (WriteText values_file text) w))])
  /\ (truthy (helm_values c) = false ->
      events (prepare_values_file sys yaml_dump c w h)
      = [EvCall (Exec copy_original_values true)
                (fst (sys _ (Exec copy_original_values true) w))])
  /\ (helm_values c = VDict [] ->
      kubectl_patches c = VList [] ->
      answers sys ->
      required_succeed sys h ->
      exists w' evs,
        setup_challenge sys yaml_dump json_dumps repr c w h
        = Run (Ret true) w' (set_current_challenge (Some c) h) evs
        /\ existsb (exec_succeeded copy_original_values) evs = true
        /\ existsb is_write evs = false
        /\ existsb is_patch_command evs = false
        /\ existsb (is_enter "_apply_kubectl_patches") evs = false
        /\ existsb (exec_succeeded (helm_upgrade h)) evs = true).
Proof.
  split; [| split].
  - intros text Htruthy Hdump. unfold prepare_values_file.
    rewrite Htruthy, Hdump. sim.
    destruct (sys unit (WriteText values_file text) w) as [[[] | e] w1];
      reflexivity.
  - intros Hfalsy. unfold prepare_values_file, _run_command.
    rewrite Hfalsy. sim.
    destruct (sys CompletedProcess (Exec copy_original_values true) w)
      as [[cp | e] w1]; sim; [| reflexivity].
    destruct (returncode cp =? 0)%Z; reflexivity.
  - intros Hvalues Hpatches Hans Hreq.
    assert (Hdump : truthy (helm_values c) = true ->
                    exists text, yaml_dump (helm_values c) = Ok text)
      by (rewrite Hvalues; discriminate).
    assert (Htyped : patches_typed c)
      by (left; rewrite Hpatches; reflexivity).
    destruct (provision_succeeds sys yaml_dump json_dumps repr Hans c w
                (set_current_challenge (Some c) h) Hreq Hdump Htyped)
      as (w0 & evs0 & Hp).
    destruct (setup_challenge_cases c w h)
      as (b & w' & evs & Hrun & Htrue & _).
    assert (Hb : b = true).
    { rewrite setup_challenge_unfold in Hrun. unfold try_except in Hrun.
      rewrite Hp in Hrun. congruence. }
    subst b. exists w', evs. split; [exact Hrun |].
    destruct (Htrue eq_refl) as (_ & Hhelm & Hconfig & Hnone).
    rewrite Hvalues in Hconfig. cbn [truthy] in Hconfig.
    destruct Hconfig as [Hw Hcp].
    destruct Hnone as [Hnp Hne]; [rewrite Hpatches; reflexivity |].
    auto.
Qed.

(** C10.  [setup_challenge c] stores [c] in [current_challenge] first and
    runs the whole guarded body from the state in which the field is
    already set; whatever then happens, provisioning failing and False
    coming back included, the field still holds [c] when the call
    returns. *)
Theorem setup_challenge_keeps_current (c : Challenge) (w : World) (h : t) :
  setup_challenge sys yaml_dump json_dumps repr c w h
  = match try_except (provision sys yaml_dump json_dumps repr c)
            (except_Exception (ret false))
            w (set_current_challenge (Some c) h) with
    | Run r w' h' evs => Run r w' h' (EvEnter "setup_challenge" :: evs)
    end
  /\ current_challenge
       (self (setup_challenge sys yaml_dump json_dumps repr c w h))
     = Some c
  /\ (result (setup_challenge sys yaml_dump json_dumps repr c w h) = Ret false
      \/ result (setup_challenge sys yaml_dump json_dumps repr c w h) = Ret true).
Proof.
  split; [apply setup_challenge_unfold |].
  destruct (setup_challenge_cases c w h) as (b & w' & evs & Hrun & _).
  rewrite Hrun. cbn [self result current_challenge set_current_challenge].
  split; [reflexivity |]. destruct b; auto.
Qed.

End Claims.

Lemma calm_answers : answers (Worlds.scripted Worlds.calm).
Proof. intros R o w. destruct o; do 2 eexists; reflexivity. Qed.

Lemma calm_required_succeed (h : t) :
  required_succeed (Worlds.scripted Worlds.calm) h.
Proof.
  intros cmd capture w cp w' H _. cbn in H. injection H as <- _. reflexivity.
Qed.

(** In the calm environment the plain scenario is provisioned. *)
Lemma setup_challenge_boolean_witness :
  result (setup_challenge (Worlds.scripted Worlds.calm) Worlds.dump Worlds.dump
            Worlds.show Worlds.plain_scenario tt Worlds.manager)
  = Ret true.
Proof.
  destruct (setup_challenge_boolean (Worlds.scripted Worlds.calm) Worlds.dump
              Worlds.dump Worlds.show Worlds.plain_scenario tt Worlds.manager)
    as (b & w' & evs & Hrun & _ & _ & Hiff).
  rewrite Hrun. cbn [result]. f_equal.
  apply Hiff; [left; reflexivity |].
  vm_compute in Hrun. injection Hrun as _ _ <-. reflexivity.
Defined.

(** Three entries against a cluster that rejects every patch: the first
    and the third are attempted, in this order, the second (no resource
    name) is passed over, the third gets the merge strategy and the
    default namespace. *)
Lemma apply_kubectl_patches_isolated_witness :
  (exists w' evs,
      _apply_kubectl_patches (Worlds.scripted Worlds.patches_rejected)
        Worlds.dump Worlds.show (VList (map VDict Worlds.three_patches))
        tt Worlds.manager
      = Run (Ret tt) w' Worlds.manager evs
      /\ commands evs
         = ["kubectl patch deployment flagsmith-api -n flagsmith --type strategic -p 'replicas'";
            "kubectl patch configmap settings -n flagsmith --type merge -p 'url'"])
  /\ entry_commands Worlds.dump Worlds.show "flagsmith"
       [(KStr "resource", VStr "service"); (KStr "patch", VStr "port")]
     = []
  /\ entry_commands Worlds.dump Worlds.show "flagsmith"
       [(KStr "resource", VStr "configmap"); (KStr "name", VStr "settings");
        (KStr "patch", VStr "url")]
     = ["kubectl patch configmap settings -n flagsmith --type merge -p 'url'"].
Proof.
  destruct (apply_kubectl_patches_isolated
              (Worlds.scripted Worlds.patches_rejected) Worlds.dump Worlds.show
              Worlds.three_patches tt Worlds.manager) as (H1 & H2 & H3).
  split; [| split].
  - destruct H1 as (w' & evs & Hrun & Hcmd & _).
    exists w', evs. split; [exact Hrun |]. rewrite Hcmd. reflexivity.
  - apply H2. right. left. reflexivity.
  - exact (H3 [(KStr "resource", VStr "configmap"); (KStr "name", VStr "settings");
               (KStr "patch", VStr "url")]
              "flagsmith" "url" eq_refl eq_refl eq_refl).
Defined.

(** The tuned scenario gets its own values written; the plain one gets
    the default values, no patch, and is provisioned. *)
Lemma values_file_source_witness :
  events (prepare_values_file (Worlds.scripted Worlds.calm) Worlds.dump
            Worlds.tuned_scenario tt Worlds.manager)
  = [EvCall (WriteText values_file "api: {replicaCount: 0}") (Ok tt)]
  /\ events (prepare_values_file (Worlds.scripted Worlds.calm) Worlds.dump
               Worlds.plain_scenario tt Worlds.manager)
     = [EvCall (Exec copy_original_values true) (Ok (mkCompleted 0 ""))]
  /\ exists w' evs,
       setup_challenge (Worlds.scripted Worlds.calm) Worlds.dump Worlds.dump
         Worlds.show Worlds.plain_scenario tt Worlds.manager
       = Run (Ret true) w'
             (set_current_challenge (Some Worlds.plain_scenario) Worlds.manager)
             evs
       /\ existsb (exec_succeeded copy_original_values) evs = true
       /\ existsb is_write evs = false
       /\ existsb is_patch_command evs = false
       /\ existsb (is_enter "_apply_kubectl_patches") evs = false
       /\ existsb (exec_succeeded (helm_upgrade Worlds.manager)) evs = true.
Proof.
  destruct (values_file_source (Worlds.scripted Worlds.calm) Worlds.dump
              Worlds.dump Worlds.show Worlds.tuned_scenario tt Worlds.manager)
    as (Htuned & _ & _).
  destruct (values_file_source (Worlds.scripted Worlds.calm) Worlds.dump
              Worlds.dump Worlds.show Worlds.plain_scenario tt Worlds.manager)
    as (_ & Hplain & Hrun).
  split; [exact (Htuned _ eq_refl eq_refl) |].
  split; [exact (Hplain eq_refl) |].
  exact (Hrun eq_refl eq_refl calm_answers (calm_required_succeed Worlds.manager)).
Defined.

(** The deployment fails: False comes back and [current_challenge]
    stays set. *)
Example setup_challenge_failed_keeps_current :
  result (setup_challenge (Worlds.scripted Worlds.helm_fails) Worlds.dump
            Worlds.dump Worlds.show Worlds.plain_scenario tt Worlds.manager)
  = Ret false
  /\ current_challenge
       (self (setup_challenge (Worlds.scripted Worlds.helm_fails) Worlds.dump
                Worlds.dump Worlds.show Worlds.plain_scenario tt Worlds.manager))
     = Some Worlds.plain_scenario.
Proof. split; reflexivity. Qed.

End Provisioner.

(** ** Session establisher and session controller *)

Module Session.

Import ChallengeManager InterviewSession Observe.
Local Open Scope string_scope.

Lemma count_idle (evs : list event) :
  forallb idle evs = true ->
  count is_poll evs = 0 /\ count is_launch evs = 0 /\ count (is_sleep 1) evs = 0.
Proof.
  induction evs as [| e evs IH]; [repeat split |].
  cbn [forallb]. intros H. apply andb_true_iff in H. destruct H as [He Hevs].
  destruct (IH Hevs) as (H1 & H2 & H3).
  unfold idle in He. rewrite !andb_true_iff, !negb_true_iff in He.
  destruct He as [[Hp Hl] Hs].
  rewrite !count_cons, Hp, Hl, Hs, H1, H2, H3. repeat split.
Qed.

Lemma reaper_event_idle (e : event) : reaper_event e = true -> idle e = true.
Proof.
  destruct e as [R o r | m | s]; [| | discriminate].
  - destruct o; try discriminate. reflexivity.
  - cbn [reaper_event]. intros H. apply orb_true_iff in H.
    destruct H as [H | H]; apply String.eqb_eq in H; subst m; reflexivity.
Qed.

Lemma same_session_refl (s : InterviewSession.t) : same_session s s.
Proof. repeat split. Qed.

Lemma same_session_trans (a b c : InterviewSession.t) :
  same_session a b -> same_session b c -> same_session a c.
Proof.
  unfold same_session. intros (H1 & H2 & H3) (H4 & H5 & H6).
  repeat split; congruence.
Qed.

Lemma same_session_manager (g : ChallengeManager.t) (s : InterviewSession.t) :
  same_session s (set_challenge_manager g s).
Proof. repeat split. Qed.

Section Proofs.
Context {World : Type}.
Variable sys : forall R, op R -> World -> reply R * World.
Variable yaml_dump : value -> reply string.
Variable json_dumps : value -> reply string.
Variable repr : value -> string.

(** A poll never raises, leaves the manager alone, and is one entry of
    [get_tmate_info] followed by file operations. *)
Lemma get_tmate_info_spec (w : World) (h : ChallengeManager.t) :
  exists info w' evs,
    get_tmate_info sys w h
    = Run (Ret info) w' h (EvEnter "get_tmate_info" :: evs)
    /\ forallb idle evs = true.
Proof.
  unfold get_tmate_info, except_Exception. sim.
  run_call sys; [| rewrite isinstance_Exception; sim;
                   do 3 eexists; split; reflexivity].
  destruct r; sim; [| do 3 eexists; split; reflexivity].
  run_call sys; [| rewrite isinstance_Exception; sim;
                   do 3 eexists; split; reflexivity].
  destruct (strip r =? "ready"); sim; [| do 3 eexists; split; reflexivity].
  run_call sys; [| rewrite isinstance_Exception; sim;
                   do 3 eexists; split; reflexivity].
  destruct r0; sim.
  - run_call sys; [| rewrite isinstance_Exception; sim;
                     do 3 eexists; split; reflexivity].
    run_call sys; [| rewrite isinstance_Exception; sim;
                     do 3 eexists; split; reflexivity].
    destruct r1; sim; [| do 3 eexists; split; reflexivity].
    run_call sys; [| rewrite isinstance_Exception; sim];
      do 3 eexists; split; reflexivity.
  - run_call sys; [| rewrite isinstance_Exception; sim;
                     do 3 eexists; split; reflexivity].
    destruct r0; sim; [| do 3 eexists; split; reflexivity].
    run_call sys; [| rewrite isinstance_Exception; sim];
      do 3 eexists; split; reflexivity.
Qed.

(** A launch is one entry of [start_candidate_environment] followed by
    the reaper and commands; it leaves the manager alone. *)
Lemma start_candidate_environment_spec (w : World) (h : ChallengeManager.t) :
  exists r w' evs,
    start_candidate_environment sys w h
    = Run r w' h (EvEnter "start_candidate_environment" :: evs)
    /\ r <> Diverge
    /\ forallb idle evs = true.
Proof.
  unfold start_candidate_environment, _run_command. sim.
  destruct (Reaper._cleanup_spec sys w h) as (r0 & w0 & ev0 & Hrun0 & Hev0 & Hc0).
  rewrite Hrun0.
  assert (Hr0 : r0 = Ret tt \/ exists e, r0 = Exn e).
  { destruct (fst (sys CompletedProcess (Exec docker_compose_down true) w));
      destruct Hc0 as [-> _]; eauto. }
  clear Hc0.
  apply (forallb_weaken _ _ _ reaper_event_idle) in Hev0.
  destruct Hr0 as [-> | [e ->]]; sim;
    [| do 3 eexists; (split; [reflexivity |]); split; [discriminate | exact Hev0]].
  run_call sys;
    [| do 3 eexists; (split; [reflexivity |]); (split; [discriminate |]);
       rewrite forallb_app, Hev0; reflexivity].
  run_call sys;
    [| do 3 eexists; (split; [reflexivity |]); (split; [discriminate |]);
       rewrite forallb_app, Hev0; reflexivity].
  run_call sys;
    [destruct (returncode r1 =? 0)%Z; sim |];
    do 3 eexists; (split; [reflexivity |]); (split; [discriminate |]);
    rewrite forallb_app, Hev0; reflexivity.
Qed.

Lemma _check_session_failure_spec (w : World) (s : InterviewSession.t) :
  exists r w' evs,
    _check_session_failure sys w s = Run r w' s evs
    /\ r <> Diverge
    /\ forallb idle evs = true.
Proof.
  unfold _check_session_failure. sim.
  run_call sys;
    [| do 3 eexists; (split; [reflexivity |]); split; [discriminate | reflexivity]].
  destruct r; sim;
    [| do 3 eexists; (split; [reflexivity |]); split; [discriminate | reflexivity]].
  run_call sys;
    [| do 3 eexists; (split; [reflexivity |]); split; [discriminate | reflexivity]].
  destruct ((strip r =? "failed") || (strip r =? "timeout")); sim;
    do 3 eexists; (split; [reflexivity |]); split; (discriminate || reflexivity).
Qed.

(** One turn of the inner loop: exactly one poll, no launch, and the
    pause of one second when the loop goes on. *)
Lemma poll_once_spec (attempt : Z) (w : World) (s : InterviewSession.t) :
  exists r w' s' evs,
    poll_once sys attempt w s = Run r w' s' evs
    /\ r <> Diverge
    /\ same_session s s'
    /\ count is_poll evs = 1
    /\ count is_launch evs = 0
    /\ count (is_sleep 1) evs <= 1
    /\ (r = Ret Next -> count (is_sleep 1) evs = 1).
Proof.
  unfold poll_once, on_manager. sim.
  destruct (get_tmate_info_spec w (challenge_manager s))
    as ([[is_ready ssh_url] web_url] & w1 & evs1 & Hrun1 & Hevs1).
  rewrite Hrun1. sim.
  destruct (count_idle _ Hevs1) as (Hp1 & Hl1 & Hs1).
  destruct (is_ready && nonempty ssh_url); sim.
  - do 4 eexists. split; [reflexivity |]. split; [discriminate |].
    split; [apply same_session_manager |].
    rewrite !count_cons, !count_app, Hp1, Hl1, Hs1. cbn.
    repeat split; auto; discriminate.
  - destruct (_check_session_failure_spec w1
                (set_challenge_manager (challenge_manager s) s))
      as (r2 & w2 & evs2 & Hrun2 & Hr2 & Hevs2).
    rewrite Hrun2.
    destruct (count_idle _ Hevs2) as (Hp2 & Hl2 & Hs2).
    destruct r2 as [[] | e |]; [| | | congruence]; sim.
    + do 4 eexists. split; [reflexivity |]. split; [discriminate |].
      split; [apply same_session_manager |].
      rewrite !count_cons, !count_app, Hp1, Hl1, Hs1, Hp2, Hl2, Hs2. cbn.
      repeat split; auto; discriminate.
    + destruct ((attempt mod 3 =? 0)%Z && (attempt >? 0)%Z); sim;
        (run_call sys;
         do 4 eexists; (split; [reflexivity |]); (split; [discriminate |]);
         (split; [apply same_session_manager |]);
         rewrite !count_cons, !count_app, ?count_cons,
           Hp1, Hl1, Hs1, Hp2, Hl2, Hs2; cbn;
         repeat split; auto; discriminate).
    + do 4 eexists. split; [reflexivity |]. split; [discriminate |].
      split; [apply same_session_manager |].
      rewrite !count_cons, !count_app, Hp1, Hl1, Hs1, Hp2, Hl2, Hs2. cbn.
      repeat split; auto; discriminate.
Qed.

(** The polls of one attempt. *)
Lemma poll_loop_spec (attempts : list Z) :
  forall (w : World) (s : InterviewSession.t),
  exists r w' s' evs,
    for_in attempts (poll_once sys) w s = Run r w' s' evs
    /\ r <> Diverge
    /\ same_session s s'
    /\ count is_poll evs <= List.length attempts
    /\ count is_launch evs = 0
    /\ count (is_sleep 1) evs <= count is_poll evs
    /\ (attempts <> [] -> 1 <= count is_poll evs).
Proof.
  induction attempts as [| a attempts IH]; intros w s.
  - do 4 eexists. split; [reflexivity |]. split; [discriminate |].
    split; [apply same_session_refl |]. cbn. repeat split; auto. congruence.
  - cbn [for_in]. unfold bind at 1.
    destruct (poll_once_spec a w s)
      as (r1 & w1 & s1 & evs1 & Hrun1 & Hr1 & Hs1 & Hp1 & Hl1 & Hz1 & Hn1).
    rewrite Hrun1.
    destruct r1 as [[| | b] | e |]; [| | | | congruence].
    + destruct (IH w1 s1)
        as (r2 & w2 & s2 & evs2 & Hrun2 & Hr2 & Hs2 & Hp2 & Hl2 & Hz2 & Hn2).
      rewrite Hrun2. do 4 eexists. split; [reflexivity |].
      split; [exact Hr2 |].
      split; [exact (same_session_trans _ _ _ Hs1 Hs2) |].
      rewrite !count_app, Hl1, Hl2. cbn [List.length].
      repeat split; try lia.
    + do 4 eexists. split; [reflexivity |]. split; [discriminate |].
      split; [exact Hs1 |].
      rewrite !count_app, Hl1. cbn. repeat split; lia.
    + do 4 eexists. split; [reflexivity |]. split; [discriminate |].
      split; [exact Hs1 |].
      rewrite !count_app, Hl1. cbn. repeat split; lia.
    + do 4 eexists. split; [reflexivity |]. split; [discriminate |].
      split; [exact Hs1 |].
      cbn [List.length]. repeat split; lia.
Qed.

(** One attempt: at most [polls_per_attempt] polls, and a launch only
    when it is a retry. *)
Lemma attempt_once_spec (retry : Z) (w : World) (s : InterviewSession.t) :
  exists r w' s' evs,
    attempt_once sys retry w s = Run r w' s' evs
    /\ r <> Diverge
    /\ same_session s s'
    /\ count is_poll evs <= polls_per_attempt
    /\ count is_launch evs <= (if (retry >? 0)%Z then 1 else 0)
    /\ count (is_sleep 1) evs <= count is_poll evs.
Proof.
  unfold attempt_once, on_manager.
  assert (Hlaunch :
    exists r w' s' evs,
      (if (retry >? 0)%Z
       then bind (print ("Retry " ++ str_int retry ++ "/"
                         ++ str_int (Z.of_nat max_retries)))
              (fun _ =>
                 bind (within challenge_manager set_challenge_manager
                         (start_candidate_environment sys))
                      (fun _ => call sys (Sleep 3)))
       else ret tt) w s = Run r w' s' evs
      /\ r <> Diverge
      /\ same_session s s'
      /\ count is_poll evs = 0
      /\ count is_launch evs <= (if (retry >? 0)%Z then 1 else 0)
      /\ count (is_sleep 1) evs = 0).
  { destruct (retry >? 0)%Z; sim.
    - destruct (start_candidate_environment_spec w (challenge_manager s))
        as (r1 & w1 & evs1 & Hrun1 & Hr1 & Hevs1).
      rewrite Hrun1.
      destruct (count_idle _ Hevs1) as (Hp1 & Hl1 & Hs1).
      destruct r1 as [[] | e |]; [| | congruence]; sim.
      + run_call sys; do 4 eexists; (split; [reflexivity |]);
          (split; [discriminate |]); (split; [apply same_session_manager |]);
          rewrite !count_cons, !count_app, ?count_cons, Hp1, Hl1, Hs1; cbn;
          repeat split; lia.
      + do 4 eexists. split; [reflexivity |]. split; [discriminate |].
        split; [apply same_session_manager |].
        rewrite !count_cons, Hp1, Hl1, Hs1. cbn. repeat split; lia.
    - do 4 eexists. split; [reflexivity |]. split; [discriminate |].
      split; [apply same_session_refl |]. cbn. repeat split; lia. }
  destruct Hlaunch
    as (r0 & w0 & s0 & evs0 & Hrun0 & Hr0 & Hs0 & Hp0 & Hl0 & Hz0).
  unfold bind at 1. rewrite Hrun0.
  destruct r0 as [[] | e |]; [| | congruence].
  - sim.
    destruct (poll_loop_spec (range polls_per_attempt) w0 s0)
      as (r1 & w1 & s1 & evs1 & Hrun1 & Hr1 & Hs1 & Hp1 & Hl1 & Hz1 & _).
    rewrite Hrun1.
    assert (Hlen : List.length (range polls_per_attempt) = polls_per_attempt)
      by reflexivity.
    rewrite Hlen in Hp1.
    destruct r1 as [[b |] | e |]; [| | | congruence]; sim.
    + do 4 eexists. split; [reflexivity |]. split; [discriminate |].
      split; [exact (same_session_trans _ _ _ Hs0 Hs1) |].
      rewrite !count_app, !count_cons, !count_app, Hp0, Hz0, Hl1. cbn.
      repeat split; lia.
    + destruct (retry <? Z.of_nat max_retries)%Z; sim;
        do 4 eexists; (split; [reflexivity |]); (split; [discriminate |]);
        (split; [exact (same_session_trans _ _ _ Hs0 Hs1) |]);
        rewrite !count_app, !count_cons, !count_app, ?count_cons,
          Hp0, Hz0, Hl1; cbn;
        repeat split; lia.
    + do 4 eexists. split; [reflexivity |]. split; [discriminate |].
      split; [exact (same_session_trans _ _ _ Hs0 Hs1) |].
      rewrite !count_app, !count_cons, Hp0, Hz0, Hl1. cbn.
      repeat split; lia.
  - do 4 eexists. split; [reflexivity |]. split; [discriminate |].
    split; [exact Hs0 |]. rewrite Hp0, Hz0. repeat split; lia.
Qed.

(** The attempts: [retries] is the list of the retry numbers still to
    run. *)
Lemma attempt_loop_spec (retries : list Z) :
  forall (w : World) (s : InterviewSession.t),
  exists r w' s' evs,
    for_in retries (attempt_once sys) w s = Run r w' s' evs
    /\ r <> Diverge
    /\ same_session s s'
    /\ count is_poll evs <= List.length retries * polls_per_attempt
    /\ count is_launch evs
       <= List.length (filter (fun retry => (retry >? 0)%Z) retries)
    /\ count (is_sleep 1) evs <= count is_poll evs.
Proof.
  induction retries as [| a retries IH]; intros w s.
  - do 4 eexists. split; [reflexivity |]. split; [discriminate |].
    split; [apply same_session_refl |]. cbn. repeat split; lia.
  - cbn [for_in filter]. unfold bind at 1.
    destruct (attempt_once_spec a w s)
      as (r1 & w1 & s1 & evs1 & Hrun1 & Hr1 & Hs1 & Hp1 & Hl1 & Hz1).
    rewrite Hrun1.
    assert (Hl1' : count is_launch evs1
                   + List.length (filter (fun retry => (retry >? 0)%Z) retries)
                   <= List.length
                        (if (a >? 0)%Z
                         then a :: filter (fun retry => (retry >? 0)%Z) retries
                         else filter (fun retry => (retry >? 0)%Z) retries))
      by (destruct (a >? 0)%Z; cbn [List.length]; lia).
    destruct r1 as [[| | b] | e |]; [| | | | congruence].
    + destruct (IH w1 s1)
        as (r2 & w2 & s2 & evs2 & Hrun2 & Hr2 & Hs2 & Hp2 & Hl2 & Hz2).
      rewrite Hrun2. do 4 eexists. split; [reflexivity |].
      split; [exact Hr2 |].
      split; [exact (same_session_trans _ _ _ Hs1 Hs2) |].
      rewrite !count_app. cbn [List.length].
      repeat split; lia.
    + do 4 eexists. split; [reflexivity |]. split; [discriminate |].
      split; [exact Hs1 |].
      rewrite !count_app. cbn [List.length count filter app].
      repeat split; lia.
    + do 4 eexists. split; [reflexivity |]. split; [discriminate |].
      split; [exact Hs1 |].
      rewrite !count_app. cbn [List.length count filter app].
      repeat split; lia.
    + do 4 eexists. split; [reflexivity |]. split; [discriminate |].
      split; [exact Hs1 |].
      cbn [List.length]. repeat split; lia.
Qed.

(** The establisher, every path: the loop over the three attempts. *)
Lemma _setup_candidate_connection_spec (w : World) (s : InterviewSession.t) :
  exists r w' s' evs,
    _setup_candidate_connection sys w s = Run r w' s' evs
    /\ r <> Diverge
    /\ same_session s s'
    /\ count is_poll evs <= (max_retries + 1) * polls_per_attempt
    /\ count is_launch evs <= max_retries
    /\ count (is_sleep 1) evs <= count is_poll evs.
Proof.
  unfold _setup_candidate_connection. unfold bind.
  destruct (attempt_loop_spec (range (max_retries + 1)) w s)
    as (r & w1 & s1 & evs & Hrun & Hr & Hs & Hp & Hl & Hz).
  rewrite Hrun.
  change (List.length (range (max_retries + 1))) with (max_retries + 1) in Hp.
  change (List.length (filter (fun retry => (retry >? 0)%Z)
                              (range (max_retries + 1))))
    with max_retries in Hl.
  destruct r as [[b |] | e |]; [| | | congruence]; sim;
    do 4 eexists; (split; [reflexivity |]); (split; [discriminate |]);
    rewrite ?app_nil_r; repeat split; auto; apply Hs.
Qed.

(** C6.  Whatever the descriptor files hold and whatever the commands
    do, the establisher comes to an end (by returning or by an
    exception), having polled the descriptor at most
    (max_retries + 1) * polls_per_attempt = 30 times and relaunched the
    sandbox at most max_retries = 2 times, which makes at most 3
    attempts; the pauses of one second between polls are never more
    than the polls. *)
Theorem _setup_candidate_connection_bounded
    (w : World) (s : InterviewSession.t) :
  exists r w' s' evs,
    _setup_candidate_connection sys w s = Run r w' s' evs
    /\ r <> Diverge
    /\ count is_poll evs <= (max_retries + 1) * polls_per_attempt
    /\ (max_retries + 1) * polls_per_attempt = 30
    /\ count is_launch evs <= max_retries
    /\ max_retries = 2
    /\ count (is_sleep 1) evs <= count is_poll evs.
Proof.
  destruct (_setup_candidate_connection_spec w s)
    as (r & w' & s' & evs & Hrun & Hr & _ & Hp & Hl & Hz).
  exists r, w', s', evs. repeat split; assumption.
Qed.

Lemma text_append_spec (v : value) (w : World) (s : InterviewSession.t) :
  exists r,
    text_append (World := World) v w s = Run r w s [] /\ r <> Diverge.
Proof.
  destruct v; eexists; (split; [reflexivity | discriminate]).
Qed.

(** The opening of a session.  When it gets to its end the session is
    already marked active, with the challenge and the start time
    recorded: this happens before provisioning and before the
    connection is set up. *)
Lemma begin_session_spec (c : Challenge) (w : World) (s : InterviewSession.t) :
  exists r w' s' evs,
    begin_session sys yaml_dump json_dumps repr c w s = Run r w' s' evs
    /\ r <> Diverge
    /\ (r = Ret tt ->
        session_active s' = true
        /\ InterviewSession.current_challenge s' = Some c
        /\ exists now, start_time s' = Some now).
Proof.
  unfold begin_session, on_manager, manual. sim.
  run_call sys;
    [| do 4 eexists; (split; [reflexivity |]); split; discriminate].
  match goal with
  | |- context [text_append ?v ?ww ?ss] =>
      destruct (text_append_spec v ww ss) as (r1 & Hrun1 & Hr1)
  end.
  rewrite Hrun1.
  destruct r1 as [[] | e |]; [| | congruence]; sim;
    [| do 4 eexists; (split; [reflexivity |]); split; discriminate].
  match goal with
  | |- context [text_append ?v ?ww ?ss] =>
      destruct (text_append_spec v ww ss) as (r2 & Hrun2 & Hr2)
  end.
  rewrite Hrun2.
  destruct r2 as [[] | e |]; [| | congruence]; sim;
    [| do 4 eexists; (split; [reflexivity |]); split; discriminate].
  destruct (getitem (estimates c) "Lv1") as [bronze | e]; sim;
    [| do 4 eexists; (split; [reflexivity |]); split; discriminate].
  destruct (getitem (estimates c) "Lv2") as [silver | e]; sim;
    [| do 4 eexists; (split; [reflexivity |]); split; discriminate].
  destruct (getitem (estimates c) "Lv3") as [gold | e]; sim;
    [| do 4 eexists; (split; [reflexivity |]); split; discriminate].
  assert (Hmanual :
    forall w1 (s1 : InterviewSession.t), exists r w' evs,
      match _manual c with
      | Some text => ret text
      | None =>
          call sys
            (ReadText (challenge_dir c ++ "/" ++ replace ".yaml" ".md" (filename c)))
      end w1 s1 = Run r w' s1 evs /\ r <> Diverge).
  { intros w1 s1. destruct (_manual c); sim.
    - do 3 eexists. split; [reflexivity | discriminate].
    - run_call sys; do 3 eexists; (split; [reflexivity | discriminate]). }
  revert Hmanual. sim. intros Hmanual.
  match goal with
  | |- context [match _manual c with _ => _ end ?ww ?ss] =>
      destruct (Hmanual ww ss) as (rm & wm & evm & Hrunm & Hrm)
  end.
  rewrite Hrunm. clear Hmanual Hrunm.
  destruct rm as [text | e |]; [| | congruence]; sim;
    [| do 4 eexists; (split; [reflexivity |]); split; discriminate].
  match goal with
  | |- context [setup_challenge ?a ?b ?d ?f ?cc ?ww ?hh] =>
      destruct (Provisioner.setup_challenge_cases a b d f cc ww hh)
        as (b1 & w1 & evs1 & Hrun1' & _)
  end.
  rewrite Hrun1'. sim.
  match goal with
  | |- context [start_candidate_environment sys ?ww ?hh] =>
      destruct (start_candidate_environment_spec ww hh)
        as (r3 & w3 & evs3 & Hrun3 & Hr3 & _)
  end.
  rewrite Hrun3.
  destruct r3 as [[] | e |]; [| | congruence];
    do 4 eexists; (split; [reflexivity |]); (split; [discriminate |]);
    intros H; try discriminate.
  cbn. eauto.
Qed.

(** C5, as the code has it.  The session is marked active at the start
    of [start_session], before provisioning and before the connection is
    set up.  When the connection cannot be set up, [start_session]
    returns False with the flag still set: after the establisher has
    returned False there is only the failure message, no operation and
    no call of the reaper, and the world and the session are those the
    establisher left. *)
Theorem start_session_failure_keeps_active
    (fuel : nat) (c : Challenge) (w : World) (s : InterviewSession.t) :
  result (start_session sys yaml_dump json_dumps repr fuel c w s) = Ret false ->
  exists w1 s1 evs1 w2 s2 evs2,
    begin_session sys yaml_dump json_dumps repr c w s = Run (Ret tt) w1 s1 evs1
    /\ session_active s1 = true
    /\ _setup_candidate_connection sys w1 s1 = Run (Ret false) w2 s2 evs2
    /\ start_session sys yaml_dump json_dumps repr fuel c w s
       = Run (Ret false) w2 s2 (evs1 ++ evs2 ++ [EvPrint connection_failed])
    /\ session_active s2 = true
    /\ InterviewSession.current_challenge s2 = Some c.
Proof.
  destruct (begin_session_spec c w s) as (r1 & w1 & s1 & evs1 & Hrun1 & Hr1 & Hs1).
  unfold start_session, _start_health_monitoring. sim. rewrite Hrun1.
  destruct r1 as [[] | e |]; [| discriminate | discriminate].
  destruct (Hs1 eq_refl) as (Hactive & Hcurrent & _).
  destruct (_setup_candidate_connection_spec w1 s1)
    as (r2 & w2 & s2 & evs2 & Hrun2 & Hr2 & Hsame & _).
  rewrite Hrun2.
  destruct r2 as [[|] | e |]; [| | discriminate | discriminate]; sim.
  - destruct (monitor sys fuel w2 s2) as [[[] | e |] w3 s3 evs3]; discriminate.
  - intros _.
    exists w1, s1, evs1, w2, s2, evs2.
    destruct Hsame as (_ & Hc & Ha).
    repeat split; congruence.
Qed.

End Proofs.

(** C5, as stated, fails: no tmate status file ever appears, the three
    attempts run out, [start_session] returns False, and the session is
    still marked active; the failure message is the last thing that
    happened. *)
Lemma start_session_failure_not_idle :
  result (start_session (Worlds.scripted Worlds.calm) Worlds.dump Worlds.dump
            Worlds.show 0 Worlds.plain_scenario tt
            (InterviewSession.init Worlds.manager))
  = Ret false
  /\ session_active
       (self (start_session (Worlds.scripted Worlds.calm) Worlds.dump
                Worlds.dump Worlds.show 0 Worlds.plain_scenario tt
                (InterviewSession.init Worlds.manager)))
     = true
  /\ last (events (start_session (Worlds.scripted Worlds.calm) Worlds.dump
                     Worlds.dump Worlds.show 0 Worlds.plain_scenario tt
                     (InterviewSession.init Worlds.manager)))
          (EvPrint "")
     = EvPrint connection_failed.
Proof. vm_compute. repeat split. Qed.

(** The same run, through the theorem. *)
Lemma start_session_failure_keeps_active_witness :
  exists w1 s1 evs1 w2 s2 evs2,
    begin_session (Worlds.scripted Worlds.calm) Worlds.dump Worlds.dump
      Worlds.show Worlds.plain_scenario tt
      (InterviewSession.init Worlds.manager)
    = Run (Ret tt) w1 s1 evs1
    /\ session_active s1 = true
    /\ _setup_candidate_connection (Worlds.scripted Worlds.calm) w1 s1
       = Run (Ret false) w2 s2 evs2
    /\ start_session (Worlds.scripted Worlds.calm) Worlds.dump Worlds.dump
         Worlds.show 0 Worlds.plain_scenario tt
         (InterviewSession.init Worlds.manager)
       = Run (Ret false) w2 s2 (evs1 ++ evs2 ++ [EvPrint connection_failed])
    /\ session_active s2 = true
    /\ InterviewSession.current_challenge s2 = Some Worlds.plain_scenario.
Proof.
  apply (start_session_failure_keeps_active (Worlds.scripted Worlds.calm)).
  vm_compute. reflexivity.
Defined.

(** The bounds are reached when the status file never shows up: 30
    polls, 2 relaunches. *)
Example _setup_candidate_connection_exhausted :
  result (_setup_candidate_connection (Worlds.scripted Worlds.calm) tt
            (InterviewSession.init Worlds.manager))
  = Ret false
  /\ count is_poll
       (events (_setup_candidate_connection (Worlds.scripted Worlds.calm) tt
                  (InterviewSession.init Worlds.manager)))
     = 30
  /\ count is_launch
       (events (_setup_candidate_connection (Worlds.scripted Worlds.calm) tt
                  (InterviewSession.init Worlds.manager)))
     = 2.
Proof. vm_compute. repeat split. Qed.

End Session.
(** * Further properties *)

(** ** The reaper, step by step *)

Module ReaperSteps.

Import ChallengeManager Observe.
Local Open Scope string_scope.

Lemma swept_blank (out : string) : strip out = "" -> swept out = [].
Proof. intros H. unfold swept. rewrite H. reflexivity. Qed.

Lemma leftovers_start : commands_start (Worlds.scripted Worlds.leftovers).
Proof.
  intros cmd capture w. cbn.
  repeat match goal with
         | |- context [if ?b then _ else _] => destruct b
         end; do 2 eexists; reflexivity.
Qed.

Section Proofs.
Context {World : Type}.
Variable sys : forall R, op R -> World -> reply R * World.

(** When every command can be started, the loop over the container ids
    removes each id that is not blank, in order. *)
Lemma sweep_loop_commands (ids : list string) :
  commands_start sys ->
  forall (w : World) (h : t),
  exists w' evs,
    for_in ids (remove_container sys) w h = Run (Ret None) w' h evs
    /\ commands evs
       = map docker_rm
           (filter (fun container_id => negb (container_id =? ""))
              (map strip ids)).
Proof.
  intros Hstart.
  induction ids as [| c ids IH]; intros w h.
  - exists w, []. split; reflexivity.
  - cbn [for_in map filter]. unfold remove_container at 1, _run_command.
    destruct (strip c =? ""); sim.
    + destruct (IH w h) as (w' & evs & Hrun & Hcmd).
      rewrite Hrun. exists w', evs. split; [reflexivity | exact Hcmd].
    + destruct (Hstart (docker_rm (strip c)) true w) as (cp & w1 & Hexec).
      rewrite Hexec. sim.
      destruct (IH w1 h) as (w' & evs & Hrun & Hcmd).
      rewrite Hrun. do 2 eexists. split; [reflexivity |].
      cbn [commands map]. rewrite Hcmd. reflexivity.
Qed.

(** X1.  [InterviewCLI._cleanup] never raises: it always returns, leaves
    the session and the manager as they were, and does nothing but run
    [docker ...] commands. *)
Theorem cli_cleanup_never_raises (w : World) (s : InterviewSession.t) :
  exists w' evs,
    InterviewCLI._cleanup sys w s = Run (Ret tt) w' s evs
    /\ forallb reaper_event evs = true.
Proof.
  unfold InterviewCLI._cleanup, InterviewSession.on_manager. sim.
  destruct (Reaper._force_cleanup_containers_spec sys w
              (InterviewSession.challenge_manager s))
    as (w' & evs & Hrun & Hevs).
  rewrite Hrun. exists w', evs. split; [| exact Hevs].
  destruct s; reflexivity.
Qed.

(** X2.  When [docker-compose down] can be started, [_cleanup] returns
    whatever the exit status of the command, the container sweep is entered,
    and the manager is as it was. *)
Theorem _cleanup_tolerates_exit_status (w w1 : World) (h : t)
    (cp : CompletedProcess) :
  sys _ (Exec docker_compose_down true) w = (Ok cp, w1) ->
  exists w' evs,
    _cleanup sys w h = Run (Ret tt) w' h evs
    /\ existsb (is_enter "_force_cleanup_containers") evs = true
    /\ existsb (is_exec docker_ps) evs = true.
Proof.
  intros Hdown.
  unfold _cleanup, _force_cleanup_containers, except_Exception, _run_command.
  sim. rewrite Hdown. sim.
  run_call sys.
  - destruct ((returncode r =? 0)%Z && negb (strip (stdout r) =? "")); sim.
    + destruct (Reaper.sweep_loop_spec sys (split newline (strip (stdout r))) w0 h)
        as (r1 & w' & evs & Hrun & Hr & Hevs).
      rewrite Hrun.
      destruct r1 as [a | e |]; [| | congruence]; sim;
        rewrite ?isinstance_Exception; sim;
        do 2 eexists; repeat split.
    + do 2 eexists. repeat split.
  - rewrite isinstance_Exception. sim. do 2 eexists. repeat split.
Qed.

(** X3.  What the container sweep removes.  When every command can be
    started, the sweep lists the candidate containers and, if the listing
    exited with status 0, removes one container per line of its output that
    is not blank, in the order of the lines; if the listing exited with an
    error status nothing is removed. *)
Theorem _force_cleanup_containers_commands (w : World) (h : t) :
  commands_start sys ->
  exists cp w1 w' evs,
    sys _ (Exec docker_ps true) w = (Ok cp, w1)
    /\ _force_cleanup_containers sys w h = Run (Ret tt) w' h evs
    /\ commands evs
       = docker_ps :: (if (returncode cp =? 0)%Z then swept (stdout cp) else []).
Proof.
  intros Hstart.
  destruct (Hstart docker_ps true w) as (cp & w1 & Hps).
  exists cp, w1.
  unfold _force_cleanup_containers, except_Exception, _run_command. sim.
  rewrite Hps. sim.
  destruct (returncode cp =? 0)%Z; cbn [andb].
  - destruct (strip (stdout cp) =? "") eqn:Hblank; cbn [negb]; sim.
    + apply String.eqb_eq in Hblank. rewrite (swept_blank _ Hblank).
      do 2 eexists. split; [reflexivity |]. split; reflexivity.
    + destruct (sweep_loop_commands (split newline (strip (stdout cp))) Hstart w1 h)
        as (w' & evs & Hrun & Hcmd).
      rewrite Hrun. sim. do 2 eexists. split; [reflexivity |].
      split; [reflexivity |]. cbn [commands app]. rewrite commands_app, Hcmd.
      cbn [commands]. rewrite app_nil_r. reflexivity.
  - sim. do 2 eexists. split; [reflexivity |]. split; reflexivity.
Qed.

End Proofs.

(** [docker-compose down] exits with status 1: [_cleanup] returns and
    sweeps. *)
Lemma _cleanup_tolerates_exit_status_witness :
  exists w' evs,
    _cleanup (Worlds.scripted Worlds.leftovers) tt Worlds.manager
    = Run (Ret tt) w' Worlds.manager evs
    /\ existsb (is_enter "_force_cleanup_containers") evs = true
    /\ existsb (is_exec docker_ps) evs = true.
Proof.
  exact (_cleanup_tolerates_exit_status (Worlds.scripted Worlds.leftovers)
           tt tt Worlds.manager (mkCompleted 1 "") eq_refl).
Defined.

(** Two containers are listed, two are removed. *)
Lemma _force_cleanup_containers_commands_witness :
  exists cp w1 w' evs,
    Worlds.scripted Worlds.leftovers _ (Exec docker_ps true) tt = (Ok cp, w1)
    /\ _force_cleanup_containers (Worlds.scripted Worlds.leftovers) tt
         Worlds.manager
       = Run (Ret tt) w' Worlds.manager evs
    /\ commands evs
       = docker_ps :: (if (returncode cp =? 0)%Z then swept (stdout cp) else []).
Proof.
  exact (_force_cleanup_containers_commands (Worlds.scripted Worlds.leftovers)
           tt Worlds.manager leftovers_start).
Defined.

End ReaperSteps.

(** ** The health probe, failure by failure *)

Module HealthFailures.

Import ChallengeManager Observe.
Local Open Scope string_scope.

Section Proofs.
Context {World : Type}.
Variable sys : forall R, op R -> World -> reply R * World.

(** The [except] clauses never report a healthy service. *)
Lemma probe_failure_unhealthy (e : exn) (w : World) (h : t) :
  exists message,
    probe_failure (World := World) e w h
    = Run (Ret (false, message, None)) w h [].
Proof. destruct e; eexists; reflexivity. Qed.

(** The [finally] clause returns and makes no HTTP request. *)
Lemma release_port_forward_silent (p : pid) (w : World) (h : t) :
  exists w' evs,
    release_port_forward sys p w h = Run (Ret tt) w' h evs
    /\ existsb is_http evs = false
    /\ existsb (is_terminate p) evs = true.
Proof.
  unfold release_port_forward, except_Exception. sim.
  run_call sys; [run_call sys |];
    rewrite ?isinstance_Exception; sim; try run_call sys;
    rewrite ?isinstance_Exception; sim;
    repeat match goal with u : unit |- _ => destruct u end;
    do 2 eexists; (split; [reflexivity |]);
    cbn; rewrite ?Nat.eqb_refl; auto.
Qed.

Lemma classify_status_healthy (code : Z) (message : string) (c : option Z) :
  classify_status code = (true, message, c) ->
  message = "Healthy" /\ c = Some 200%Z /\ code = 200%Z.
Proof.
  unfold classify_status.
  destruct (code =? 200)%Z eqn:E200;
    [| destruct (code =? 404)%Z; [| destruct (code =? 500)%Z;
       [| destruct (code =? 503)%Z]]];
    intros H; try discriminate.
  apply Z.eqb_eq in E200. subst code.
  injection H as <- <-. auto.
Qed.

(** X4.  The probe reports a healthy service only when the health endpoint
    answered with status 200: on every other path (service missing,
    port-forward gone, another status, any exception) the first component of
    the answer is False. *)
Theorem check_health_healthy_only_200 (w : World) (h : t)
    (message : string) (code : option Z) :
  result (check_health sys w h) = Ret (true, message, code) ->
  message = "Healthy" /\ code = Some 200%Z
  /\ existsb (http_status 200) (events (check_health sys w h)) = true.
Proof.
  unfold check_health, _run_command, probe.
  generalize (get_service h) (port_forward_cmd h). intros svc fwd. sim.
  run_call sys.
  - destruct (returncode r =? 0)%Z; sim; [| discriminate].
    run_call sys.
    + run_call sys.
      * run_call sys.
        -- destruct r2 as [exited |]; sim.
           ++ destruct (release_port_forward_silent r0 w3 h)
                as (w' & evs & Hrun & _ & _).
              rewrite Hrun. sim. discriminate.
           ++ run_call sys.
              ** destruct (release_port_forward_silent r0 w4 h)
                   as (w' & evs & Hrun & _ & _).
                 rewrite Hrun. sim. intros H. injection H as H.
                 destruct (classify_status_healthy _ _ _ H) as (Hm & Hc & ->).
                 repeat split; auto.
              ** destruct (release_port_forward_silent r0 w4 h)
                   as (w' & evs & Hrun & _ & _).
                 rewrite Hrun. sim.
                 destruct (probe_failure_unhealthy e w' h) as [m Hm].
                 rewrite Hm. sim. discriminate.
        -- destruct (release_port_forward_silent r0 w3 h)
             as (w' & evs & Hrun & _ & _).
           rewrite Hrun. sim.
           destruct (probe_failure_unhealthy e w' h) as [m Hm].
           rewrite Hm. sim. discriminate.
      * destruct (release_port_forward_silent r0 w2 h)
          as (w' & evs & Hrun & _ & _).
        rewrite Hrun. sim.
        destruct (probe_failure_unhealthy e w' h) as [m Hm].
        rewrite Hm. sim. discriminate.
    + destruct (probe_failure_unhealthy e w1 h) as [m Hm].
      rewrite Hm. sim. discriminate.
  - destruct (probe_failure_unhealthy e w0 h) as [m Hm].
    rewrite Hm. sim. discriminate.
Qed.

(** X5.  When the HTTP request raises, the answer is unhealthy, carries no
    status code, and its message follows the order of the [except] clauses:
    a connect timeout, although it is both a connection error and a timeout,
    is reported as "Connection timeout"; a connection error as "Cannot
    connect to service"; any other timeout as "Request timeout"; any other
    exception of the requests library as "Network error"; everything else as
    "Health check failed".  The port-forward is terminated all the same. *)
Theorem check_health_request_failure (w : World) (h : t)
    cp w1 p w2 w3 w4 e w5 :
  sys _ (Exec (get_service h) true) w = (Ok cp, w1) ->
  returncode cp = 0%Z ->
  sys _ (Popen (port_forward_cmd h)) w1 = (Ok p, w2) ->
  sys _ (Sleep 2) w2 = (Ok tt, w3) ->
  sys _ (ProcPoll p) w3 = (Ok None, w4) ->
  sys _ (HttpGet health_url 5) w4 = (Err e, w5) ->
  exists message,
    result (check_health sys w h) = Ret (false, message, None)
    /\ existsb (is_terminate p) (events (check_health sys w h)) = true
    /\ (e = ConnectTimeout -> message = "Connection timeout")
    /\ (e = RequestsConnectionError -> message = "Cannot connect to service")
    /\ (e = RequestsTimeout \/ e = ReadTimeout -> message = "Request timeout")
    /\ (e = RequestException -> message = "Network error")
    /\ (isinstance e RequestException = false ->
        message = "Health check failed").
Proof.
  intros Hsvc Hrc Hpopen Hsleep Hpoll Hget.
  unfold check_health, _run_command, probe. sim. rewrite Hsvc. sim.
  apply Z.eqb_eq in Hrc. rewrite Hrc. sim.
  rewrite Hpopen. sim. rewrite Hsleep. sim. rewrite Hpoll. sim.
  rewrite Hget. sim.
  destruct (release_port_forward_silent p w5 h) as (w' & evs & Hrun & _ & Ht).
  rewrite Hrun. sim.
  destruct e;
    match goal with
    | |- context [probe_failure ?e ?w ?h] =>
        let v := eval cbv in (probe_failure (World := World) e w h) in
        change (probe_failure e w h) with v
    end; sim;
    (eexists; split; [reflexivity |]; split;
     [cbn [existsb is_terminate events]; rewrite !existsb_app, Ht;
      cbn; rewrite ?orb_true_r; reflexivity |]);
    repeat split; intros H; try reflexivity; try discriminate;
    try (destruct H; discriminate).
Qed.

(** X6.  When the port-forward process has already exited after the pause
    of two seconds, the answer is (False, "Port-forward failed", None), no
    HTTP request is made, and [terminate()] is still called on the process. *)
Theorem check_health_port_forward_failed (w : World) (h : t)
    cp w1 p w2 w3 exit_status w4 :
  sys _ (Exec (get_service h) true) w = (Ok cp, w1) ->
  returncode cp = 0%Z ->
  sys _ (Popen (port_forward_cmd h)) w1 = (Ok p, w2) ->
  sys _ (Sleep 2) w2 = (Ok tt, w3) ->
  sys _ (ProcPoll p) w3 = (Ok (Some exit_status), w4) ->
  result (check_health sys w h) = Ret (false, "Port-forward failed", None)
  /\ existsb is_http (events (check_health sys w h)) = false
  /\ existsb (is_terminate p) (events (check_health sys w h)) = true.
Proof.
  intros Hsvc Hrc Hpopen Hsleep Hpoll.
  unfold check_health, _run_command, probe. sim. rewrite Hsvc. sim.
  apply Z.eqb_eq in Hrc. rewrite Hrc. sim.
  rewrite Hpopen. sim. rewrite Hsleep. sim. rewrite Hpoll. sim.
  destruct (release_port_forward_silent p w4 h) as (w' & evs & Hrun & Hq & Ht).
  rewrite Hrun. sim.
  split; [reflexivity |].
  cbn [existsb is_http is_terminate]. rewrite Hq, Ht.
  cbn. rewrite ?orb_true_r. split; reflexivity.
Qed.

End Proofs.

(** The calm environment answers 200. *)
Lemma check_health_healthy_only_200_witness :
  result (check_health (Worlds.scripted Worlds.calm) tt Worlds.manager)
  = Ret (true, "Healthy", Some 200%Z)
  /\ existsb (http_status 200)
       (events (check_health (Worlds.scripted Worlds.calm) tt Worlds.manager))
     = true.
Proof.
  split; [reflexivity |].
  exact (proj2 (proj2 (check_health_healthy_only_200
                         (Worlds.scripted Worlds.calm) tt Worlds.manager
                         "Healthy" (Some 200%Z) eq_refl))).
Defined.

(** A connect timeout of the request. *)
Lemma check_health_request_failure_witness :
  result (check_health
            (Worlds.scripted (Worlds.with_http (Err ConnectTimeout) Worlds.calm))
            tt Worlds.manager)
  = Ret (false, "Connection timeout", None).
Proof.
  destruct (check_health_request_failure
              (Worlds.scripted (Worlds.with_http (Err ConnectTimeout) Worlds.calm))
              tt Worlds.manager (mkCompleted 0 "") tt 4242 tt tt tt
              ConnectTimeout tt
              eq_refl eq_refl eq_refl eq_refl eq_refl eq_refl)
    as (message & Hres & _ & Hm & _).
  rewrite Hres, (Hm eq_refl). reflexivity.
Defined.

(** The port-forward exited with status 1 before the request. *)
Lemma check_health_port_forward_failed_witness :
  result (check_health (Worlds.scripted Worlds.tunnel_down) tt Worlds.manager)
  = Ret (false, "Port-forward failed", None).
Proof.
  exact (proj1 (check_health_port_forward_failed
                  (Worlds.scripted Worlds.tunnel_down) tt Worlds.manager
                  (mkCompleted 0 "") tt 4242 tt tt 1%Z tt
                  eq_refl eq_refl eq_refl eq_refl eq_refl)).
Defined.

End HealthFailures.

(** ** The catalog, entry by entry *)

Module CatalogEntries.

Import ChallengeManager Observe.
Local Open Scope string_scope.

Lemma leb_trans (a b c : string) :
  (a <=? b) = true -> (b <=? c) = true -> (a <=? c) = true.
Proof.
  unfold String.leb. revert b c.
  induction a as [| x a IH]; intros [| y b] [| z c]; cbn;
    try congruence.
  unfold Ascii.compare.
  destruct (N.compare_spec (N_of_ascii x) (N_of_ascii y)) as [Exy | Lxy | Gxy];
    destruct (N.compare_spec (N_of_ascii y) (N_of_ascii z)) as [Eyz | Lyz | Gyz];
    destruct (N.compare_spec (N_of_ascii x) (N_of_ascii z)) as [Exz | Lxz | Gxz];
    try congruence; try lia.
  apply IH.
Qed.

Lemma ascending_insert_sorted (x : string) (l : list string) :
  ascending l = true -> ascending (insert_sorted x l) = true.
Proof.
  induction l as [| y l IH]; cbn [insert_sorted ascending forallb];
    [reflexivity |].
  intros H. apply andb_true_iff in H. destruct H as [Hy Hl].
  destruct (x <=? y) eqn:Hxy; cbn [ascending forallb].
  - rewrite Hxy, Hy, Hl, !andb_true_r. cbn.
    apply forallb_forall. intros z Hz.
    rewrite forallb_forall in Hy. eauto using leb_trans.
  - rewrite (IH Hl), andb_true_r.
    apply forallb_forall. intros z Hz.
    apply Catalog.In_insert_sorted in Hz. destruct Hz as [-> | Hz].
    + destruct (String.leb_total x y) as [H | H]; congruence.
    + rewrite forallb_forall in Hy. auto.
Qed.

Lemma ascending_sorted (l : list string) : ascending (sorted l) = true.
Proof.
  induction l as [| x l IH]; [reflexivity |].
  cbn [sorted fold_right]. apply ascending_insert_sorted. exact IH.
Qed.

Lemma ascending_drop (a : list string) (x : string) (b : list string) :
  ascending (a ++ x :: b) = true -> ascending (a ++ b) = true.
Proof.
  induction a as [| y a IH]; cbn [app ascending].
  - intros H. apply andb_true_iff in H. tauto.
  - intros H. apply andb_true_iff in H. destruct H as [Hy Ha].
    rewrite (IH Ha), andb_true_r.
    rewrite forallb_app in *. cbn [forallb] in Hy.
    rewrite !andb_true_iff in Hy. rewrite andb_true_iff. tauto.
Qed.

Section Proofs.
Context {World : Type}.
Variable sys : forall R, op R -> World -> reply R * World.
Variable yaml_safe_load : string -> reply value.

(** A challenge that [_parse_challenge_file] builds carries the name of
    its file and the values that the text of the file parsed to; the
    manager is left as it was. *)
Lemma _parse_challenge_file_built (dir file : string) (w : World) (h : t) :
  exists r w' evs,
    _parse_challenge_file sys yaml_safe_load dir file w h = Run r w' h evs
    /\ r <> Diverge
    /\ forall c, r = Ret (Some c) ->
         filename c = file
         /\ exists text d w1,
              sys _ (ReadText (dir ++ "/" ++ file)) w = (Ok text, w1)
              /\ yaml_safe_load text = Ok (VDict d)
              /\ taken_from dir d c.
Proof.
  unfold _parse_challenge_file. sim.
  destruct (sys string (ReadText (dir ++ "/" ++ file)) w) as [[text | e] w1];
    sim.
  - destruct (yaml_safe_load text) as [data | e] eqn:Hload; sim.
    + destruct data as [| b | z | s | l | d]; sim;
        try (do 3 eexists; split; [reflexivity |]; split; [discriminate |];
             intros c Hc; discriminate).
      rewrite Catalog.complete_required.
      destruct (complete d) eqn:Hc; sim;
        [| do 3 eexists; split; [reflexivity |]; split; [discriminate |];
           intros c Hc'; discriminate].
      unfold getitem.
      destruct (Catalog.complete_getitem d "name" Hc) as [v1 E1]; [cbn; tauto |].
      destruct (Catalog.complete_getitem d "description" Hc) as [v2 E2];
        [cbn; tauto |].
      destruct (Catalog.complete_getitem d "helm_values" Hc) as [v3 E3];
        [cbn; tauto |].
      destruct (Catalog.complete_getitem d "kubectl_patches" Hc) as [v4 E4];
        [cbn; tauto |].
      destruct (Catalog.complete_getitem d "estimates" Hc) as [v5 E5];
        [cbn; tauto |].
      unfold getitem in E1, E2, E3, E4, E5.
      destruct (lookup d "name") as [x1 |] eqn:L1; [| discriminate].
      destruct (lookup d "description") as [x2 |] eqn:L2; [| discriminate].
      destruct (lookup d "helm_values") as [x3 |] eqn:L3; [| discriminate].
      destruct (lookup d "kubectl_patches") as [x4 |] eqn:L4; [| discriminate].
      destruct (lookup d "estimates") as [x5 |] eqn:L5; [| discriminate].
      sim.
      do 3 eexists. split; [reflexivity |]. split; [discriminate |].
      intros c Hc'. injection Hc' as <-. split; [reflexivity |].
      exists text, d, w1. repeat split; auto.
    + destruct (isinstance e YAMLError || isinstance e OSError); sim;
        do 3 eexists; (split; [reflexivity |]); (split; [discriminate |]);
        intros c Hc; discriminate.
  - destruct (isinstance e YAMLError || isinstance e OSError); sim;
      do 3 eexists; (split; [reflexivity |]); (split; [discriminate |]);
      intros c Hc; discriminate.
Qed.

(** The loop of [discover_challenges]: the catalog grows by challenges
    of some of the files, in the order of the files; nothing else of the
    manager changes. *)
Lemma discover_loop_grows (dir : string) (files : list string) :
  forall (w : World) (h : t),
  exists w' evs added,
    for_in files (discover_one sys yaml_safe_load dir) w h
    = Run (Ret None) w' (set_challenges (challenges h ++ added)%list h) evs
    /\ Forall (fun c => In (filename c) files /\ challenge_dir c = dir
                        /\ _manual c = None) added
    /\ (ascending (map filename (challenges h) ++ files) = true ->
        ascending (map filename (challenges h ++ added)%list) = true).
Proof.
  induction files as [| f files IH]; intros w h.
  - exists w, [], []. cbn [for_in]. rewrite !app_nil_r.
    destruct h; cbn. repeat split; auto.
  - cbn [for_in]. unfold discover_one at 1, except_Exception. sim.
    destruct (_parse_challenge_file_built dir f w h)
      as (r & w1 & evs1 & Hrun & Hr & Hc).
    rewrite Hrun.
    destruct r as [[c |] | e |]; sim; [| | | congruence].
    + destruct (Hc c eq_refl) as (Hname & text & d & w0 & _ & _ & Hfrom).
      destruct (IH w1 (set_challenges (challenges h ++ [c])%list h))
        as (w2 & evs2 & added & Hloop & Hall & Hasc).
      rewrite Hloop. exists w2. eexists. exists (c :: added).
      cbn [challenges set_challenges] in *.
      rewrite <- app_assoc in *. cbn [app] in *.
      split; [destruct h; reflexivity |]. split.
      * constructor.
        -- rewrite Hname. cbn. repeat split; auto; apply Hfrom.
        -- eapply Forall_impl; [| exact Hall]. cbn. intuition.
      * intros H. apply Hasc.
        rewrite map_app, <- app_assoc. cbn. rewrite Hname. exact H.
    + destruct (IH w1 h) as (w2 & evs2 & added & Hloop & Hall & Hasc).
      rewrite Hloop. exists w2. eexists. exists added.
      split; [reflexivity |]. split.
      * eapply Forall_impl; [| exact Hall]. cbn. intuition.
      * intros H. apply Hasc. eapply ascending_drop. exact H.
    + rewrite isinstance_Exception. sim.
      destruct (IH w1 h) as (w2 & evs2 & added & Hloop & Hall & Hasc).
      rewrite Hloop. exists w2. eexists. exists added.
      split; [reflexivity |]. split.
      * eapply Forall_impl; [| exact Hall]. cbn. intuition.
      * intros H. apply Hasc. eapply ascending_drop. exact H.
Qed.

(** X7.  Whatever the environment does and whatever the catalog held
    before, after [discover_challenges] the catalog is in order of file name
    (each name is [<=] every later one), whatever order the directory was
    listed in; every challenge in it lies in the challenges directory and
    has no manual loaded; and nothing else of the manager has changed. *)
Theorem discover_challenges_ordered (w : World) (h : t) :
  exists r w' evs catalog,
    discover_challenges sys yaml_safe_load w h
    = Run r w' (set_challenges catalog h) evs
    /\ r <> Diverge
    /\ ascending (map filename catalog) = true
    /\ Forall (fun c => challenge_dir c = challenges_dir h /\ _manual c = None)
         catalog.
Proof.
  unfold discover_challenges. sim.
  run_call sys.
  - destruct r; sim.
    + run_call sys.
      * destruct (discover_loop_grows (challenges_dir h) (sorted r) w1
                    (set_challenges [] h))
          as (w2 & evs & added & Hloop & Hall & Hasc).
        rewrite Hloop. sim.
        cbn [challenges set_challenges app map] in *.
        exists (Ret tt), w2. eexists. exists added.
        split; [destruct h; reflexivity |].
        split; [discriminate |].
        split; [apply Hasc, ascending_sorted |].
        eapply Forall_impl; [| exact Hall]. cbn. intuition.
      * exists (Exn e), w1. eexists. exists [].
        repeat split; auto. discriminate.
    + exists (Ret tt), w0. eexists. exists [].
      repeat split; auto. discriminate.
  - exists (Exn e), w0. eexists. exists [].
    repeat split; auto. discriminate.
Qed.

(** X8.  A challenge that [_parse_challenge_file] returns takes its five
    fields from the mapping in the file as they are, of whatever type they
    are; it carries the name of the file and its directory, and no manual. *)
Theorem _parse_challenge_file_fields (dir file text : string) (d : dict)
    (w w1 : World) (h : t) :
  sys _ (ReadText (dir ++ "/" ++ file)) w = (Ok text, w1) ->
  yaml_safe_load text = Ok (VDict d) ->
  complete d = true ->
  exists c,
    _parse_challenge_file sys yaml_safe_load dir file w h
    = Run (Ret (Some c)) w1 h
        [EvEnter "_parse_challenge_file";
         EvCall (ReadText (dir ++ "/" ++ file)) (Ok text)]
    /\ filename c = file
    /\ taken_from dir d c.
Proof.
  intros Hread Hload Hc.
  destruct (_parse_challenge_file_built dir file w h)
    as (r & w' & evs & Hrun & _ & Hbuilt).
  revert Hrun.
  unfold _parse_challenge_file. sim. rewrite Hread. sim. rewrite Hload. sim.
  rewrite Catalog.complete_required, Hc. sim.
  destruct (Catalog.complete_getitem d "name" Hc) as [v1 E1]; [cbn; tauto |].
  destruct (Catalog.complete_getitem d "description" Hc) as [v2 E2];
    [cbn; tauto |].
  destruct (Catalog.complete_getitem d "helm_values" Hc) as [v3 E3];
    [cbn; tauto |].
  destruct (Catalog.complete_getitem d "kubectl_patches" Hc) as [v4 E4];
    [cbn; tauto |].
  destruct (Catalog.complete_getitem d "estimates" Hc) as [v5 E5];
    [cbn; tauto |].
  rewrite E1; sim. rewrite E2; sim. rewrite E3; sim. rewrite E4; sim.
  rewrite E5; sim.
  intros Hrun. injection Hrun as <- <- <-.
  eexists. split; [reflexivity |].
  destruct (Hbuilt _ eq_refl) as (Hname & text' & d' & w1' & Hread' & Hload' & Hfrom).
  rewrite Hread in Hread'. injection Hread' as <- <-.
  rewrite Hload in Hload'. injection Hload' as <-.
  split; [exact Hname | exact Hfrom].
Qed.

End Proofs.

(** The complete file of the three. *)
Lemma _parse_challenge_file_fields_witness :
  exists c,
    result (_parse_challenge_file (Worlds.scripted Worlds.catalog_of_three)
              Worlds.toy_yaml "/app/challenges" "a.yaml" tt Worlds.manager)
    = Ret (Some c)
    /\ name c = VStr "Broken probe"
    /\ estimates c = Worlds.estimates_abc.
Proof.
  destruct (_parse_challenge_file_fields
              (Worlds.scripted Worlds.catalog_of_three) Worlds.toy_yaml
              "/app/challenges" "a.yaml" "complete"
              [(KStr "name", VStr "Broken probe");
               (KStr "description", VStr "The liveness probe fails");
               (KStr "helm_values", VDict []);
               (KStr "kubectl_patches", VList []);
               (KStr "estimates", Worlds.estimates_abc)]
              tt tt Worlds.manager eq_refl eq_refl eq_refl)
    as (c & Hrun & _ & Hfrom).
  exists c. rewrite Hrun. split; [reflexivity |].
  destruct Hfrom as (H1 & _ & _ & _ & H5 & _).
  cbn in H1, H5. injection H1 as <-. injection H5 as <-.
  split; reflexivity.
Defined.

End CatalogEntries.

(** ** Provisioning, step by step *)

Module ProvisionSteps.

Import ChallengeManager Observe.
Local Open Scope string_scope.

Lemma quiet_unpatched (e : event) : quiet e = true -> unpatched e = true.
Proof.
  intros H. unfold unpatched.
  rewrite (Provisioner.quiet_no_patch e H), (Provisioner.quiet_no_enter e H).
  reflexivity.
Qed.

Lemma reaper_event_unpatched (e : event) :
  reaper_event e = true -> unpatched e = true.
Proof. intros H. apply quiet_unpatched, Provisioner.reaper_event_quiet, H. Qed.

Lemma patches_after_deploy_cons (h : t) (e : event) (evs : list event) :
  unpatched e = true -> patches_after_deploy h evs = true ->
  patches_after_deploy h (e :: evs) = true.
Proof.
  intros He Hevs. cbn [patches_after_deploy]. rewrite He, Hevs.
  destruct (exec_succeeded (helm_upgrade h) e); reflexivity.
Qed.

Lemma patches_after_deploy_app (h : t) (a b : list event) :
  forallb unpatched a = true -> patches_after_deploy h b = true ->
  patches_after_deploy h (a ++ b) = true.
Proof.
  induction a as [| e a IH]; cbn [app forallb]; [auto |].
  intros H Hb. apply andb_true_iff in H. destruct H as [He Ha].
  apply patches_after_deploy_cons; auto.
Qed.

Lemma patches_after_deploy_all (h : t) (a : list event) :
  forallb unpatched a = true -> patches_after_deploy h a = true.
Proof.
  intros H. rewrite <- (app_nil_r a).
  apply patches_after_deploy_app; [exact H | reflexivity].
Qed.

Lemma patches_after_deploy_current (c : option Challenge) (h : t)
    (evs : list event) :
  patches_after_deploy (set_current_challenge c h) evs
  = patches_after_deploy h evs.
Proof.
  induction evs as [| e evs IH]; [reflexivity |].
  cbn [patches_after_deploy]. rewrite IH. reflexivity.
Qed.

Section Proofs.
Context {World : Type}.
Variable sys : forall R, op R -> World -> reply R * World.
Variable yaml_dump : value -> reply string.
Variable json_dumps : value -> reply string.
Variable repr : value -> string.

Lemma prepare_values_file_unpatched (c : Challenge) (w : World) (h : t) :
  forallb unpatched (events (prepare_values_file sys yaml_dump c w h)) = true.
Proof.
  unfold prepare_values_file, _run_command.
  destruct (truthy (helm_values c)); sim.
  - destruct (yaml_dump (helm_values c)); sim; [run_call sys |]; reflexivity.
  - run_call sys; [destruct (returncode r =? 0)%Z; sim |]; reflexivity.
Qed.

(** Close a goal on the order of the events gathered so far. *)
Ltac in_order :=
  cbn [events];
  repeat first
    [ assumption
    | reflexivity
    | apply patches_after_deploy_app; [assumption |]
    | apply patches_after_deploy_cons; [reflexivity |]
    | apply patches_after_deploy_all; assumption ].

(** The body of the [try]: before the deployment command has exited
    with status 0 no patch is applied. *)
Lemma provision_in_order (c : Challenge) (w : World) (h : t) :
  patches_after_deploy h
    (events (provision sys yaml_dump json_dumps repr c w h)) = true.
Proof.
  unfold provision, _run_command. sim.
  destruct (Reaper._cleanup_spec sys w h) as (r0 & w0 & ev0 & Hrun0 & Hev0 & _).
  rewrite Hrun0.
  apply (forallb_weaken _ _ _ reaper_event_unpatched) in Hev0.
  destruct r0 as [[] | e |]; sim; [| in_order | in_order].
  run_call sys; [| in_order].
  run_call sys; [| in_order].
  destruct (Provisioner.clone_charts_spec sys w2 h)
    as (rg & wg & evg & Hrung & _ & _ & Hevg & _).
  apply (forallb_weaken _ _ _ quiet_unpatched) in Hevg.
  rewrite Hrung.
  destruct rg as [[] | e |]; sim; [| in_order | in_order].
  pose proof (prepare_values_file_unpatched c wg h) as Hevv.
  destruct (Provisioner.prepare_values_file_spec sys yaml_dump c wg h)
    as (rv & wv & evv & Hrunv & _).
  rewrite Hrunv in Hevv |- *.
  cbn [events] in Hevv.
  destruct rv as [[] | e |]; sim; [| in_order | in_order].
  destruct (Provisioner.add_helm_repos_spec sys wv h)
    as (rr & wr & evr & Hrunr & _ & _ & Hevr & _).
  apply (forallb_weaken _ _ _ quiet_unpatched) in Hevr.
  rewrite Hrunr.
  destruct rr as [[] | e |]; sim; [| in_order | in_order].
  run_call sys; [| in_order].
  destruct (returncode r1 =? 0)%Z eqn:Hrc; sim; [| in_order].
  assert (Hdone : forall evp,
             patches_after_deploy h
               (EvCall (Exec (helm_upgrade h) false) (Ok r1) :: evp) = true).
  { intros evp. cbn [patches_after_deploy exec_succeeded].
    rewrite String.eqb_refl, Hrc. reflexivity. }
  destruct (apply_patches sys json_dumps repr c w3 h) as [rp wp hp evp].
  destruct rp as [[] | e |]; sim; cbn [events];
    repeat first [ apply Hdone
                 | apply patches_after_deploy_app; [assumption |]
                 | apply patches_after_deploy_cons; [reflexivity |] ].
Qed.

(** X9.  Whatever the scenario and whatever the environment does, in a run
    of [setup_challenge] no [kubectl patch] command is started, and patch
    application is not entered, before the deployment command has exited
    with status 0. *)
Theorem setup_challenge_patches_after_deploy (c : Challenge) (w : World)
    (h : t) :
  patches_after_deploy h
    (events (setup_challenge sys yaml_dump json_dumps repr c w h)) = true.
Proof.
  rewrite Provisioner.setup_challenge_unfold.
  unfold try_except, except_Exception.
  pose proof (provision_in_order c w (set_current_challenge (Some c) h)) as H.
  destruct (provision sys yaml_dump json_dumps repr c w
              (set_current_challenge (Some c) h)) as [r w' h' evs].
  cbn [events] in H. rewrite patches_after_deploy_current in H.
  destruct r as [b | e |]; cbn [events].
  - apply patches_after_deploy_cons; [reflexivity | exact H].
  - rewrite isinstance_Exception. sim. rewrite app_nil_r.
    apply patches_after_deploy_cons; [reflexivity | exact H].
  - apply patches_after_deploy_cons; [reflexivity | exact H].
Qed.

(** A patch set that counts as true and does not start with a mapping
    makes patch application raise at once: TypeError when the patch set
    cannot be iterated, UnboundLocalError from the [except] clause of the
    first turn otherwise. *)
Lemma apply_patches_ill_typed (c : Challenge) (w : World) (h : t) :
  truthy (kubectl_patches c) = true ->
  first_entry_mapping (kubectl_patches c) = false ->
  exists e,
    apply_patches sys json_dumps repr c w h
    = Run (Exn e) w h [EvEnter "_apply_kubectl_patches"].
Proof.
  intros Ht Hf. unfold apply_patches, _apply_kubectl_patches. rewrite Ht.
  destruct (kubectl_patches c) as [| b | z | s | l | d];
    cbn in Ht, Hf; try discriminate.
  - eexists. reflexivity.
  - eexists. reflexivity.
  - destruct s; [discriminate |]. eexists. reflexivity.
  - destruct l as [| v l]; [discriminate |].
    destruct v; try discriminate; eexists; reflexivity.
  - destruct d as [| [k v] d]; [discriminate |].
    destruct k; eexists; reflexivity.
Qed.

(** X10.  [cleanup], the public entry of the reaper: when [docker-compose
    down] can be started, whatever its exit status, [cleanup] returns and
    the manager has no current challenge any more; when it cannot be
    started, the exception leaves [cleanup] and the current challenge is
    kept. *)
Theorem cleanup_resets_current_challenge (w : World) (h : t) :
  (forall cp w1,
      sys _ (Exec docker_compose_down true) w = (Ok cp, w1) ->
      exists w' evs,
        cleanup sys w h = Run (Ret tt) w' (set_current_challenge None h) evs)
  /\ (forall e w1,
      sys _ (Exec docker_compose_down true) w = (Err e, w1) ->
      exists evs, cleanup sys w h = Run (Exn e) w1 h evs).
Proof.
  split.
  - intros cp w1 Hdown. unfold cleanup. sim.
    destruct (Reaper._cleanup_spec sys w h) as (r & w' & evs & Hrun & _ & Hcase).
    rewrite Hdown in Hcase. cbn [fst] in Hcase. destruct Hcase as [-> _].
    rewrite Hrun. sim. do 2 eexists. reflexivity.
  - intros e w1 Hdown. unfold cleanup, _cleanup, _run_command. sim.
    rewrite Hdown. sim. eexists. reflexivity.
Qed.

(** X11.  When [start_candidate_environment] returns, the sandbox container
    was started by the last command of the run, which exited with status 0,
    under the name of this manager and on the network that the inspection of
    the k3s container printed, or on the default network when that
    inspection exited with an error status; the manager is as it was. *)
Theorem start_candidate_environment_network (w : World) (h : t) :
  exists r w' evs,
    start_candidate_environment sys w h = Run r w' h evs
    /\ (r = Ret tt ->
        exists before inspected started,
          evs = (before
                 ++ [EvCall (Exec docker_inspect_k3s true) (Ok inspected);
                     EvCall (Exec
                               (docker_run h
                                  (if (returncode inspected =? 0)%Z
                                   then strip (stdout inspected)
                                   else "k8s_challenger_flagsmith-network"))
                               true)
                            (Ok started)])%list
          /\ returncode started = 0%Z).
Proof.
  unfold start_candidate_environment, _run_command. sim.
  destruct (Reaper._cleanup_spec sys w h) as (r0 & w0 & ev0 & Hrun0 & _ & _).
  rewrite Hrun0.
  destruct r0 as [[] | e |]; sim;
    [| do 3 eexists; (split; [reflexivity | discriminate]) ..].
  run_call sys; [| do 3 eexists; (split; [reflexivity | discriminate])].
  run_call sys; [| do 3 eexists; (split; [reflexivity | discriminate])].
  run_call sys; [| do 3 eexists; (split; [reflexivity | discriminate])].
  destruct (returncode r1 =? 0)%Z eqn:Hrc; sim;
    [| do 3 eexists; (split; [reflexivity | discriminate])].
  do 3 eexists. split; [reflexivity |]. intros _.
  exists (EvEnter "start_candidate_environment" :: ev0 ++ [EvCall (Sleep 2) (Ok r)])%list.
  exists r0, r1. split.
  - cbn [app]. rewrite <- app_assoc. reflexivity.
  - apply Z.eqb_eq. exact Hrc.
Qed.

(** Every path of [get_tmate_info]. *)
Lemma get_tmate_info_cases (w : World) (h : t) :
  exists is_ready ssh_url web_url w' evs,
    get_tmate_info sys w h = Run (Ret (is_ready, ssh_url, web_url)) w' h evs
    /\ (is_ready = false -> ssh_url = None /\ web_url = None)
    /\ (is_ready = true -> existsb (read_as status_file "ready") evs = true)
    /\ (forall url, ssh_url = Some url ->
        existsb (read_as ssh_file url) evs = true)
    /\ (forall url, web_url = Some url ->
        existsb (read_as web_file url) evs = true).
Proof.
  unfold get_tmate_info, except_Exception. sim.
  assert (Hno : forall w' evs,
    exists is_ready ssh_url web_url w'' evs',
      Run (World := World) (H := t) (Ret (false, @None string, @None string))
          w' h evs
      = Run (Ret (is_ready, ssh_url, web_url)) w'' h evs'
      /\ (is_ready = false -> ssh_url = None /\ web_url = None)
      /\ (is_ready = true -> existsb (read_as status_file "ready") evs' = true)
      /\ (forall url, ssh_url = Some url ->
          existsb (read_as ssh_file url) evs' = true)
      /\ (forall url, web_url = Some url ->
          existsb (read_as web_file url) evs' = true)).
  { intros w' evs. exists false, None, None, w', evs.
    repeat split; intros; discriminate. }
  run_call sys; [| rewrite isinstance_Exception; sim; apply Hno].
  destruct r; sim; [| apply Hno].
  run_call sys; [| rewrite isinstance_Exception; sim; apply Hno].
  destruct (strip r =? "ready") eqn:Hready; sim; [| apply Hno].
  assert (Hstatus : forall evs,
    existsb (read_as status_file "ready")
      (EvEnter "get_tmate_info" :: EvCall (PathExists status_file) (Ok true)
       :: EvCall (ReadText status_file) (Ok r) :: evs) = true).
  { intros evs. cbn [existsb read_as]. rewrite String.eqb_refl, Hready.
    reflexivity. }
  run_call sys; [| rewrite isinstance_Exception; sim; apply Hno].
  destruct r0; sim.
  - run_call sys; [| rewrite isinstance_Exception; sim; apply Hno].
    run_call sys; [| rewrite isinstance_Exception; sim; apply Hno].
    destruct r1; sim.
    + run_call sys; [| rewrite isinstance_Exception; sim; apply Hno].
      do 5 eexists. split; [reflexivity |].
      split; [discriminate |]. split; [intros _; apply Hstatus |].
      split; intros url Hurl; injection Hurl as <-;
        cbn [existsb read_as]; rewrite !String.eqb_refl;
        cbn; rewrite ?orb_true_r; reflexivity.
    + do 5 eexists. split; [reflexivity |].
      split; [discriminate |]. split; [intros _; apply Hstatus |].
      split; intros url Hurl; [injection Hurl as <- | discriminate].
      cbn [existsb read_as]. rewrite !String.eqb_refl.
      cbn. rewrite ?orb_true_r. reflexivity.
  - run_call sys; [| rewrite isinstance_Exception; sim; apply Hno].
    destruct r0; sim.
    + run_call sys; [| rewrite isinstance_Exception; sim; apply Hno].
      do 5 eexists. split; [reflexivity |].
      split; [discriminate |]. split; [intros _; apply Hstatus |].
      split; intros url Hurl; [discriminate | injection Hurl as <-].
      cbn [existsb read_as]. rewrite !String.eqb_refl.
      cbn. rewrite ?orb_true_r. reflexivity.
    + do 5 eexists. split; [reflexivity |].
      split; [discriminate |]. split; [intros _; apply Hstatus |].
      split; intros url Hurl; discriminate.
Qed.

(** X12.  [get_tmate_info] never raises.  It reports the descriptor as
    ready only after it read the status file and found the text "ready" in
    it (stripped); an SSH or web address that it reports was read from its
    file and stripped; when it reports the descriptor as not ready, it
    reports no address. *)
Theorem get_tmate_info_ready (w : World) (h : t) :
  exists is_ready ssh_url web_url w' evs,
    get_tmate_info sys w h = Run (Ret (is_ready, ssh_url, web_url)) w' h evs
    /\ (is_ready = false -> ssh_url = None /\ web_url = None)
    /\ (is_ready = true -> existsb (read_as status_file "ready") evs = true)
    /\ (forall url, ssh_url = Some url ->
        existsb (read_as ssh_file url) evs = true)
    /\ (forall url, web_url = Some url ->
        existsb (read_as web_file url) evs = true).
Proof. exact (get_tmate_info_cases w h). Qed.

End Proofs.

Section Answered.
Context {World : Type}.
Variable sys : forall R, op R -> World -> reply R * World.
Variable yaml_dump : value -> reply string.
Variable json_dumps : value -> reply string.
Variable repr : value -> string.
Hypothesis sys_answers : answers sys.

(** Answer the next operation. *)
Ltac answer E :=
  match goal with
  | |- context [sys ?R ?o ?w] =>
      is_var w;
      let r := fresh "r" in
      let w' := fresh "w" in
      destruct (sys_answers R o w) as (r & w' & E);
      rewrite E; sim
  end.

Lemma clone_charts_succeeds (w : World) (h : t) :
  required_succeed sys h ->
  exists w' evs,
    clone_charts sys w h = Run (Ret tt) w' h evs
    /\ forallb unpatched evs = true.
Proof.
  intros Hreq. unfold clone_charts, _run_command. sim.
  let E := fresh "E" in answer E.
  destruct r; sim.
  - do 2 eexists. split; reflexivity.
  - destruct (sys_answers _ (Exec git_clone_charts false) w0) as (cp & w' & Eg).
    rewrite Eg. sim.
    rewrite (Hreq _ _ _ _ _ Eg eq_refl). sim. do 2 eexists. split; reflexivity.
Qed.

Lemma prepare_values_file_succeeds (c : Challenge) (w : World) (h : t) :
  required_succeed sys h ->
  (truthy (helm_values c) = true ->
   exists text, yaml_dump (helm_values c) = Ok text) ->
  exists w' evs,
    prepare_values_file sys yaml_dump c w h = Run (Ret tt) w' h evs
    /\ forallb unpatched evs = true.
Proof.
  intros Hreq Hdump. unfold prepare_values_file, _run_command.
  destruct (truthy (helm_values c)); sim.
  - destruct (Hdump eq_refl) as [text Htext]. rewrite Htext. sim.
    destruct (sys_answers _ (WriteText values_file text) w) as ([] & w' & Ev).
    rewrite Ev. sim. do 2 eexists. split; reflexivity.
  - destruct (sys_answers _ (Exec copy_original_values true) w)
      as (cp & w' & Ev).
    rewrite Ev. sim.
    rewrite (Hreq _ _ _ _ _ Ev eq_refl). sim. do 2 eexists. split; reflexivity.
Qed.

Lemma add_helm_repos_succeeds (w : World) (h : t) :
  exists w' evs,
    add_helm_repos sys w h = Run (Ret tt) w' h evs
    /\ forallb unpatched evs = true.
Proof.
  unfold add_helm_repos, _run_command. sim.
  do 6 (let E := fresh "E" in answer E).
  do 2 eexists. split; reflexivity.
Qed.

(** X13.  A scenario whose patch set counts as true but does not start with
    a mapping (a number, a string, a sequence of strings, a mapping) is
    reported as not provisioned although it was deployed: in an environment
    where every operation is answered and the required commands exit with
    status 0, [setup_challenge] returns False after the deployment command
    has exited with status 0, and no patch is applied. *)
Theorem setup_challenge_ill_typed_patches (c : Challenge) (w : World) (h : t) :
  required_succeed sys h ->
  (truthy (helm_values c) = true ->
   exists text, yaml_dump (helm_values c) = Ok text) ->
  truthy (kubectl_patches c) = true ->
  first_entry_mapping (kubectl_patches c) = false ->
  exists w' evs,
    setup_challenge sys yaml_dump json_dumps repr c w h
    = Run (Ret false) w' (set_current_challenge (Some c) h) evs
    /\ existsb (exec_succeeded (helm_upgrade h)) evs = true
    /\ existsb is_patch_command evs = false.
Proof.
  intros Hreq Hdump Ht Hf.
  assert (Hreq' : required_succeed sys (set_current_challenge (Some c) h)).
  { intros cmd capture w0 cp w0' Hexec Hcmd. exact (Hreq _ _ _ _ _ Hexec Hcmd). }
  rewrite Provisioner.setup_challenge_unfold.
  unfold try_except, except_Exception.
  change (helm_upgrade h)
    with (helm_upgrade (set_current_challenge (Some c) h)).
  generalize dependent (set_current_challenge (Some c) h). intros g Hg.
  unfold provision, _run_command. sim.
  destruct (Reaper._cleanup_spec sys w g)
    as (r0 & w0 & ev0 & Hrun0 & Hev0 & Hcase).
  destruct (sys_answers _ (Exec docker_compose_down true) w) as (cp0 & w9 & E0).
  rewrite E0 in Hcase. cbn [fst] in Hcase. destruct Hcase as [-> _].
  rewrite Hrun0. sim.
  apply (forallb_weaken _ _ _ reaper_event_unpatched) in Hev0.
  let E := fresh "E" in answer E.
  let E := fresh "E" in answer E.
  destruct (clone_charts_succeeds w2 g Hg) as (wg & evg & Hrung & Hevg).
  rewrite Hrung. sim.
  destruct (prepare_values_file_succeeds c wg g Hg Hdump)
    as (wv & evv & Hrunv & Hevv).
  rewrite Hrunv. sim.
  destruct (add_helm_repos_succeeds wv g) as (wr & evr & Hrunr & Hevr).
  rewrite Hrunr. sim.
  destruct (sys_answers _ (Exec (helm_upgrade g) false) wr) as (cp & wh & Eh).
  rewrite Eh. sim.
  pose proof (Hg _ _ _ _ _ Eh (Provisioner.helm_upgrade_required g)) as Hz.
  rewrite Hz, Z.eqb_refl. sim.
  destruct (apply_patches_ill_typed sys json_dumps repr c wh g Ht Hf)
    as (e & Hrunp).
  rewrite Hrunp. sim. rewrite isinstance_Exception. sim.
  do 2 eexists. split; [reflexivity |]. split.
  - repeat (rewrite existsb_app || rewrite existsb_cons).
    cbn [exec_succeeded]. rewrite String.eqb_refl, Hz.
    cbn. rewrite ?orb_true_r. reflexivity.
  - assert (Hnone : forall evs, forallb unpatched evs = true ->
                                existsb is_patch_command evs = false).
    { intros evs H. induction evs as [| x evs IH]; [reflexivity |].
      cbn [forallb existsb] in *. apply andb_true_iff in H.
      destruct H as [Hx Hevs]. rewrite (IH Hevs).
      unfold unpatched in Hx. apply andb_true_iff in Hx.
      destruct Hx as [Hx _]. apply negb_true_iff in Hx. rewrite Hx.
      reflexivity. }
    repeat (rewrite existsb_app || rewrite existsb_cons).
    rewrite (Hnone _ Hev0), (Hnone _ Hevg), (Hnone _ Hevv), (Hnone _ Hevr).
    reflexivity.
Qed.

End Answered.

(** A patch set of strings in the calm environment: deployed, and
    reported as failed. *)
Lemma setup_challenge_ill_typed_patches_witness :
  exists w' evs,
    setup_challenge (Worlds.scripted Worlds.calm) Worlds.dump Worlds.dump
      Worlds.show Worlds.mistyped_scenario tt Worlds.manager
    = Run (Ret false) w'
        (set_current_challenge (Some Worlds.mistyped_scenario) Worlds.manager)
        evs
    /\ existsb (exec_succeeded (helm_upgrade Worlds.manager)) evs = true
    /\ existsb is_patch_command evs = false.
Proof.
  apply (setup_challenge_ill_typed_patches (Worlds.scripted Worlds.calm)
           Worlds.dump Worlds.dump Worlds.show Provisioner.calm_answers
           Worlds.mistyped_scenario tt Worlds.manager).
  - apply Provisioner.calm_required_succeed.
  - intros _. eexists. reflexivity.
  - reflexivity.
  - reflexivity.
Defined.

(** The leftovers environment: [docker-compose down] exits with status
    1 and [cleanup] still forgets the current challenge. *)
Lemma cleanup_resets_current_challenge_witness :
  exists w' evs,
    cleanup (Worlds.scripted Worlds.leftovers) tt
      (set_current_challenge (Some Worlds.plain_scenario) Worlds.manager)
    = Run (Ret tt) w' Worlds.manager evs.
Proof.
  exact (proj1 (cleanup_resets_current_challenge
                  (Worlds.scripted Worlds.leftovers) tt
                  (set_current_challenge (Some Worlds.plain_scenario)
                     Worlds.manager))
               (mkCompleted 1 "") tt eq_refl).
Defined.

End ProvisionSteps.

(** ** The command line: finding a challenge by name *)

Module Finder.

Import ChallengeManager Observe.
Local Open Scope string_scope.

Lemma split_last_dot_yaml (x : string) :
  split_last_dot (x ++ ".yaml") = Some (x, "yaml").
Proof.
  induction x as [| c x IH]; [reflexivity |].
  cbn [append split_last_dot]. rewrite IH. reflexivity.
Qed.

(** The stem of [x.yaml] is [x]. *)
Lemma stem_yaml (x : string) : x <> "" -> stem (x ++ ".yaml") = x.
Proof.
  intros Hx. unfold stem. rewrite split_last_dot_yaml.
  destruct x; [congruence | reflexivity].
Qed.

Lemma set_challenge_manager_same (s : InterviewSession.t) :
  InterviewSession.set_challenge_manager
    (InterviewSession.challenge_manager s) s = s.
Proof. destruct s; reflexivity. Qed.

Section Proofs.
Context {World : Type}.
Variable sys : forall R, op R -> World -> reply R * World.
Variable yaml_safe_load : string -> reply value.
Variable yaml_dump : value -> reply string.
Variable json_dumps : value -> reply string.
Variable repr : value -> string.

(** The loop of [_find_challenge] is a search for the first challenge
    with the stem asked for. *)
Lemma find_loop (challenge_id : string) (cs : list Challenge) (w : World)
    (s : InterviewSession.t) :
  for_in cs (InterviewCLI.match_challenge challenge_id) w s
  = Run (Ret (find (named challenge_id) cs)) w s [].
Proof.
  induction cs as [| c cs IH]; [reflexivity |].
  cbn [for_in find]. unfold InterviewCLI.match_challenge at 1, named at 1.
  destruct (stem (filename c) =? challenge_id); sim; [reflexivity |].
  rewrite IH. reflexivity.
Qed.

(** The loop of [_list_available_challenges] only prints. *)
Lemma list_loop (cs : list Challenge) (w : World) (s : InterviewSession.t) :
  exists prints,
    for_in cs (InterviewCLI.list_one repr) w s = Run (Ret None) w s prints
    /\ forallb is_print prints = true.
Proof.
  induction cs as [| c cs IH]; [exists []; split; reflexivity |].
  cbn [for_in]. unfold InterviewCLI.list_one at 1. sim.
  destruct IH as (prints & Hrun & Hprints). rewrite Hrun.
  eexists. split; [reflexivity |]. exact Hprints.
Qed.

(** X14.  [_find_challenge] touches nothing, and returns the first
    challenge of the catalog whose file name, without its extension, is the
    identifier asked for.  In particular the challenge discovered in the
    file [x.yaml] is found under [x], unless an earlier file of the catalog
    has the same stem; and nothing is found when no file name has this stem. *)
Theorem _find_challenge_by_stem (challenge_id : string) (w : World)
    (s : InterviewSession.t) :
  exists found,
    InterviewCLI._find_challenge challenge_id w s = Run (Ret found) w s []
    /\ found
       = find (named challenge_id)
           (challenges (InterviewSession.challenge_manager s))
    /\ (forall c,
          In c (challenges (InterviewSession.challenge_manager s)) ->
          filename c = challenge_id ++ ".yaml" ->
          challenge_id <> "" ->
          exists c',
            found = Some c'
            /\ In c' (challenges (InterviewSession.challenge_manager s))
            /\ stem (filename c') = challenge_id)
    /\ ((forall c,
           In c (challenges (InterviewSession.challenge_manager s)) ->
           stem (filename c) <> challenge_id) ->
        found = None).
Proof.
  eexists. split; [| split; [reflexivity | split]].
  - unfold InterviewCLI._find_challenge. sim. rewrite find_loop. reflexivity.
  - intros c Hin Hname Hid.
    destruct (find (named challenge_id)
                (challenges (InterviewSession.challenge_manager s)))
      as [c' |] eqn:Hfind.
    + exists c'. split; [reflexivity |].
      apply find_some in Hfind. destruct Hfind as [Hin' Hnamed].
      split; [exact Hin' |]. apply String.eqb_eq. exact Hnamed.
    + pose proof (find_none _ _ Hfind c Hin) as Hnot.
      unfold named in Hnot. rewrite Hname, (stem_yaml _ Hid) in Hnot.
      rewrite String.eqb_refl in Hnot. discriminate.
  - intros Hnone.
    destruct (find (named challenge_id)
                (challenges (InterviewSession.challenge_manager s)))
      as [c' |] eqn:Hfind; [| reflexivity].
    apply find_some in Hfind. destruct Hfind as [Hin' Hnamed].
    apply String.eqb_eq in Hnamed. destruct (Hnone c' Hin' Hnamed).
Qed.

(** X15.  When discovery finds no challenge with the stem asked for (or no
    challenge at all), [run_specific_challenge] only prints after the
    discovery and returns: nothing is cleaned up, deployed or started, and
    the session is as it was; the catalog is the discovered one. *)
Theorem run_specific_challenge_unknown (fuel : nat) (challenge_id : string)
    (w w1 : World) (s : InterviewSession.t) (g : ChallengeManager.t)
    (evs1 : list event) :
  discover_challenges sys yaml_safe_load w (InterviewSession.challenge_manager s)
  = Run (Ret tt) w1 g evs1 ->
  find (named challenge_id) (challenges g) = None ->
  exists prints,
    InterviewCLI.run_specific_challenge sys yaml_safe_load yaml_dump json_dumps
      repr fuel challenge_id w s
    = Run (Ret tt) w1 (InterviewSession.set_challenge_manager g s)
        (EvPrint "Flagsmith Infrastructure Challenger" :: evs1 ++ prints)
    /\ forallb is_print prints = true.
Proof.
  intros Hdisc Hfind.
  unfold InterviewCLI.run_specific_challenge, InterviewCLI._show_banner,
    InterviewSession.on_manager. sim.
  rewrite Hdisc. sim.
  cbn [InterviewSession.challenge_manager InterviewSession.set_challenge_manager].
  destruct (challenges g) as [| c cs] eqn:Hcs; sim.
  - eexists. split; [reflexivity |]. reflexivity.
  - unfold InterviewCLI._find_challenge. sim.
    cbn [InterviewSession.challenge_manager
           InterviewSession.set_challenge_manager].
    rewrite Hcs, find_loop, Hfind. sim.
    unfold InterviewCLI._list_available_challenges. sim.
    cbn [InterviewSession.challenge_manager
           InterviewSession.set_challenge_manager].
    rewrite Hcs.
    destruct (list_loop (c :: cs) w1 (InterviewSession.set_challenge_manager g s))
      as (prints & Hrun & Hprints).
    rewrite Hrun. sim.
    eexists. split; [reflexivity |].
    cbn [forallb is_print app]. rewrite forallb_app, Hprints. reflexivity.
Qed.

End Proofs.

(** Three files, one of them well formed: there is no challenge
    "database-typo". *)
Lemma run_specific_challenge_unknown_witness :
  exists prints evs1,
    InterviewCLI.run_specific_challenge
      (Worlds.scripted Worlds.catalog_of_three) Worlds.toy_yaml Worlds.dump
      Worlds.dump Worlds.show 5 "database-typo" tt
      (InterviewSession.init Worlds.manager)
    = Run (Ret tt) tt
        (InterviewSession.set_challenge_manager
           (self (discover_challenges (Worlds.scripted Worlds.catalog_of_three)
                    Worlds.toy_yaml tt Worlds.manager))
           (InterviewSession.init Worlds.manager))
        (EvPrint "Flagsmith Infrastructure Challenger" :: evs1 ++ prints)
    /\ forallb is_print prints = true.
Proof.
  destruct (run_specific_challenge_unknown
              (Worlds.scripted Worlds.catalog_of_three) Worlds.toy_yaml
              Worlds.dump Worlds.dump Worlds.show 5 "database-typo" tt tt
              (InterviewSession.init Worlds.manager)
              (self (discover_challenges
                       (Worlds.scripted Worlds.catalog_of_three)
                       Worlds.toy_yaml tt Worlds.manager))
              (events (discover_challenges
                         (Worlds.scripted Worlds.catalog_of_three)
                         Worlds.toy_yaml tt Worlds.manager))
              eq_refl eq_refl)
    as (prints & Hrun & Hprints).
  exists prints. eexists. split; [exact Hrun | exact Hprints].
Defined.

End Finder.

(** ** The command line: the menu *)

Module Menu.

Import ChallengeManager Observe.
Local Open Scope string_scope.

Lemma digits_of_uint (d : Decimal.uint) :
  forallb is_digit (list_ascii_of_string (NilEmpty.string_of_uint d)) = true.
Proof. induction d; cbn; auto. Qed.

Lemma string_of_uint_not_empty (d : Decimal.uint) :
  d <> Decimal.Nil -> NilEmpty.string_of_uint d <> "".
Proof. destruct d; cbn; congruence. Qed.

(** [str(i)] is made of digits when [i] is not negative. *)
Lemma isdigit_str_int (i : Z) : (0 <= i)%Z -> isdigit (str_int i) = true.
Proof.
  intros Hi. unfold str_int. destruct i as [| p | p]; [reflexivity | | lia].
  cbn [Z.to_int NilZero.string_of_int].
  pose proof (DecimalPos.Unsigned.to_uint_nonnil p) as Hnil.
  unfold NilZero.string_of_uint.
  destruct (Pos.to_uint p) eqn:Hd; [congruence | ..];
    unfold isdigit; rewrite digits_of_uint, andb_true_r; reflexivity.
Qed.

(** [int(str(i))] is [i] when [i] is not negative and [str(i)] stays
    within the limit on digits. *)
Lemma int_of_digits_str_int (i : Z) :
  (0 <= i)%Z ->
  String.length (str_int i) <= int_max_str_digits ->
  int_of_digits (str_int i) = Ok i.
Proof.
  intros Hi Hlen. unfold int_of_digits.
  apply Nat.ltb_ge in Hlen. rewrite Hlen.
  unfold str_int. destruct i as [| p | p]; [reflexivity | | lia].
  cbn [Z.to_int NilZero.string_of_int].
  rewrite (NilZero.usu _ (DecimalPos.Unsigned.to_uint_nonnil p)).
  unfold Z.of_uint. rewrite DecimalPos.Unsigned.of_to. reflexivity.
Qed.

Lemma enumerate_nth {A} (xs : list A) :
  forall (start i : Z) (x : A),
    In (i, x) (InterviewCLI.enumerate start xs) ->
    (start <= i < start + Z.of_nat (List.length xs))%Z
    /\ nth_error xs (Z.to_nat (i - start)) = Some x.
Proof.
  induction xs as [| y xs IH]; intros start i x Hin; [destruct Hin |].
  cbn [InterviewCLI.enumerate In] in Hin. destruct Hin as [Heq | Hin].
  - injection Heq as <- <-. rewrite Z.sub_diag. cbn [List.length]. split; [lia |].
    reflexivity.
  - destruct (IH _ _ _ Hin) as [Hrange Hnth].
    cbn [List.length]. split; [lia |].
    replace (i - start)%Z with (Z.succ (i - (start + 1)))%Z by lia.
    rewrite Z2Nat.inj_succ by lia. exact Hnth.
Qed.

Lemma presentable_enumerate (cs : list Challenge) :
  forall start,
    forallb (fun entry => presentable (snd entry))
      (InterviewCLI.enumerate start cs)
    = forallb presentable cs.
Proof.
  induction cs as [| c cs IH]; intros start; [reflexivity |].
  cbn [InterviewCLI.enumerate forallb snd]. rewrite IH. reflexivity.
Qed.

Section Proofs.
Context {World : Type}.
Variable sys : forall R, op R -> World -> reply R * World.
Variable repr : value -> string.

(** One entry of the menu: it is printed when the challenge is
    presentable, and raises otherwise. *)
Lemma show_entry_spec (i : Z) (c : Challenge) (w : World)
    (s : InterviewSession.t) :
  exists r prints,
    InterviewCLI.show_entry repr (i, c) w s = Run r w s prints
    /\ forallb is_print prints = true
    /\ (if presentable c then r = Ret Next else exists e, r = Exn e).
Proof.
  unfold InterviewCLI.show_entry, presentable, InterviewSession.text_append,
    InterviewCLI.fill, getitem, contains.
  destruct (name c), (description c), (estimates c); sim;
    try (do 2 eexists; split; [reflexivity |]; split; [reflexivity |];
         eexists; reflexivity).
  all: match goal with
       | |- context [lookup ?d "Lv1"] => destruct (lookup d "Lv1")
       end; sim;
    [| do 2 eexists; split; [reflexivity |]; split; [reflexivity |];
       eexists; reflexivity].
  all: match goal with
       | |- context [lookup ?d "Lv2"] => destruct (lookup d "Lv2")
       end; sim;
    [| do 2 eexists; split; [reflexivity |]; split; [reflexivity |];
       eexists; reflexivity].
  all: match goal with
       | |- context [lookup ?d "Lv3"] => destruct (lookup d "Lv3")
       end; sim;
    do 2 eexists; (split; [reflexivity |]); (split; [reflexivity |]);
    first [reflexivity | eexists; reflexivity].
Qed.

(** The loop that prints the menu. *)
Lemma menu_loop (entries : list (Z * Challenge)) (w : World)
    (s : InterviewSession.t) :
  exists r prints,
    for_in entries (InterviewCLI.show_entry repr) w s = Run r w s prints
    /\ forallb is_print prints = true
    /\ (if forallb (fun entry => presentable (snd entry)) entries
        then r = Ret None else exists e, r = Exn e).
Proof.
  induction entries as [| [i c] entries IH].
  - exists (Ret None), []. repeat split.
  - cbn [for_in forallb snd].
    destruct (show_entry_spec i c w s) as (r1 & p1 & Hrun1 & Hp1 & Hr1).
    unfold bind. rewrite Hrun1.
    destruct (presentable c).
    + subst r1. destruct IH as (r & prints & Hrun & Hprints & Hr).
      rewrite Hrun. exists r, (p1 ++ prints)%list.
      split; [reflexivity |]. rewrite forallb_app, Hp1, Hprints.
      split; [reflexivity | exact Hr].
    + destruct Hr1 as [e ->]. exists (Exn e), p1.
      split; [reflexivity |]. split; [exact Hp1 |]. eexists. reflexivity.
Qed.

(** The loop that asks for a number: what it returns is an entry of the
    catalog, it runs no command, and it leaves the session as it is. *)
Lemma select_loop_member (fuel : nat) (s : InterviewSession.t) :
  forall w : World,
  exists r w' evs,
    InterviewCLI.select_loop sys fuel w s = Run r w' s evs
    /\ (forall c, r = Ret (Some c) ->
        In c (challenges (InterviewSession.challenge_manager s)))
    /\ commands evs = [].
Proof.
  induction fuel as [| k IH]; intros w.
  - do 3 eexists. split; [reflexivity |]. split; [discriminate | reflexivity].
  - cbn [InterviewCLI.select_loop]. unfold InterviewCLI.ask. sim.
    run_call sys.
    + destruct r as [text |]; sim.
      * destruct (isdigit (strip text)); sim.
        -- destruct (int_of_digits (strip text)) as [num | e]; sim.
           ++ destruct ((1 <=? num)%Z
                        && (num <=? Z.of_nat
                                      (List.length
                                         (challenges
                                            (InterviewSession.challenge_manager s))))%Z);
                sim.
              ** unfold InterviewSession.on_manager, get_challenge. sim.
                 destruct ((0 <=? num - 1)%Z
                           && (num - 1 <? Z.of_nat
                                 (List.length
                                    (challenges
                                       (InterviewSession.challenge_manager s))))%Z);
                   sim; rewrite Finder.set_challenge_manager_same;
                   do 3 eexists; (split; [reflexivity |]);
                   (split; [| reflexivity]); intros c Hc; [| discriminate].
                 injection Hc as Hc. eapply nth_error_In. exact Hc.
              ** destruct (IH w0) as (r & w' & evs & Hrun & Hin & Hcmd).
                 rewrite Hrun. do 3 eexists. split; [reflexivity |].
                 split; [exact Hin | exact Hcmd].
           ++ do 3 eexists. split; [reflexivity |].
              split; [discriminate | reflexivity].
        -- destruct (IH w0) as (r & w' & evs & Hrun & Hin & Hcmd).
           rewrite Hrun. do 3 eexists. split; [reflexivity |].
           split; [exact Hin | exact Hcmd].
      * do 3 eexists. split; [reflexivity |].
        split; [discriminate | reflexivity].
    + destruct (isinstance e EOFError); sim;
        do 3 eexists; (split; [reflexivity |]);
        (split; [discriminate | reflexivity]).
Qed.

(** X16.  Whatever is typed, a challenge that [_select_challenge] returns
    is an entry of the catalog; the selection runs no command and leaves the
    session as it is. *)
Theorem _select_challenge_member (fuel : nat) (w : World)
    (s : InterviewSession.t) :
  exists r w' evs,
    InterviewCLI._select_challenge sys repr fuel w s = Run r w' s evs
    /\ (forall c, r = Ret (Some c) ->
        In c (challenges (InterviewSession.challenge_manager s)))
    /\ commands evs = [].
Proof.
  unfold InterviewCLI._select_challenge. sim.
  destruct (menu_loop
              (InterviewCLI.enumerate 1
                 (challenges (InterviewSession.challenge_manager s))) w s)
    as (r1 & prints & Hrun1 & Hprints & _).
  rewrite Hrun1.
  assert (Hquiet : commands prints = []).
  { clear Hrun1. induction prints as [| e prints IH]; [reflexivity |].
    cbn [forallb] in Hprints. apply andb_true_iff in Hprints.
    destruct Hprints as [He Hp]. destruct e; try discriminate. cbn. auto. }
  destruct r1 as [a | e |]; sim.
  - destruct (select_loop_member fuel s w) as (r & w' & evs & Hrun & Hin & Hcmd).
    rewrite Hrun. do 3 eexists. split; [reflexivity |].
    split; [exact Hin |].
    cbn [commands]. rewrite commands_app. cbn [commands].
    rewrite Hquiet, Hcmd. reflexivity.
  - do 3 eexists. split; [reflexivity |]. split; [discriminate |].
    cbn [commands]. exact Hquiet.
  - do 3 eexists. split; [reflexivity |]. split; [discriminate |].
    cbn [commands]. exact Hquiet.
Qed.

(** X17.  The number shown before a challenge selects it: when every
    challenge of the catalog is presentable and the first line typed is, up
    to surrounding blanks, the number that the menu shows before the
    challenge [c], then [_select_challenge] returns [c]. *)
Theorem _select_challenge_by_number (fuel : nat) (w w1 : World)
    (s : InterviewSession.t) (i : Z) (c : Challenge) (line : string) :
  forallb presentable (challenges (InterviewSession.challenge_manager s))
  = true ->
  In (i, c)
     (InterviewCLI.enumerate 1
        (challenges (InterviewSession.challenge_manager s))) ->
  sys _ Input w = (Ok (Line line), w1) ->
  strip line = str_int i ->
  String.length (str_int i) <= int_max_str_digits ->
  exists evs,
    InterviewCLI._select_challenge sys repr (S fuel) w s
    = Run (Ret (Some c)) w1 s evs.
Proof.
  intros Hshow Hin Hinput Hline Hlen.
  destruct (enumerate_nth _ _ _ _ Hin) as [Hrange Hnth].
  unfold InterviewCLI._select_challenge. sim.
  destruct (menu_loop
              (InterviewCLI.enumerate 1
                 (challenges (InterviewSession.challenge_manager s))) w s)
    as (r1 & prints & Hrun1 & _ & Hr1).
  rewrite presentable_enumerate, Hshow in Hr1. subst r1.
  rewrite Hrun1. sim.
  cbn [InterviewCLI.select_loop]. unfold InterviewCLI.ask. sim.
  rewrite Hinput. sim. rewrite Hline.
  rewrite isdigit_str_int by lia. sim.
  rewrite int_of_digits_str_int by (lia || exact Hlen). sim.
  replace ((1 <=? i)%Z
           && (i <=? Z.of_nat
                       (List.length
                          (challenges (InterviewSession.challenge_manager s))))%Z)
    with true by (symmetry; apply andb_true_iff; split; apply Z.leb_le; lia).
  sim.
  unfold InterviewSession.on_manager, get_challenge. sim.
  replace ((0 <=? i - 1)%Z
           && (i - 1 <? Z.of_nat
                          (List.length
                             (challenges
                                (InterviewSession.challenge_manager s))))%Z)
    with true
    by (symmetry; apply andb_true_iff; split;
        [apply Z.leb_le | apply Z.ltb_lt]; lia).
  sim. rewrite Finder.set_challenge_manager_same, Hnth. eexists. reflexivity.
Qed.

(** X18.  A challenge that discovery accepted can still break the menu:
    when one challenge of the catalog is not presentable (its name or its
    description is not a string, or its estimates lack one of the three
    levels), [_select_challenge] raises before it asks anything, and no
    challenge can be selected. *)
Theorem _select_challenge_unpresentable (fuel : nat) (w : World)
    (s : InterviewSession.t) :
  forallb presentable (challenges (InterviewSession.challenge_manager s))
  = false ->
  exists e evs,
    InterviewCLI._select_challenge sys repr fuel w s = Run (Exn e) w s evs
    /\ existsb is_input evs = false.
Proof.
  intros Hshow.
  unfold InterviewCLI._select_challenge. sim.
  destruct (menu_loop
              (InterviewCLI.enumerate 1
                 (challenges (InterviewSession.challenge_manager s))) w s)
    as (r1 & prints & Hrun1 & Hprints & Hr1).
  rewrite presentable_enumerate, Hshow in Hr1. destruct Hr1 as [e ->].
  rewrite Hrun1. sim. do 2 eexists. split; [reflexivity |].
  cbn [existsb is_input]. clear Hrun1.
  induction prints as [| x prints IH]; [reflexivity |].
  cbn [forallb] in Hprints. apply andb_true_iff in Hprints.
  destruct Hprints as [Hx Hp]. destruct x; try discriminate. cbn. auto.
Qed.

End Proofs.

(** The user types " 2 ": the second scenario of the catalog is
    selected. *)
Lemma _select_challenge_by_number_witness :
  exists evs,
    InterviewCLI._select_challenge
      (Worlds.scripted (Worlds.with_input " 2 " Worlds.calm)) Worlds.show 1 tt
      Worlds.session_of_two
    = Run (Ret (Some Worlds.tuned_scenario)) tt Worlds.session_of_two evs.
Proof.
  apply (_select_challenge_by_number
           (Worlds.scripted (Worlds.with_input " 2 " Worlds.calm)) Worlds.show
           0 tt tt Worlds.session_of_two 2%Z Worlds.tuned_scenario " 2 ").
  - reflexivity.
  - right. left. reflexivity.
  - reflexivity.
  - reflexivity.
  - vm_compute. lia.
Defined.

(** A catalog with a scenario whose estimates lack a level. *)
Lemma _select_challenge_unpresentable_witness :
  exists e evs,
    InterviewCLI._select_challenge (Worlds.scripted Worlds.calm) Worlds.show 3
      tt
      (InterviewSession.init
         (set_challenges [Worlds.plain_scenario; Worlds.unrated_scenario]
            Worlds.manager))
    = Run (Exn e) tt
        (InterviewSession.init
           (set_challenges [Worlds.plain_scenario; Worlds.unrated_scenario]
              Worlds.manager))
        evs
    /\ existsb is_input evs = false.
Proof.
  exact (_select_challenge_unpresentable (Worlds.scripted Worlds.calm)
           Worlds.show 3 tt
           (InterviewSession.init
              (set_challenges [Worlds.plain_scenario; Worlds.unrated_scenario]
                 Worlds.manager))
           eq_refl).
Defined.

End Menu.

(** ** The session: clock and end *)

Module SessionEnd.

Import ChallengeManager InterviewSession Observe.
Local Open Scope string_scope.

Lemma digit_not_space (c : ascii) : is_digit c = true -> is_space c = false.
Proof.
  unfold is_digit, is_space. generalize (nat_of_ascii c). intros n H.
  apply andb_true_iff in H. destruct H as [H1 H2].
  apply Nat.leb_le in H1. apply Nat.leb_le in H2.
  destruct (Nat.eqb_spec n 32); [lia |].
  destruct (Nat.leb_spec 9 n), (Nat.leb_spec n 13),
    (Nat.leb_spec 28 n), (Nat.leb_spec n 31); cbn; try reflexivity; lia.
Qed.

Lemma rstrip_solid (s : string) : ends_solid s = true -> rstrip s = s.
Proof.
  induction s as [| c s IH]; [discriminate |].
  cbn [ends_solid rstrip]. destruct s as [| c' s].
  - cbn [rstrip]. intros H. apply negb_true_iff in H. rewrite H. reflexivity.
  - intros H. rewrite (IH H). reflexivity.
Qed.

Lemma ends_solid_app (a b : string) :
  ends_solid b = true -> ends_solid (a ++ b) = true.
Proof.
  intros Hb. induction a as [| c a IH]; [exact Hb |].
  cbn [append ends_solid]. rewrite IH.
  destruct (a ++ b) eqn:Hab; [| reflexivity].
  rewrite <- Hab in IH. destruct a; cbn in Hab; [| discriminate].
  subst b. discriminate.
Qed.

Lemma digits_ends_solid (s : string) :
  s <> "" -> forallb is_digit (list_ascii_of_string s) = true ->
  ends_solid s = true.
Proof.
  induction s as [| c s IH]; [congruence |].
  intros _ H. cbn [list_ascii_of_string forallb] in H.
  apply andb_true_iff in H. destruct H as [Hc Hs].
  cbn [ends_solid]. destruct s as [| c' s].
  - rewrite (digit_not_space c Hc). reflexivity.
  - apply IH; [discriminate | exact Hs].
Qed.

(** [f"{z:02d}"] is made of digits when [z] is not negative. *)
Lemma fmt02d_digits (z : Z) :
  (0 <= z)%Z ->
  exists c rest,
    fmt02d z = String c rest /\ is_digit c = true
    /\ forallb is_digit (list_ascii_of_string rest) = true.
Proof.
  intros Hz. pose proof (Menu.isdigit_str_int z Hz) as Hd.
  unfold isdigit in Hd. apply andb_true_iff in Hd. destruct Hd as [Hne Hall].
  unfold fmt02d. destruct ((0 <=? z)%Z && (z <? 10)%Z).
  - exists "0"%char, (str_int z). repeat split; auto.
  - destruct (str_int z) as [| c rest]; [discriminate |].
    cbn [list_ascii_of_string forallb] in Hall.
    apply andb_true_iff in Hall. destruct Hall as [Hc Hrest].
    exists c, rest. repeat split; auto.
Qed.

(** A clock reading [hh:mm:ss] has no blank at either end. *)
Lemma strip_clock (hours minutes seconds : Z) :
  (0 <= hours)%Z -> (0 <= seconds)%Z ->
  strip (fmt02d hours ++ ":" ++ fmt02d minutes ++ ":" ++ fmt02d seconds)
  = fmt02d hours ++ ":" ++ fmt02d minutes ++ ":" ++ fmt02d seconds.
Proof.
  intros Hh Hs.
  destruct (fmt02d_digits hours Hh) as (c & rest & Hfmt & Hc & _).
  destruct (fmt02d_digits seconds Hs) as (c' & rest' & Hfmt' & Hc' & Hrest').
  unfold strip. rewrite Hfmt. cbn [append lstrip].
  rewrite (digit_not_space c Hc).
  apply rstrip_solid.
  change (ends_solid
            (String c rest
             ++ (":" ++ (fmt02d minutes ++ (":" ++ fmt02d seconds))))
          = true).
  do 4 apply ends_solid_app. rewrite Hfmt'.
  apply digits_ends_solid; [discriminate |].
  cbn [list_ascii_of_string forallb]. rewrite Hc', Hrest'. reflexivity.
Qed.

Section Proofs.
Context {World : Type}.
Variable sys : forall R, op R -> World -> reply R * World.

(** X19.  The elapsed time of a session is shown in whole seconds as hours,
    minutes and seconds, each on two digits at least, minutes and seconds
    below 60; it takes one reading of the clock and changes nothing.
    Without a start time the assertion fails before the clock is read. *)
Theorem _format_elapsed_time_clock (w : World) (s : InterviewSession.t) :
  (forall started now w1,
      start_time s = Some started ->
      sys _ Now w = (Ok now, w1) ->
      (started <= now)%Z ->
      exists hours minutes seconds,
        _format_elapsed_time sys w s
        = Run (Ret (fmt02d hours ++ ":" ++ fmt02d minutes ++ ":"
                    ++ fmt02d seconds))
              w1 s [EvCall Now (Ok now)]
        /\ (0 <= hours)%Z
        /\ (0 <= minutes < 60)%Z
        /\ (0 <= seconds < 60)%Z
        /\ (hours * 3600 + minutes * 60 + seconds
            = (now - started) / 1000000)%Z)
  /\ (start_time s = None ->
      _format_elapsed_time sys w s = Run (Exn AssertionError) w s []).
Proof.
  split.
  - intros started now w1 Hstart Hnow Hle.
    unfold _format_elapsed_time. sim. rewrite Hstart. sim. rewrite Hnow. sim.
    set (total := Z.quot (now - started) 1000000).
    assert (Htotal : total = ((now - started) / 1000000)%Z)
      by (apply Z.quot_div_nonneg; lia).
    assert (H0 : (0 <= total)%Z)
      by (rewrite Htotal; apply Z.div_pos; lia).
    exists (total / 3600)%Z, ((total mod 3600) / 60)%Z, (total mod 60)%Z.
    pose proof (Z.mod_pos_bound total 3600 ltac:(lia)) as Hm.
    pose proof (Z.mod_pos_bound total 60 ltac:(lia)) as Hsec.
    assert (Hh : (0 <= total / 3600)%Z) by (apply Z.div_pos; lia).
    rewrite strip_clock by lia.
    split; [reflexivity |]. split; [exact Hh |].
    split; [split; [apply Z.div_pos; lia | apply Z.div_lt_upper_bound; lia] |].
    split; [lia |].
    rewrite <- Htotal.
    pose proof (Z.div_mod total 3600 ltac:(lia)) as E1.
    pose proof (Z.div_mod (total mod 3600) 60 ltac:(lia)) as E2.
    assert (E3 : ((total mod 3600) mod 60 = total mod 60)%Z).
    { apply Z.mod_mod_divide. exists 60%Z. reflexivity. }
    lia.
  - intros Hstart. unfold _format_elapsed_time. sim. rewrite Hstart.
    reflexivity.
Qed.

(** [cleanup] as the session sees it. *)
Lemma cleanup_cases (w : World) (h : ChallengeManager.t) :
  exists r w' evs,
    (r = Ret tt
     /\ cleanup sys w h
        = Run r w' (ChallengeManager.set_current_challenge None h) evs)
    \/ ((exists e, r = Exn e) /\ cleanup sys w h = Run r w' h evs).
Proof.
  unfold cleanup. sim.
  destruct (Reaper._cleanup_spec sys w h) as (r & w' & evs & Hrun & _ & Hcase).
  rewrite Hrun.
  destruct (fst (sys CompletedProcess (Exec docker_compose_down true) w)).
  - destruct Hcase as [-> _]. sim. do 3 eexists. left. split; reflexivity.
  - destruct Hcase as [-> _]. sim. do 3 eexists. right.
    split; [eexists; reflexivity | reflexivity].
Qed.

(** X20.  After [stop_session] the session is not active, whatever
    happened.  On a session that is not active it does nothing at all, so
    that a second call in a row has no effect.  On an active session, when
    it returns, the current challenge and the start time are forgotten, by
    the session and by the manager.  When it raises (the reaper could not
    start [docker-compose], or the clock failed), the session keeps its
    challenge and its start time although it is not active any more. *)
Theorem stop_session_deactivates (w : World) (s : InterviewSession.t) :
  exists r w' s' evs,
    stop_session sys w s = Run r w' s' evs
    /\ r <> Diverge
    /\ session_active s' = false
    /\ (session_active s = false -> r = Ret tt /\ w' = w /\ s' = s /\ evs = [])
    /\ (session_active s = true -> r = Ret tt ->
        InterviewSession.current_challenge s' = None
        /\ start_time s' = None
        /\ ChallengeManager.current_challenge (challenge_manager s') = None)
    /\ (forall e, r = Exn e ->
        start_time s' = start_time s
        /\ InterviewSession.current_challenge s'
           = InterviewSession.current_challenge s).
Proof.
  unfold stop_session, on_manager. sim.
  destruct (session_active s) eqn:Hactive; sim.
  2:{ do 4 eexists. split; [reflexivity |]. split; [discriminate |].
      split; [exact Hactive |]. split; [auto |].
      split; [discriminate |]. discriminate. }
  cbn [challenge_manager set_session_active].
  destruct (cleanup_cases w (challenge_manager s))
    as (r & w1 & evs1 & [[-> Hrun] | [[e ->] Hrun]]); rewrite Hrun; sim.
  - unfold _format_elapsed_time. sim.
    cbn [start_time set_session_active set_challenge_manager].
    destruct (start_time s) as [started |] eqn:Hstart; sim.
    + run_call sys.
      * do 4 eexists. split; [reflexivity |]. split; [discriminate |].
        split; [reflexivity |]. split; [discriminate |].
        split; [intros _ _; repeat split |]. discriminate.
      * do 4 eexists. split; [reflexivity |]. split; [discriminate |].
        split; [reflexivity |]. split; [discriminate |].
        split; [discriminate |]. intros e0 _. split; [exact Hstart | reflexivity].
    + do 4 eexists. split; [reflexivity |]. split; [discriminate |].
      split; [reflexivity |]. split; [discriminate |].
      split; [discriminate |]. intros e0 _. split; [exact Hstart | reflexivity].
  - do 4 eexists. split; [reflexivity |]. split; [discriminate |].
    split; [reflexivity |]. split; [discriminate |].
    split; [discriminate |]. intros e0 _. split; reflexivity.
Qed.

End Proofs.

(** One hour, one minute and one second after the start. *)
Lemma _format_elapsed_time_clock_witness :
  exists hours minutes seconds,
    _format_elapsed_time
      (Worlds.scripted Worlds.calm) tt
      (set_start_time (Some (-3661000000)%Z) (init Worlds.manager))
    = Run (Ret (fmt02d hours ++ ":" ++ fmt02d minutes ++ ":" ++ fmt02d seconds))
          tt (set_start_time (Some (-3661000000)%Z) (init Worlds.manager))
          [EvCall Now (Ok 0%Z)]
    /\ (hours * 3600 + minutes * 60 + seconds = 3661)%Z.
Proof.
  destruct (proj1 (_format_elapsed_time_clock
                     (Worlds.scripted Worlds.calm) tt
                     (set_start_time (Some (-3661000000)%Z)
                        (init Worlds.manager)))
                  (-3661000000)%Z 0%Z tt eq_refl eq_refl ltac:(lia))
    as (hours & minutes & seconds & Hrun & _ & _ & _ & Hsum).
  exists hours, minutes, seconds. split; [exact Hrun |].
  rewrite Hsum. reflexivity.
Defined.

End SessionEnd.

(** ** The session establisher: what its answer means *)

Module Establisher.

Import ChallengeManager InterviewSession Observe.
Local Open Scope string_scope.

Lemma connected_later (before later : list event) :
  connected later = true -> connected (before ++ later) = true.
Proof.
  unfold connected. rewrite !existsb_app. intros H.
  apply andb_true_iff in H. destruct H as [H1 H2].
  rewrite H1, H2, !orb_true_r. reflexivity.
Qed.

Lemma connected_earlier (before later : list event) :
  connected before = true -> connected (before ++ later) = true.
Proof.
  unfold connected. rewrite !existsb_app. intros H.
  apply andb_true_iff in H. destruct H as [H1 H2].
  rewrite H1, H2. reflexivity.
Qed.

Lemma connected_cons (e : event) (later : list event) :
  connected later = true -> connected (e :: later) = true.
Proof. apply (connected_later [e]). Qed.

Lemma address_read_of (url : string) (evs : list event) :
  url <> "" ->
  existsb (read_as ssh_file url) evs = true ->
  existsb address_read evs = true.
Proof.
  intros Hurl H. apply existsb_exists in H. destruct H as (e & Hin & He).
  apply existsb_exists. exists e. split; [exact Hin |].
  destruct e as [R o r | m | p]; try discriminate.
  destruct o; try discriminate. destruct r as [text | x]; try discriminate.
  cbn [read_as address_read] in *.
  apply andb_true_iff in He. destruct He as [Hp Ht].
  rewrite Hp. apply String.eqb_eq in Ht. rewrite Ht.
  apply String.eqb_neq in Hurl. rewrite Hurl. reflexivity.
Qed.

Section Proofs.
Context {World : Type}.
Variable sys : forall R, op R -> World -> reply R * World.

(** A turn of the inner loop ends the search only with True, and only
    after the descriptor was seen ready with an SSH address. *)
Lemma poll_once_outcome (attempt : Z) (w : World) (s : InterviewSession.t) :
  exists r w' s' evs,
    poll_once sys attempt w s = Run r w' s' evs
    /\ (forall b, r = Ret (Return b) -> b = true /\ connected evs = true).
Proof.
  unfold poll_once, on_manager. sim.
  destruct (ProvisionSteps.get_tmate_info_cases sys w (challenge_manager s))
    as (is_ready & ssh_url & web_url & w1 & evs1 & Hrun1 & _ & Hready & Hssh & _).
  rewrite Hrun1. sim.
  destruct (is_ready && nonempty ssh_url) eqn:Hfound; sim.
  - do 4 eexists. split; [reflexivity |].
    intros b Hb. injection Hb as <-. split; [reflexivity |].
    apply andb_true_iff in Hfound. destruct Hfound as [-> Hne].
    apply connected_earlier. unfold connected.
    rewrite (Hready eq_refl). cbn [andb].
    destruct ssh_url as [url |]; [| discriminate].
    apply (address_read_of url); [| apply Hssh; reflexivity].
    cbn in Hne. apply negb_true_iff, String.eqb_neq in Hne. exact Hne.
  - destruct (Session._check_session_failure_spec sys w1
                (set_challenge_manager (challenge_manager s) s))
      as (r2 & w2 & evs2 & Hrun2 & Hr2 & _).
    rewrite Hrun2.
    destruct r2 as [[] | e |]; [| | | congruence]; sim.
    + do 4 eexists. split; [reflexivity |]. intros b Hb. discriminate.
    + destruct ((attempt mod 3 =? 0)%Z && (attempt >? 0)%Z); sim;
        (run_call sys; do 4 eexists; (split; [reflexivity |]);
         intros b Hb; discriminate).
    + do 4 eexists. split; [reflexivity |]. intros b Hb. discriminate.
Qed.

Lemma poll_loop_outcome (attempts : list Z) :
  forall (w : World) (s : InterviewSession.t),
  exists r w' s' evs,
    for_in attempts (poll_once sys) w s = Run r w' s' evs
    /\ (forall b, r = Ret (Some b) -> b = true /\ connected evs = true)
    /\ count is_launch evs = 0
    /\ (attempts <> [] -> 1 <= count is_poll evs).
Proof.
  intros w s.
  destruct (Session.poll_loop_spec sys attempts w s)
    as (r & w' & s' & evs & Hrun & _ & _ & _ & Hl & _ & Hp).
  exists r, w', s', evs. split; [exact Hrun |].
  split; [| split; [exact Hl | exact Hp]].
  clear Hl Hp. revert w s r w' s' evs Hrun.
  induction attempts as [| a attempts IH]; intros w s r w' s' evs Hrun b Hb.
  - cbn in Hrun. injection Hrun as <- _ _ _. discriminate.
  - cbn [for_in] in Hrun. unfold bind at 1 in Hrun.
    destruct (poll_once_outcome a w s) as (r1 & w1 & s1 & evs1 & Hrun1 & Hout1).
    rewrite Hrun1 in Hrun.
    destruct r1 as [[| | b1] | e |].
    + destruct (for_in attempts (poll_once sys) w1 s1)
        as [r2 w2 s2 evs2] eqn:Hrun2.
      injection Hrun as <- <- <- <-.
      destruct (IH _ _ _ _ _ _ Hrun2 b Hb) as [Hb' Hc].
      split; [exact Hb' |]. apply connected_later. exact Hc.
    + injection Hrun as <- _ _ _. discriminate.
    + injection Hrun as <- <- <- <-. injection Hb as <-.
      rewrite app_nil_r. apply Hout1. reflexivity.
    + injection Hrun as <- _ _ _. discriminate.
    + injection Hrun as <- _ _ _. discriminate.
Qed.

(** The launch that opens a retry. *)
Lemma relaunch_outcome (retry : Z) (w : World) (s : InterviewSession.t) :
  exists r w' s' evs,
    (if (retry >? 0)%Z
     then bind (print ("Retry " ++ str_int retry ++ "/"
                       ++ str_int (Z.of_nat max_retries)))
            (fun _ =>
               bind (within challenge_manager set_challenge_manager
                       (start_candidate_environment sys))
                    (fun _ => call sys (Sleep 3)))
     else ret tt) w s = Run r w' s' evs
    /\ r <> Diverge
    /\ count is_launch evs = (if (retry >? 0)%Z then 1 else 0)
    /\ count is_poll evs = 0.
Proof.
  destruct (retry >? 0)%Z; sim.
  - destruct (Session.start_candidate_environment_spec sys w (challenge_manager s))
      as (r1 & w1 & evs1 & Hrun1 & Hr1 & Hevs1).
    rewrite Hrun1.
    destruct (Session.count_idle _ Hevs1) as (Hp1 & Hl1 & Hs1).
    destruct r1 as [[] | e |]; [| | congruence]; sim.
    + run_call sys; do 4 eexists; (split; [reflexivity |]);
        (split; [discriminate |]);
        rewrite !count_cons, !count_app, ?count_cons, Hp1, Hl1; cbn;
        split; reflexivity.
    + do 4 eexists. split; [reflexivity |]. split; [discriminate |].
      rewrite !count_cons, Hp1, Hl1. cbn. split; reflexivity.
  - do 4 eexists. split; [reflexivity |]. split; [discriminate |].
    split; reflexivity.
Qed.

(** One attempt ends the search only with True, after the descriptor was
    seen ready; when the search goes on, the attempt has polled at least
    once and, if it is a retry, has relaunched the sandbox once. *)
Lemma attempt_once_outcome (retry : Z) (w : World) (s : InterviewSession.t) :
  exists r w' s' evs,
    attempt_once sys retry w s = Run r w' s' evs
    /\ (forall b, r = Ret (Return b) -> b = true /\ connected evs = true)
    /\ (r = Ret Next ->
        count is_launch evs = (if (retry >? 0)%Z then 1 else 0)
        /\ 1 <= count is_poll evs)
    /\ r <> Ret Break.
Proof.
  unfold attempt_once, on_manager.
  destruct (relaunch_outcome retry w s)
    as (r0 & w0 & s0 & evs0 & Hrun0 & Hr0 & Hl0 & Hp0).
  unfold bind at 1. rewrite Hrun0.
  destruct r0 as [[] | e |]; [| | congruence].
  - sim.
    destruct (poll_loop_outcome (range polls_per_attempt) w0 s0)
      as (r1 & w1 & s1 & evs1 & Hrun1 & Hout1 & Hl1 & Hp1).
    rewrite Hrun1.
    specialize (Hp1 ltac:(discriminate)).
    destruct r1 as [[b |] | e |]; sim.
    + do 4 eexists. split; [reflexivity |].
      split; [| split; [discriminate | discriminate]].
      intros b' Hb'. injection Hb' as <-.
      destruct (Hout1 b eq_refl) as [Hb Hc]. split; [exact Hb |].
      apply connected_later, connected_cons.
      rewrite app_nil_r. exact Hc.
    + destruct (retry <? Z.of_nat max_retries)%Z; sim;
        do 4 eexists; (split; [reflexivity |]);
        (split; [intros b Hb; discriminate |]);
        (split; [| discriminate]); intros _;
        rewrite !count_app, !count_cons, !count_app, ?count_cons, Hl0, Hl1;
        cbn; split; lia.
    + do 4 eexists. split; [reflexivity |].
      split; [intros b Hb; discriminate |]. split; discriminate.
    + do 4 eexists. split; [reflexivity |].
      split; [intros b Hb; discriminate |]. split; discriminate.
  - do 4 eexists. split; [reflexivity |].
    split; [intros b Hb; discriminate |]. split; discriminate.
Qed.

Lemma attempt_loop_outcome (retries : list Z) :
  forall (w : World) (s : InterviewSession.t),
  exists r w' s' evs,
    for_in retries (attempt_once sys) w s = Run r w' s' evs
    /\ (forall b, r = Ret (Some b) -> b = true /\ connected evs = true)
    /\ (r = Ret None ->
        count is_launch evs
        = List.length (filter (fun retry => (retry >? 0)%Z) retries)
        /\ List.length retries <= count is_poll evs).
Proof.
  induction retries as [| a retries IH]; intros w s.
  - do 4 eexists. split; [reflexivity |].
    split; [intros b Hb; discriminate |]. intros _. split; reflexivity.
  - cbn [for_in filter]. unfold bind at 1.
    destruct (attempt_once_outcome a w s)
      as (r1 & w1 & s1 & evs1 & Hrun1 & Hout1 & Hnext1 & Hbreak1).
    rewrite Hrun1.
    destruct r1 as [[| | b] | e |]; [| congruence | | |].
    + destruct (IH w1 s1) as (r2 & w2 & s2 & evs2 & Hrun2 & Hout2 & Hnone2).
      rewrite Hrun2. do 4 eexists. split; [reflexivity |]. split.
      * intros b Hb. destruct (Hout2 b Hb) as [Hb' Hc].
        split; [exact Hb' |]. apply connected_later. exact Hc.
      * intros Hr. destruct (Hnone2 Hr) as [Hl2 Hp2].
        destruct (Hnext1 eq_refl) as [Hl1 Hp1].
        rewrite !count_app, Hl1, Hl2.
        destruct (a >? 0)%Z; cbn [List.length]; split; lia.
    + do 4 eexists. split; [reflexivity |]. split; [| discriminate].
      intros b' Hb'. injection Hb' as <-. rewrite app_nil_r.
      apply Hout1. reflexivity.
    + do 4 eexists. split; [reflexivity |].
      split; [intros b Hb; discriminate | discriminate].
    + do 4 eexists. split; [reflexivity |].
      split; [intros b Hb; discriminate | discriminate].
Qed.

(** X21.  What the answer of the establisher means.  It returns True only
    after the status file was read with the text "ready" and the file of
    the SSH address was read with an address that is not empty.  It
    returns False only after the first attempt and both retries have run:
    the sandbox was relaunched exactly [max_retries] times and the
    descriptor was polled at least [max_retries + 1] times, once or more
    in each attempt; a status "failed" or "timeout" ends an attempt,
    never the search. *)
Theorem _setup_candidate_connection_outcome (w : World)
    (s : InterviewSession.t) :
  exists r w' s' evs,
    _setup_candidate_connection sys w s = Run r w' s' evs
    /\ (r = Ret true -> connected evs = true)
    /\ (r = Ret false ->
        count is_launch evs = max_retries
        /\ max_retries + 1 <= count is_poll evs).
Proof.
  unfold _setup_candidate_connection. unfold bind.
  destruct (attempt_loop_outcome (range (max_retries + 1)) w s)
    as (r & w1 & s1 & evs & Hrun & Hout & Hnone).
  rewrite Hrun.
  destruct r as [[b |] | e |]; sim; do 4 eexists; (split; [reflexivity |]);
    rewrite ?app_nil_r.
  - split.
    + intros _. apply (Hout b eq_refl).
    + intros Hb. injection Hb as ->. destruct (Hout false eq_refl). discriminate.
  - split; [discriminate |]. intros _. exact (Hnone eq_refl).
  - split; discriminate.
  - split; discriminate.
Qed.

End Proofs.

End Establisher.

(** ** The session: health monitoring *)

Module Monitoring.

Import ChallengeManager InterviewSession Observe.
Local Open Scope string_scope.

Lemma taken_down_earlier (p : pid) (later after : list event) :
  taken_down p later = true -> taken_down p (later ++ after) = true.
Proof.
  unfold taken_down. rewrite !existsb_app. intros H.
  apply andb_true_iff in H. destruct H as [H1 H2]. rewrite H1. cbn.
  apply orb_true_iff in H2. destruct H2 as [H2 | H2].
  - apply andb_true_iff in H2. destruct H2 as [H2 H3].
    rewrite H2, H3. reflexivity.
  - rewrite H2, !orb_true_r. reflexivity.
Qed.

Lemma tunnels_released_app (a b : list event) :
  tunnels_released a = true -> tunnels_released b = true ->
  tunnels_released (a ++ b) = true.
Proof.
  induction a as [| e a IH]; [auto |].
  cbn [app tunnels_released]. intros Ha Hb.
  destruct (started e) as [p |]; [| auto].
  apply andb_true_iff in Ha. destruct Ha as [Hd Ha].
  rewrite (taken_down_earlier _ _ _ Hd), (IH Ha Hb). reflexivity.
Qed.

Lemma tunnels_released_cons (e : event) (evs : list event) :
  started e = None -> tunnels_released evs = true ->
  tunnels_released (e :: evs) = true.
Proof. intros He Hevs. cbn [tunnels_released]. rewrite He. exact Hevs. Qed.

Lemma count_unprobed (evs : list event) :
  forallb unprobed evs = true ->
  count (is_enter "check_health") evs = 0 /\ count is_input evs = 0.
Proof.
  induction evs as [| e evs IH]; [split; reflexivity |].
  cbn [forallb]. intros H. apply andb_true_iff in H. destruct H as [He Hevs].
  destruct (IH Hevs) as [H1 H2].
  unfold unprobed in He. rewrite andb_true_iff, !negb_true_iff in He.
  destruct He as [Hp Hi].
  rewrite !count_cons, Hp, Hi, H1, H2. split; reflexivity.
Qed.

Section Proofs.
Context {World : Type}.
Variable sys : forall R, op R -> World -> reply R * World.

Lemma release_port_forward_unprobed (p : pid) (w : World)
    (h : ChallengeManager.t) :
  forallb unprobed (events (release_port_forward sys p w h)) = true.
Proof.
  unfold release_port_forward, except_Exception. sim.
  run_call sys; [run_call sys |];
    rewrite ?isinstance_Exception; sim; try run_call sys;
    rewrite ?isinstance_Exception; sim; reflexivity.
Qed.

Lemma probe_run (p : pid) (w : World) (h : ChallengeManager.t) :
  exists r w' evs,
    probe sys p w h = Run r w' h evs
    /\ r <> Diverge
    /\ existsb is_popen evs = false
    /\ forallb unprobed evs = true.
Proof.
  unfold probe. sim.
  run_call sys; [run_call sys; [destruct r0; sim; [| run_call sys] |] |];
    do 3 eexists; (split; [reflexivity |]); (split; [discriminate |]);
    split; reflexivity.
Qed.

(** One probe: it returns, it is one entry of [check_health], it asks
    nothing of the keyboard, and the port-forward it started is taken
    down. *)
Lemma check_health_run (w : World) (h : ChallengeManager.t) :
  exists answer w' evs,
    check_health sys w h = Run (Ret answer) w' h (EvEnter "check_health" :: evs)
    /\ tunnels_released evs = true
    /\ forallb unprobed evs = true.
Proof.
  unfold check_health, _run_command.
  generalize (get_service h) (port_forward_cmd h). intros svc fwd. sim.
  run_call sys.
  - destruct (returncode r =? 0)%Z; sim.
    + run_call sys.
      * destruct (probe_run r0 w1 h) as (res & w2 & evs & Hrun & Hd & Hp & Hq).
        rewrite Hrun. sim.
        destruct (HealthProber.release_port_forward_spec sys r0 w2 h)
          as (Hr & Ht & Hn).
        pose proof (release_port_forward_unprobed r0 w2 h) as Hq'.
        destruct (HealthFailures.release_port_forward_silent sys r0 w2 h)
          as (w3 & evs' & Hrun' & _).
        rewrite Hrun' in Hr, Ht, Hn, Hq' |- *.
        cbn [result events] in *.
        assert (Hrel : tunnels_released
                         (EvCall (Exec svc true) (Ok r)
                          :: EvCall (Popen fwd) (Ok r0) :: evs ++ evs')
                       = true).
        { cbn [tunnels_released started].
          rewrite HealthProber.taken_down_later by exact Ht.
          apply HealthProber.no_popen_released.
          rewrite existsb_app, Hp, Hn. reflexivity. }
        assert (Hun : forallb unprobed
                        (EvCall (Exec svc true) (Ok r)
                         :: EvCall (Popen fwd) (Ok r0) :: evs ++ evs')
                      = true).
        { cbn [forallb]. rewrite forallb_app, Hq, Hq'. reflexivity. }
        destruct res as [a | e |]; [| | congruence]; sim.
        -- do 3 eexists. split; [reflexivity |]. split; [exact Hrel | exact Hun].
        -- destruct (HealthFailures.probe_failure_unhealthy e w3 h)
             as [message Hm].
           rewrite Hm. sim. rewrite app_nil_r.
           do 3 eexists. split; [reflexivity |]. split; [exact Hrel | exact Hun].
      * destruct (HealthFailures.probe_failure_unhealthy e w1 h) as [message Hm].
        rewrite Hm. sim.
        do 3 eexists. split; [reflexivity |]. split; reflexivity.
    + do 3 eexists. split; [reflexivity |]. split; reflexivity.
  - destruct (HealthFailures.probe_failure_unhealthy e w0 h) as [message Hm].
    rewrite Hm. sim.
    do 3 eexists. split; [reflexivity |]. split; reflexivity.
Qed.

(** One check of the monitoring loop. *)
Lemma _check_health_run (w : World) (s : InterviewSession.t) :
  exists r w' s' evs,
    _check_health sys w s = Run r w' s' evs
    /\ r <> Diverge
    /\ same_session s s'
    /\ tunnels_released evs = true
    /\ count (is_enter "check_health") evs <= 1
    /\ count is_input evs = 0.
Proof.
  unfold _check_health, _format_elapsed_time, on_manager. sim.
  destruct (start_time s) as [begun |]; sim.
  2:{ do 4 eexists. split; [reflexivity |]. split; [discriminate |].
      split; [apply Session.same_session_refl |].
      split; [reflexivity |]. split; [cbn; lia | reflexivity]. }
  run_call sys.
  2:{ do 4 eexists. split; [reflexivity |]. split; [discriminate |].
      split; [apply Session.same_session_refl |].
      split; [reflexivity |]. split; [cbn; lia | reflexivity]. }
  destruct (check_health_run w0 (challenge_manager s))
    as ([[is_healthy status_msg] code] & w1 & evs1 & Hrun1 & Hrel1 & Hun1).
  rewrite Hrun1. sim.
  destruct (count_unprobed _ Hun1) as [Hc1 Hi1].
  destruct is_healthy; sim;
    do 4 eexists; (split; [reflexivity |]); (split; [discriminate |]);
    (split; [apply Session.same_session_manager |]);
    (split;
     [cbn [tunnels_released started app];
      apply tunnels_released_app; [exact Hrel1 | reflexivity] |]);
    rewrite !count_cons, !count_app, Hc1, Hi1; cbn; split; lia.
Qed.

(** The monitoring loop. *)
Lemma monitor_run (fuel : nat) :
  forall (w : World) (s : InterviewSession.t),
  exists r w' s' evs,
    monitor sys fuel w s = Run r w' s' evs
    /\ same_session s s'
    /\ tunnels_released evs = true
    /\ count (is_enter "check_health") evs <= count is_input evs
    /\ (session_active s = false -> fuel <> 0 ->
        r = Ret tt /\ w' = w /\ evs = [])
    /\ (session_active s = true -> r = Ret tt ->
        existsb interrupted evs = true).
Proof.
  induction fuel as [| k IH]; intros w s.
  - do 4 eexists. split; [reflexivity |].
    split; [apply Session.same_session_refl |].
    split; [reflexivity |]. split; [cbn; lia |].
    split; [congruence | discriminate].
  - cbn [monitor]. sim.
    destruct (session_active s) eqn:Hactive; sim.
    2:{ do 4 eexists. split; [reflexivity |].
        split; [apply Session.same_session_refl |].
        split; [reflexivity |]. split; [cbn; lia |].
        split; [auto | discriminate]. }
    run_call sys.
    2:{ do 4 eexists. split; [reflexivity |].
        split; [apply Session.same_session_refl |].
        split; [reflexivity |]. split; [cbn; lia |].
        split; discriminate. }
    destruct r as [text |]; sim.
    2:{ do 4 eexists. split; [reflexivity |].
        split; [apply Session.same_session_refl |].
        split; [reflexivity |]. split; [cbn; lia |].
        split; [discriminate | reflexivity]. }
    destruct (strip text =? ""); sim.
    + destruct (_check_health_run w0 s)
        as (r1 & w1 & s1 & evs1 & Hrun1 & Hr1 & Hs1 & Hrel1 & Hc1 & Hi1).
      rewrite Hrun1.
      destruct r1 as [[] | e |]; [| | congruence]; sim.
      * destruct (IH w1 s1)
          as (r2 & w2 & s2 & evs2 & Hrun2 & Hs2 & Hrel2 & Hc2 & _ & Hint2).
        rewrite Hrun2. do 4 eexists. split; [reflexivity |].
        split; [exact (Session.same_session_trans _ _ _ Hs1 Hs2) |].
        split; [| split; [| split; [discriminate |]]].
        -- cbn [tunnels_released started app].
           apply tunnels_released_app; [exact Hrel1 | exact Hrel2].
        -- rewrite !count_cons, !count_app. cbn. lia.
        -- intros _ Hr. cbn [existsb interrupted app].
           rewrite existsb_app, Hint2, orb_true_r; [reflexivity | | exact Hr].
           destruct Hs1 as (_ & _ & Ha). congruence.
      * do 4 eexists. split; [reflexivity |].
        split; [exact Hs1 |].
        split; [| split; [| split; discriminate]].
        -- cbn [tunnels_released started app]. exact Hrel1.
        -- rewrite !count_cons. cbn. lia.
    + destruct (IH w0 s)
        as (r2 & w2 & s2 & evs2 & Hrun2 & Hs2 & Hrel2 & Hc2 & _ & Hint2).
      rewrite Hrun2. do 4 eexists. split; [reflexivity |].
      split; [exact Hs2 |].
      split; [| split; [| split; [discriminate |]]].
      * cbn [tunnels_released started app]. exact Hrel2.
      * rewrite !count_cons. cbn. lia.
      * intros _ Hr. cbn [existsb interrupted app].
        apply (Hint2 Hactive Hr).
Qed.

(** X22.  Health monitoring.  Each health probe answers a line typed at the
    prompt: there are never more probes than lines read.  Whatever the
    probes meet, no port-forward process is left behind.  The session stays
    as it is (monitoring never ends it), so that monitoring of an active
    session comes to a normal end only when Ctrl+C is pressed at the prompt;
    on a session that is not active it returns at once. *)
Theorem _start_health_monitoring_probes (fuel : nat) (w : World)
    (s : InterviewSession.t) :
  exists r w' s' evs,
    _start_health_monitoring sys (S fuel) w s = Run r w' s' evs
    /\ same_session s s'
    /\ tunnels_released evs = true
    /\ count (is_enter "check_health") evs <= count is_input evs
    /\ (session_active s = false -> r = Ret tt /\ count is_input evs = 0)
    /\ (session_active s = true -> r = Ret tt ->
        existsb interrupted evs = true).
Proof.
  unfold _start_health_monitoring. sim.
  destruct (monitor_run (S fuel) w s)
    as (r & w' & s' & evs & Hrun & Hs & Hrel & Hc & Hidle & Hint).
  rewrite Hrun. do 4 eexists. split; [reflexivity |].
  split; [exact Hs |]. split; [exact Hrel |].
  split; [rewrite !count_cons; cbn; lia |].
  split.
  - intros Ha. destruct (Hidle Ha ltac:(discriminate)) as (-> & _ & ->).
    split; reflexivity.
  - intros Ha Hr. cbn [existsb interrupted]. exact (Hint Ha Hr).
Qed.

End Proofs.

End Monitoring.

(** ** The session: start *)

Module SessionStart.

Import ChallengeManager InterviewSession Observe.
Local Open Scope string_scope.

(** The manual of [x.yaml] is [x.md]. *)
Lemma replace_yaml_md (x : string) :
  dotless x = true -> replace ".yaml" ".md" (x ++ ".yaml") = x ++ ".md".
Proof.
  unfold replace, dotless. induction x as [| c x IH]; [reflexivity |].
  cbn [list_ascii_of_string forallb]. intros H.
  apply andb_true_iff in H. destruct H as [Hc Hx].
  apply negb_true_iff in Hc. rewrite Ascii.eqb_sym in Hc.
  cbn [append replace_from starts_with]. rewrite Hc. cbn [andb].
  rewrite (IH Hx). reflexivity.
Qed.

Lemma presentable_fields (c : Challenge) :
  presentable c = true ->
  exists title text bronze silver gold,
    name c = VStr title /\ description c = VStr text
    /\ getitem (estimates c) "Lv1" = Ok bronze
    /\ getitem (estimates c) "Lv2" = Ok silver
    /\ getitem (estimates c) "Lv3" = Ok gold.
Proof.
  unfold presentable, getitem, contains.
  destruct (name c) as [| | | title | |]; try discriminate.
  destruct (description c) as [| | | text | |]; try discriminate.
  destruct (estimates c) as [| | | | | d]; try discriminate.
  destruct (lookup d "Lv1") as [bronze |]; [| discriminate].
  destruct (lookup d "Lv2") as [silver |]; [| discriminate].
  destruct (lookup d "Lv3") as [gold |]; [| discriminate].
  intros _. do 5 eexists. repeat split.
Qed.

Section Proofs.
Context {World : Type}.
Variable sys : forall R, op R -> World -> reply R * World.
Variable yaml_dump : value -> reply string.
Variable json_dumps : value -> reply string.
Variable repr : value -> string.

(** X23.  The manual of a challenge is read from the file of the same name
    with the extension [.md], in the directory of the challenge: for the
    challenge found in [x.yaml] (with no dot in [x]) reading the manual is
    one read of [x.md], and fails as this read fails.  A manual already
    loaded is returned without any read. *)
Theorem manual_reads_md {H : Type} (c : Challenge) (w : World) (h : H) :
  (forall text,
      _manual c = Some text -> manual sys c w h = Run (Ret text) w h [])
  /\ (forall x,
      _manual c = None ->
      filename c = x ++ ".yaml" ->
      dotless x = true ->
      manual sys c w h
      = call sys (ReadText (challenge_dir c ++ "/" ++ x ++ ".md")) w h).
Proof.
  split.
  - intros text Hm. unfold manual. rewrite Hm. reflexivity.
  - intros x Hm Hname Hx. unfold manual.
    rewrite Hm, Hname, (replace_yaml_md x Hx). reflexivity.
Qed.

(** The opening of a session, up to the launch of the sandbox: either
    the sandbox is launched, or an exception ends the opening before
    provisioning is entered and before any command is run. *)
Lemma begin_session_steps (c : Challenge) (w : World) (s : InterviewSession.t) :
  exists r w' s' evs,
    begin_session sys yaml_dump json_dumps repr c w s = Run r w' s' evs
    /\ (existsb is_launch evs = true
        \/ ((exists e, r = Exn e)
            /\ existsb (is_enter "setup_challenge") evs = false
            /\ commands evs = [])).
Proof.
  unfold begin_session, on_manager, manual. sim.
  run_call sys;
    [| do 4 eexists; (split; [reflexivity |]); right;
       split; [eexists; reflexivity | split; reflexivity]].
  match goal with
  | |- context [text_append ?v ?ww ?ss] =>
      destruct (Session.text_append_spec (World := World) v ww ss)
        as (r1 & Hrun1 & Hr1)
  end.
  rewrite Hrun1.
  destruct r1 as [[] | e |]; [| | congruence]; sim;
    [| do 4 eexists; (split; [reflexivity |]); right;
       split; [eexists; reflexivity | split; reflexivity]].
  match goal with
  | |- context [text_append ?v ?ww ?ss] =>
      destruct (Session.text_append_spec (World := World) v ww ss)
        as (r2 & Hrun2 & Hr2)
  end.
  rewrite Hrun2.
  destruct r2 as [[] | e |]; [| | congruence]; sim;
    [| do 4 eexists; (split; [reflexivity |]); right;
       split; [eexists; reflexivity | split; reflexivity]].
  destruct (getitem (estimates c) "Lv1") as [bronze | e]; sim;
    [| do 4 eexists; (split; [reflexivity |]); right;
       split; [eexists; reflexivity | split; reflexivity]].
  destruct (getitem (estimates c) "Lv2") as [silver | e]; sim;
    [| do 4 eexists; (split; [reflexivity |]); right;
       split; [eexists; reflexivity | split; reflexivity]].
  destruct (getitem (estimates c) "Lv3") as [gold | e]; sim;
    [| do 4 eexists; (split; [reflexivity |]); right;
       split; [eexists; reflexivity | split; reflexivity]].
  assert (Hmanual :
    forall w1 (s1 : InterviewSession.t), exists r w' evs,
      match _manual c with
      | Some text => ret text
      | None =>
          call sys
            (ReadText (challenge_dir c ++ "/" ++ replace ".yaml" ".md" (filename c)))
      end w1 s1 = Run r w' s1 evs /\ r <> Diverge
      /\ existsb (is_enter "setup_challenge") evs = false
      /\ commands evs = []).
  { intros w1 s1. destruct (_manual c); sim.
    - do 3 eexists. split; [reflexivity |]. split; [discriminate |].
      split; reflexivity.
    - run_call sys; do 3 eexists; (split; [reflexivity |]);
        (split; [discriminate |]); split; reflexivity. }
  revert Hmanual. sim. intros Hmanual.
  match goal with
  | |- context [match _manual c with _ => _ end ?ww ?ss] =>
      destruct (Hmanual ww ss) as (rm & wm & evm & Hrunm & Hrm & Hem & Hcm)
  end.
  rewrite Hrunm. clear Hmanual Hrunm.
  destruct rm as [text | e |]; [| | congruence]; sim.
  2:{ do 4 eexists. split; [reflexivity |]. right.
      split; [eexists; reflexivity |].
      cbn [existsb is_enter commands]. split; [exact Hem | exact Hcm]. }
  match goal with
  | |- context [setup_challenge ?a ?b ?d ?f ?cc ?ww ?hh] =>
      destruct (Provisioner.setup_challenge_cases a b d f cc ww hh)
        as (b1 & w1 & evs1 & Hrun1' & _)
  end.
  rewrite Hrun1'. sim.
  match goal with
  | |- context [start_candidate_environment sys ?ww ?hh] =>
      destruct (Session.start_candidate_environment_spec sys ww hh)
        as (r3 & w3 & evs3 & Hrun3 & Hr3 & _)
  end.
  rewrite Hrun3.
  destruct r3 as [[] | e |]; [| | congruence];
    do 4 eexists; (split; [reflexivity |]); left;
    cbn [existsb is_launch is_enter];
    repeat (rewrite existsb_app || rewrite existsb_cons);
    cbn; rewrite ?orb_true_r; reflexivity.
Qed.

(** X24.  [start_session] does not look at the answer of [setup_challenge]:
    once provisioning has been entered, whether it succeeds or fails, the
    sandbox is launched.  And when the sandbox was not launched, the session
    start raised before any command was run. *)
Theorem start_session_launches_after_setup (fuel : nat) (c : Challenge)
    (w : World) (s : InterviewSession.t) :
  exists r w' s' evs,
    start_session sys yaml_dump json_dumps repr fuel c w s = Run r w' s' evs
    /\ (existsb (is_enter "setup_challenge") evs = true ->
        existsb is_launch evs = true)
    /\ (existsb is_launch evs = false ->
        (exists e, r = Exn e) /\ commands evs = []).
Proof.
  destruct (begin_session_steps c w s)
    as (r1 & w1 & s1 & evs1 & Hrun1 & Hcase).
  unfold start_session. unfold bind at 1. rewrite Hrun1.
  destruct r1 as [[] | e |].
  - destruct Hcase as [Hlaunch | [[e He] _]]; [| discriminate].
    match goal with
    | |- exists r w' s' evs, match ?m with Run _ _ _ _ => _ end = _ /\ _ =>
        destruct m as [r2 w2 s2 evs2]
    end.
    do 4 eexists. split; [reflexivity |].
    rewrite !existsb_app, Hlaunch. cbn [orb].
    split; [reflexivity | discriminate].
  - do 4 eexists. split; [reflexivity |].
    destruct Hcase as [Hlaunch | (_ & Hsetup & Hcmd)].
    + rewrite Hlaunch. split; [reflexivity | discriminate].
    + rewrite Hsetup. split; [discriminate |].
      intros _. split; [eexists; reflexivity | exact Hcmd].
  - do 4 eexists. split; [reflexivity |].
    destruct Hcase as [Hlaunch | [[e He] _]]; [| discriminate].
    rewrite Hlaunch. split; [reflexivity | discriminate].
Qed.

(** X25.  A scenario without its manual is not deployed: when the manual
    cannot be read, [start_session] raises the exception of the read before
    any command is run; the session is by then marked active, with the
    challenge recorded. *)
Theorem start_session_without_manual (fuel : nat) (c : Challenge)
    (w w1 w2 : World) (s : InterviewSession.t) (now : Z) (e : exn) :
  presentable c = true ->
  _manual c = None ->
  sys _ Now w = (Ok now, w1) ->
  sys _ (ReadText (challenge_dir c ++ "/"
                   ++ replace ".yaml" ".md" (filename c))) w1
  = (Err e, w2) ->
  exists s' evs,
    start_session sys yaml_dump json_dumps repr fuel c w s
    = Run (Exn e) w2 s' evs
    /\ commands evs = []
    /\ session_active s' = true
    /\ InterviewSession.current_challenge s' = Some c.
Proof.
  intros Hshow Hmanual Hnow Hread.
  destruct (presentable_fields c Hshow)
    as (title & text & bronze & silver & gold & Hn & Hd & H1 & H2 & H3).
  unfold start_session, begin_session, on_manager, manual, text_append. sim.
  rewrite Hnow. sim. rewrite Hn, Hd. sim.
  rewrite H1. sim. rewrite H2. sim. rewrite H3. sim.
  rewrite Hmanual. sim. rewrite Hread. sim.
  do 2 eexists. split; [reflexivity |]. repeat split.
Qed.

End Proofs.

(** No file can be read: the plain scenario has no manual. *)
Lemma start_session_without_manual_witness :
  exists s' evs,
    start_session
      (Worlds.scripted
         (Worlds.with_files (fun _ => false) (fun _ => Err FileNotFoundError)
            (Ok []) Worlds.calm))
      Worlds.dump Worlds.dump Worlds.show 3 Worlds.plain_scenario tt
      (init Worlds.manager)
    = Run (Exn FileNotFoundError) tt s' evs
    /\ commands evs = []
    /\ session_active s' = true
    /\ InterviewSession.current_challenge s' = Some Worlds.plain_scenario.
Proof.
  exact (start_session_without_manual
           (Worlds.scripted
              (Worlds.with_files (fun _ => false)
                 (fun _ => Err FileNotFoundError) (Ok []) Worlds.calm))
           Worlds.dump Worlds.dump Worlds.show 3 Worlds.plain_scenario
           tt tt tt (init Worlds.manager) 0%Z FileNotFoundError
           eq_refl eq_refl eq_refl eq_refl).
Defined.

End SessionStart.

(** ** The command line: running a challenge *)

Module Runner.

Import ChallengeManager InterviewSession Observe.
Local Open Scope string_scope.

Section Proofs.
Context {World : Type}.
Variable sys : forall R, op R -> World -> reply R * World.
Variable yaml_safe_load : string -> reply value.
Variable yaml_dump : value -> reply string.
Variable json_dumps : value -> reply string.
Variable repr : value -> string.

(** Whenever [start_session] returns, with True or with False, the
    session is marked active. *)
Lemma start_session_active (fuel : nat) (c : Challenge) (w : World)
    (s : InterviewSession.t) (b : bool) (w' : World) (s' : InterviewSession.t)
    (evs : list event) :
  start_session sys yaml_dump json_dumps repr fuel c w s = Run (Ret b) w' s' evs ->
  session_active s' = true.
Proof.
  destruct (Session.begin_session_spec sys yaml_dump json_dumps repr c w s)
    as (r1 & w1 & s1 & evs1 & Hrun1 & Hr1 & Hs1).
  unfold start_session, _start_health_monitoring. sim. rewrite Hrun1.
  destruct r1 as [[] | e |]; [| discriminate | discriminate].
  destruct (Hs1 eq_refl) as (Hactive & _).
  destruct (Session._setup_candidate_connection_spec sys w1 s1)
    as (r2 & w2 & s2 & evs2 & Hrun2 & Hr2 & Hsame & _).
  rewrite Hrun2.
  assert (Hactive2 : session_active s2 = true)
    by (destruct Hsame as (_ & _ & Ha); congruence).
  destruct r2 as [[|] | e |]; [| | discriminate | discriminate]; sim.
  - destruct (Monitoring.monitor_run sys fuel w2 s2)
      as (r3 & w3 & s3 & evs3 & Hrun3 & Hsame3 & _).
    rewrite Hrun3.
    destruct r3 as [[] | e |]; sim; [| discriminate | discriminate].
    intros H. injection H as _ _ <- _.
    destruct Hsame3 as (_ & _ & Ha). congruence.
  - intros H. injection H as _ _ <- _. exact Hactive2.
Qed.

(** The wait on an active session does not come to a normal end by
    itself. *)
Lemma wait_until_stopped_active (fuel : nat) :
  forall (w : World) (s : InterviewSession.t),
    session_active s = true ->
    exists r w' evs,
      InterviewCLI.wait_until_stopped sys fuel w s = Run r w' s evs
      /\ r <> Ret tt.
Proof.
  induction fuel as [| k IH]; intros w s Hactive.
  - do 3 eexists. split; [reflexivity | discriminate].
  - cbn [InterviewCLI.wait_until_stopped]. sim. rewrite Hactive. sim.
    run_call sys.
    + destruct (IH w0 s Hactive) as (r1 & w1 & evs1 & Hrun1 & Hr1).
      rewrite Hrun1. do 3 eexists. split; [reflexivity | exact Hr1].
    + do 3 eexists. split; [reflexivity | discriminate].
Qed.

(** X26.  [_run_challenge] returns only when the session could not be
    started: once [start_session] has returned True the session stays active
    and the wait goes on until the process is interrupted.  When it returns,
    [start_session] has returned False, nothing more was done, and the
    session is still marked active. *)
Theorem _run_challenge_returns_on_failure_only (fuel : nat) (c : Challenge)
    (w : World) (s : InterviewSession.t) :
  result (InterviewCLI._run_challenge sys yaml_dump json_dumps repr fuel c w s)
  = Ret tt ->
  exists w' s' evs,
    InterviewCLI._run_challenge sys yaml_dump json_dumps repr fuel c w s
    = Run (Ret tt) w' s' evs
    /\ start_session sys yaml_dump json_dumps repr fuel c w s
       = Run (Ret false) w' s' evs
    /\ session_active s' = true.
Proof.
  unfold InterviewCLI._run_challenge. unfold bind.
  destruct (start_session sys yaml_dump json_dumps repr fuel c w s)
    as [r1 w1 s1 evs1] eqn:Hstart.
  destruct r1 as [[|] | e |]; [| | discriminate | discriminate].
  - pose proof (start_session_active _ _ _ _ _ _ _ _ Hstart) as Hactive.
    destruct (wait_until_stopped_active fuel w1 s1 Hactive)
      as (r2 & w2 & evs2 & Hrun2 & Hr2).
    rewrite Hrun2. cbn [result]. intros Hr. congruence.
  - intros _. cbn [ret]. rewrite app_nil_r.
    exists w1, s1, evs1. split; [reflexivity |]. split; [reflexivity |].
    exact (start_session_active _ _ _ _ _ _ _ _ Hstart).
Qed.


End Proofs.

(** In the calm environment no connection descriptor ever shows up:
    the session cannot be started and [_run_challenge] returns. *)
Lemma _run_challenge_returns_on_failure_only_witness :
  exists w' s' evs,
    InterviewCLI._run_challenge (Worlds.scripted Worlds.calm) Worlds.dump
      Worlds.dump Worlds.show 0 Worlds.plain_scenario tt
      (init Worlds.manager)
    = Run (Ret tt) w' s' evs
    /\ start_session (Worlds.scripted Worlds.calm) Worlds.dump Worlds.dump
         Worlds.show 0 Worlds.plain_scenario tt (init Worlds.manager)
       = Run (Ret false) w' s' evs
    /\ session_active s' = true.
Proof.
  apply (_run_challenge_returns_on_failure_only (Worlds.scripted Worlds.calm)).
  vm_compute. reflexivity.
Defined.


End Runner.

(** ** Information on the deployment *)

Module DeploymentInfo.

Import ChallengeManager Observe.
Local Open Scope string_scope.

(** On conditions that are mappings, the loop of [_is_pod_ready] looks
    for the first condition of type "Ready". *)
Lemma first_ready_find (ds : list dict) :
  first_ready (map VDict ds)
  = Ok (match find (fun d => is_text "Ready" (get d "type")) ds with
        | Some d => is_text "True" (get d "status")
        | None => false
        end).
Proof.
  induction ds as [| d ds IH]; [reflexivity |].
  cbn [map first_ready as_mapping find].
  destruct (is_text "Ready" (get d "type")); [reflexivity | exact IH].
Qed.

Lemma is_text_eq (text : string) (v : value) :
  is_text text v = true -> v = VStr text.
Proof.
  destruct v; try discriminate. cbn. intros H.
  apply String.eqb_eq in H. congruence.
Qed.

Lemma first_ready_true (conditions : list value) :
  first_ready conditions = Ok true ->
  exists d,
    In (VDict d) conditions
    /\ get d "type" = VStr "Ready" /\ get d "status" = VStr "True".
Proof.
  induction conditions as [| c conditions IH]; [discriminate |].
  cbn [first_ready]. destruct c as [| | | | | d]; try discriminate.
  cbn [as_mapping].
  destruct (is_text "Ready" (get d "type")) eqn:Htype.
  - intros H. injection H as H. exists d.
    split; [left; reflexivity |].
    split; apply is_text_eq; assumption.
  - intros H. destruct (IH H) as (d' & Hin & Ht & Hs).
    exists d'. split; [right; exact Hin | split; assumption].
Qed.

(** X28.  A pod is reported ready only when its status holds a condition of
    type "Ready" whose status is the string "True".  On a pod whose
    conditions are a list of mappings, the first condition of type "Ready"
    decides, and a pod without status or without conditions is not ready. *)
Theorem _is_pod_ready_first_condition (p : dict) :
  (_is_pod_ready (VDict p) = Ok true ->
   exists status conditions d,
     lookup p "status" = Some (VDict status)
     /\ iterate (get_default status "conditions" (VList [])) = Ok conditions
     /\ In (VDict d) conditions
     /\ get d "type" = VStr "Ready" /\ get d "status" = VStr "True")
  /\ (lookup p "status" = None -> _is_pod_ready (VDict p) = Ok false)
  /\ (forall status,
        lookup p "status" = Some (VDict status) ->
        lookup status "conditions" = None ->
        _is_pod_ready (VDict p) = Ok false)
  /\ (forall status ds,
        lookup p "status" = Some (VDict status) ->
        lookup status "conditions" = Some (VList (map VDict ds)) ->
        _is_pod_ready (VDict p)
        = Ok (match find (fun d => is_text "Ready" (get d "type")) ds with
              | Some d => is_text "True" (get d "status")
              | None => false
              end)).
Proof.
  unfold _is_pod_ready, get_default. cbn [as_mapping].
  split; [| split; [| split]].
  - destruct (lookup p "status") as [v |] eqn:Hstatus.
    + destruct v as [| | | | | status]; try discriminate. cbn [as_mapping].
      destruct (iterate match lookup status "conditions" with
                        | Some v => v
                        | None => VList []
                        end) as [conditions | e] eqn:Hiter; [| discriminate].
      intros H. destruct (first_ready_true _ H) as (d & Hin & Ht & Hs).
      exists status, conditions, d. repeat split; assumption.
    + cbn. discriminate.
  - intros H. rewrite H. reflexivity.
  - intros status H1 H2. rewrite H1. cbn [as_mapping]. rewrite H2. reflexivity.
  - intros status ds H1 H2. rewrite H1. cbn [as_mapping]. rewrite H2.
    cbn [iterate]. apply first_ready_find.
Qed.

Section Proofs.
Context {World : Type}.
Variable sys : forall R, op R -> World -> reply R * World.
Variable json_loads : string -> reply value.

(** X29.  [get_flagsmith_info] never raises: it answers with the
    information (namespace, release, pods, services) or with a mapping that
    holds an error message only.  When the listing of the pods exits with an
    error status the answer is the error mapping and the services are not
    listed: the commands are run with [check=True], so that the test of the
    return code that follows can never fail.  When both listings go through,
    the information holds the entries of the pods and of the services in the
    order of the listings; one pod or service that lacks an expected field
    turns the whole answer into the error mapping. *)
Theorem get_flagsmith_info_answer (w : World) (h : t) :
  (exists info w' evs,
      get_flagsmith_info sys json_loads w h = Run (Ret info) w' h evs
      /\ ((exists e, info = error_info e)
          \/ exists pods services, info = info_of h pods services))
  /\ (forall cp w1,
        sys _ (Exec (get_pods h) true) w = (Ok cp, w1) ->
        returncode cp <> 0%Z ->
        get_flagsmith_info sys json_loads w h
        = Run (Ret (error_info CalledProcessError)) w1 h
            [EvEnter "get_flagsmith_info";
             EvCall (Exec (get_pods h) true) (Ok cp)])
  /\ (forall cp w1 cp' w2 pods services,
        sys _ (Exec (get_pods h) true) w = (Ok cp, w1) ->
        returncode cp = 0%Z ->
        listed json_loads pod_entry (stdout cp) = Ok pods ->
        sys _ (Exec (get_services h) true) w1 = (Ok cp', w2) ->
        returncode cp' = 0%Z ->
        listed json_loads service_entry (stdout cp') = Ok services ->
        result (get_flagsmith_info sys json_loads w h)
        = Ret (info_of h pods services))
  /\ (forall cp w1 e,
        sys _ (Exec (get_pods h) true) w = (Ok cp, w1) ->
        returncode cp = 0%Z ->
        listed json_loads pod_entry (stdout cp) = Err e ->
        get_flagsmith_info sys json_loads w h
        = Run (Ret (error_info e)) w1 h
            [EvEnter "get_flagsmith_info";
             EvCall (Exec (get_pods h) true) (Ok cp)]).
Proof.
  split; [| split; [| split]].
  - unfold get_flagsmith_info, _run_command. sim.
    run_call sys.
    + destruct (returncode r =? 0)%Z eqn:Hrc; sim; rewrite ?Hrc; sim.
      * destruct (listed json_loads pod_entry (stdout r)) as [pods | e]; sim.
        -- run_call sys.
           ++ destruct (returncode r0 =? 0)%Z eqn:Hrc'; sim; rewrite ?Hrc'; sim.
              ** destruct (listed json_loads service_entry (stdout r0))
                   as [services | e]; sim.
                 --- do 3 eexists. split; [reflexivity |]. right. eauto.
                 --- rewrite isinstance_Exception. sim.
                     do 3 eexists. split; [reflexivity |]. left. eauto.
              ** rewrite isinstance_Exception. sim.
                 do 3 eexists. split; [reflexivity |]. left. eauto.
           ++ rewrite isinstance_Exception. sim.
              do 3 eexists. split; [reflexivity |]. left. eauto.
        -- rewrite isinstance_Exception. sim.
           do 3 eexists. split; [reflexivity |]. left. eauto.
      * rewrite isinstance_Exception. sim.
        do 3 eexists. split; [reflexivity |]. left. eauto.
    + rewrite isinstance_Exception. sim.
      do 3 eexists. split; [reflexivity |]. left. eauto.
  - intros cp w1 Hpods Hrc.
    unfold get_flagsmith_info, _run_command. sim. rewrite Hpods. sim.
    apply Z.eqb_neq in Hrc. rewrite Hrc. sim. reflexivity.
  - intros cp w1 cp' w2 pods services Hpods Hrc Hlist Hsvc Hrc' Hlist'.
    unfold get_flagsmith_info, _run_command. sim. rewrite Hpods. sim.
    apply Z.eqb_eq in Hrc. rewrite Hrc. sim. rewrite ?Hrc. sim.
    rewrite Hlist. sim.
    rewrite Hsvc. sim. apply Z.eqb_eq in Hrc'. rewrite Hrc'. sim.
    rewrite ?Hrc'. sim. rewrite Hlist'. sim. reflexivity.
  - intros cp w1 e Hpods Hrc Hlist.
    unfold get_flagsmith_info, _run_command. sim. rewrite Hpods. sim.
    apply Z.eqb_eq in Hrc. rewrite Hrc. sim. rewrite ?Hrc. sim.
    rewrite Hlist. sim.
    rewrite isinstance_Exception. sim. reflexivity.
Qed.

End Proofs.

(** A pod that is scheduled and not ready. *)
Lemma _is_pod_ready_first_condition_witness :
  _is_pod_ready Worlds.pending_pod = Ok false.
Proof.
  exact (proj2 (proj2 (proj2
           (_is_pod_ready_first_condition
              [(KStr "metadata", VDict [(KStr "name", VStr "flagsmith-api-0")]);
               (KStr "status",
                VDict [(KStr "phase", VStr "Pending");
                       (KStr "conditions",
                        VList [VDict [(KStr "type", VStr "PodScheduled");
                                      (KStr "status", VStr "True")];
                               VDict [(KStr "type", VStr "Ready");
                                      (KStr "status", VStr "False")]])])])))
           [(KStr "phase", VStr "Pending");
            (KStr "conditions",
             VList [VDict [(KStr "type", VStr "PodScheduled");
                           (KStr "status", VStr "True")];
                    VDict [(KStr "type", VStr "Ready");
                           (KStr "status", VStr "False")]])]
           [[(KStr "type", VStr "PodScheduled"); (KStr "status", VStr "True")];
            [(KStr "type", VStr "Ready"); (KStr "status", VStr "False")]]
           eq_refl eq_refl).
Defined.

(** The listing of the pods exits with status 1. *)
Lemma get_flagsmith_info_answer_witness :
  result (get_flagsmith_info (Worlds.scripted Worlds.all_fail) Worlds.toy_yaml
            tt Worlds.manager)
  = Ret (error_info CalledProcessError)
  /\ commands
       (events (get_flagsmith_info (Worlds.scripted Worlds.all_fail)
                  Worlds.toy_yaml tt Worlds.manager))
     = [get_pods Worlds.manager].
Proof.
  rewrite (proj1 (proj2 (get_flagsmith_info_answer
                           (Worlds.scripted Worlds.all_fail) Worlds.toy_yaml
                           tt Worlds.manager))
                 (mkCompleted 1 "") tt eq_refl ltac:(discriminate)).
  split; reflexivity.
Defined.

End DeploymentInfo.
